(** * Pittsburgh bus collectors: a model of gather_bus_updates.py and
    gather_predictions.py

    The two scripts poll the BusTime API on a fixed cadence, accumulate
    vehicle (and prediction) records in module-level lists and write a
    deduplicated snapshot of the lists every so many iterations.

    The model is a shallow embedding.  Decoded JSON and every other Python
    object the scripts handle is a [value]; a Python exception is a
    [Raises] result; the interpreter state the scripts touch (the global
    CALLS_COUNT, the dictionaries passed as request parameters, the two
    record lists) is a [State]; everything the process does to the outside
    (HTTP requests, printed lines, files written, sleeps) is appended to
    the state's [trace].  The collaborators the scripts call but do not
    define (the HTTP server, the JSON decoder, the builtin str, the clock,
    the environment) are the fields of an [Env].  Of pandas the model has
    what the scripts use: the frame made of a list of records, with the
    type pandas infers for each column, drop_duplicates, and to_csv as far
    as the file name decides whether the file can be opened. *)

From Stdlib Require Import Ascii.
From stdpp Require Import gmap strings pretty list fin_maps.

(** ** Python objects *)

(** What json.loads returns, and what the scripts store in their records.
    JSON numbers are integers here: the feed sends coordinates as strings
    and the remaining numeric fields (speed, distances) are integers, so
    no JSON number of a record is a float.  The pairs of a [VDict] list each
    key once, in the order of the JSON text. *)
#[warnings="-register-all"]
Inductive value :=
  | VNone
  | VBool (b : bool)
  | VInt (n : Z)
  | VStr (s : string)
  | VList (l : list value)
  | VDict (kvs : list (string * value)).

Inductive exn :=
  | KeyError (key : string)
  | TypeError
  | IndexError
  | AttributeError
  | JSONDecodeError
  | ValueError
  | OSError.

Inductive result (A : Type) :=
  | Returns (a : A)
  | Raises (e : exn).
Arguments Returns {A} a.
Arguments Raises {A} e.

#[global] Instance exn_eq_dec : EqDecision exn.
Proof. solve_decision. Defined.

#[global] Instance result_eq_dec {A} `{EqDecision A} : EqDecision (result A).
Proof. solve_decision. Defined.

#[global] Instance result_ret : MRet result := @Returns.
#[global] Instance result_bind : MBind result := λ A B f m,
  match m with
  | Returns a => f a
  | Raises e => Raises e
  end.
#[global] Instance result_fmap : FMap result := λ A B f m,
  match m with
  | Returns a => Returns (f a)
  | Raises e => Raises e
  end.

(** [obj[key]] for a string key. *)
Definition getitem (obj : value) (key : string) : result value :=
  match obj with
  | VDict kvs =>
      match list_find (λ kv, kv.1 = key) kvs with
      | Some (_, (_, v)) => Returns v
      | None => Raises (KeyError key)
      end
  | _ => Raises TypeError
  end.

(** [obj == key] for a string literal [key]. *)
Definition is_str (key : string) (obj : value) : bool :=
  match obj with
  | VStr s => bool_decide (s = key)
  | _ => false
  end.

(** [key in obj] for a string key: membership of the key in a dict, of the
    string among the elements of a list, substring test on a string. *)
Definition contains (key : string) (obj : value) : result bool :=
  match obj with
  | VDict kvs => Returns (bool_decide (key ∈ kvs.*1))
  | VList l => Returns (existsb (is_str key) l)
  | VStr s => Returns (bool_decide (is_Some (String.index 0 key s)))
  | _ => Raises TypeError
  end.

(** [for x in obj]: the elements of a list, the keys of a dict, the
    characters of a string. *)
Definition iter (obj : value) : result (list value) :=
  match obj with
  | VList l => Returns l
  | VDict kvs => Returns (VStr <$> kvs.*1)
  | VStr s => Returns ((λ c, VStr (String c EmptyString)) <$> String.list_ascii_of_string s)
  | _ => Raises TypeError
  end.

(** The characters of a string. *)
Definition chars (s : string) : list ascii := String.list_ascii_of_string s.

Fixpoint str_replace (old new : ascii) (s : string) : string :=
  match s with
  | EmptyString => EmptyString
  | String c s' => String (if decide (c = old) then new else c) (str_replace old new s')
  end.

(** [obj.replace(' ', '@')]: only a str has the method. *)
Definition replace (obj : value) (old new : ascii) : result string :=
  match obj with
  | VStr s => Returns (str_replace old new s)
  | _ => Raises AttributeError
  end.

(** [l[0]] and [l[-1]] on a list. *)
Definition first {A} (l : list A) : result A :=
  match l with
  | x :: _ => Returns x
  | [] => Raises IndexError
  end.

Definition last {A} (l : list A) : result A :=
  match list.last l with
  | Some x => Returns x
  | None => Raises IndexError
  end.

(** [range(start, stop, step)] for a positive step, with the length CPython
    computes for it. *)
Definition range (start stop step : nat) : list nat :=
  (λ k, start + k * step) <$> seq 0 ((stop - start + (step - 1)) / step).

(** [l[i:j]] for indices that are not negative. *)
Definition slice {A} (l : list A) (i j : nat) : list A :=
  take (j - i) (drop i l).

(** A list comprehension whose element expression can raise: the elements
    are evaluated left to right and the first exception ends it. *)
Fixpoint comprehension {A B} (f : A → result B) (l : list A) : result (list B) :=
  match l with
  | [] => Returns []
  | x :: l' => y ← f x; ys ← comprehension f l'; Returns (y :: ys)
  end.

(** The same with an [if] clause, which is evaluated first and can raise as
    well. *)
Fixpoint comprehension_if {A B} (cond : A → result bool) (f : A → result B)
    (l : list A) : result (list B) :=
  match l with
  | [] => Returns []
  | x :: l' =>
      c ← cond x;
      if c : bool then y ← f x; ys ← comprehension_if cond f l'; Returns (y :: ys)
      else comprehension_if cond f l'
  end.

(** ** Records *)

Module Vehicle.
Record t := mk {
  id : value;
  timestamp : value;
  lat : value;
  lon : value;
  destination : value;
  pattern_id : value;
  pattern_distance : value;
  trip_id : value;
  speed : value;
  passenger_load : value
}.
End Vehicle.

Module Prediction.
Record t := mk {
  timestamp : value;
  stop_id : value;
  vehicle_id : value;
  predicted_time : value;
  trip_id : value;
  distance_to_stop : value
}.
End Prediction.

(** ** Data frames *)

(** A record as the scripts hand it to pandas: the items of its dict, in
    the order of the dict literal. *)
Definition Row : Type := list (string * value).

(** What a frame holds in a cell.  pandas gives every column one type, which
    it infers from all the cells of the column, and stores each cell in that
    type: an integer in a column of integers, a float (or NaN, for None) in
    a column of integers in which a value is missing, a bool in a column of
    bools, and the Python object itself in any other column.  The floats of
    a frame come from integers, so each is worth a whole number and is
    written here as that number. *)
Inductive element :=
  | EInt (n : Z)
  | EFloat (x : Z)
  | ENaN
  | EBool (b : bool)
  | EObject (v : value).

(** A frame: the rows with their index labels.  Rendering the frame as CSV
    text is the writer's business; a file's content is the frame it was
    written from. *)
Definition Frame : Type := list (nat * list (string * element)).

Inductive dtype := int64 | float64 | bool_ | object.

(** The double nearest to an integer, as the whole number it is worth: 53
    bits are kept, and a tie goes to the even neighbour.  (No integer of the
    feed is near 2^1024, where doubles end.) *)
Definition to_float (n : Z) : Z :=
  let a := Z.abs n in
  let e := (Z.log2 a - 52)%Z in
  if decide (e ≤ 0)%Z then n
  else
    let q := (a `div` 2 ^ e)%Z in
    let r := (a `mod` 2 ^ e)%Z in
    let half := (2 ^ (e - 1))%Z in
    let q' := if decide (r < half)%Z then q
              else if decide (half < r)%Z then (q + 1)%Z
              else if Z.even q then q else (q + 1)%Z in
    (Z.sgn n * (q' * 2 ^ e))%Z.

Definition is_int (v : value) : bool :=
  match v with VInt _ => true | _ => false end.

Definition is_int_or_None (v : value) : bool :=
  match v with VInt _ | VNone => true | _ => false end.

Definition is_bool (v : value) : bool :=
  match v with VBool _ => true | _ => false end.

(** The type pandas infers for a column of Python objects: integers alone
    stay integers (int64; uint64 or object when they do not fit, the numbers
    being kept exactly either way), integers with None among them become
    float64, bools alone stay bools, and everything else (strings, None
    alone, lists, dicts, any mixture) is a column of objects.  The integers
    that stand in a column with None are taken to fit 64 bits, as those of
    the feed do. *)
Definition infer (cells : list value) : dtype :=
  if forallb is_int cells then int64
  else if forallb is_int_or_None cells && existsb is_int cells then float64
  else if forallb is_bool cells then bool_
  else object.

(** A cell stored in a column of the given type. *)
Definition astype (d : dtype) (v : value) : element :=
  match d, v with
  | int64, VInt n => EInt n
  | float64, VInt n => EFloat (to_float n)
  | float64, VNone => ENaN
  | bool_, VBool b => EBool b
  | _, _ => EObject v
  end.

(** The cells that the records have under the name [c]. *)
Definition column (records : list Row) (c : string) : list value :=
  records ≫= λ r, (filter (λ kv, kv.1 = c) r).*2.

(** A record as a row of the frame made of [records]: each cell stored in
    the type of its column. *)
Definition stored_in (records : list Row) (r : Row) : list (string * element) :=
  (λ kv, (kv.1, astype (infer (column records kv.1)) kv.2)) <$> r.

(** [pd.DataFrame(records)] for records that have the same fields: one row
    per record under a fresh range index. *)
Definition DataFrame (records : list Row) : Frame :=
  zip (seq 0 (length records)) (stored_in records <$> records).

(** What stands for a cell when pandas looks for duplicates: equal cells of
    a column have one key.  Missing values are equal to each other; numbers
    are equal when they are worth the same, and in a column of objects the
    cells are compared as Python compares them (so True and 1 are one key);
    a list or a dict in a cell cannot be hashed. *)
Inductive cell :=
  | CNone
  | CInt (n : Z)
  | CStr (s : string).

#[global] Instance cell_eq_dec : EqDecision cell.
Proof. solve_decision. Defined.

Definition hash (x : element) : result cell :=
  match x with
  | EInt n | EFloat n => Returns (CInt n)
  | ENaN => Returns CNone
  | EBool b => Returns (CInt (Z.b2z b))
  | EObject VNone => Returns CNone
  | EObject (VBool b) => Returns (CInt (Z.b2z b))
  | EObject (VInt n) => Returns (CInt n)
  | EObject (VStr s) => Returns (CStr s)
  | EObject (VList _) | EObject (VDict _) => Raises TypeError
  end.

Definition hash_row (r : list (string * element)) : result (list (string * cell)) :=
  comprehension (λ kv, c ← hash kv.2; Returns (kv.1, c)) r.

(** Keep a row unless its key was seen; [seen] holds the keys of the rows
    before it. *)
Fixpoint keep_first {K R} `{EqDecision K} (seen : list K) (keyed : list (K * R))
    : list R :=
  match keyed with
  | [] => []
  | (k, r) :: rest =>
      if decide (k ∈ seen) then keep_first seen rest
      else r :: keep_first (k :: seen) rest
  end.

(** The key of a row of a frame. *)
Definition keyed (r : nat * list (string * element))
    : result (list (string * cell) * (nat * list (string * element))) :=
  k ← hash_row r.2; Returns (k, r).

(** [df.drop_duplicates()]: the first row of every group of rows that are
    equal in every column, under its original label. *)
Definition drop_duplicates (df : Frame) : result Frame :=
  rows ← comprehension keyed df;
  Returns (keep_first [] rows).

(** The rows the scripts hand to pandas: a record's items in the order of
    its dict literal. *)
Definition vehicle_row (v : Vehicle.t) : Row :=
  [("id", Vehicle.id v); ("timestamp", Vehicle.timestamp v);
   ("lat", Vehicle.lat v); ("lon", Vehicle.lon v);
   ("destination", Vehicle.destination v);
   ("pattern_id", Vehicle.pattern_id v);
   ("pattern_distance", Vehicle.pattern_distance v);
   ("trip_id", Vehicle.trip_id v); ("speed", Vehicle.speed v);
   ("passenger_load", Vehicle.passenger_load v)].

Definition prediction_row (p : Prediction.t) : Row :=
  [("timestamp", Prediction.timestamp p); ("stop_id", Prediction.stop_id p);
   ("vehicle_id", Prediction.vehicle_id p);
   ("predicted_time", Prediction.predicted_time p);
   ("trip_id", Prediction.trip_id p);
   ("distance_to_stop", Prediction.distance_to_stop p)].

(** ** The process and its environment *)

(** A dictionary object on the heap is known by its address; two names for
    one address see each other's writes. *)
Definition addr : Type := N.

(** What requests.get returns, as far as query_api reads it: the status,
    the body, and what json.loads makes of the body. *)
Record Response := mkResponse {
  status_code : Z;
  text : string;
  json_loads_text : result value
}.

Inductive event :=
  | Get (url : string) (params : gmap string value)
  | Print (line : string)
  | ToCsv (path : string) (df : Frame)
  | Sleep (secs : nat).

Record Env := mkEnv {
  (** os.getenv('BUSTIME_API_KEY'): a str, or None when it is not set *)
  BUSTIME_API_KEY : value;
  (** the server: its answer to a request, which may depend on how many
      requests the process has made before it *)
  requests_get : nat → string → gmap string value → Response;
  (** how Python writes a list or a dict *)
  repr : value → string;
  (** int(time.time()) when the script starts *)
  time_time : Z
}.

Record State := mkState {
  CALLS_COUNT : nat;
  heap : gmap addr (gmap string value);
  vehicles : list Vehicle.t;
  predictions : list Prediction.t;
  trace : list event
}.

(** The parameter default of query_api is one dictionary, made when the
    [def] statement runs and shared by every call that omits [params]. *)
Definition query_api_defaults : addr := 0%N.

Definition initial : State :=
  {| CALLS_COUNT := 0; heap := {[query_api_defaults := ∅]};
     vehicles := []; predictions := []; trace := [] |}.

(** A statement: it runs in a state and leaves a state, with a value or an
    exception. *)
Definition Py (A : Type) : Type := State → result A * State.

#[global] Instance Py_ret : MRet Py := λ A a st, (Returns a, st).
#[global] Instance Py_bind : MBind Py := λ A B f m st,
  match m st with
  | (Returns a, st') => f a st'
  | (Raises e, st') => (Raises e, st')
  end.

Definition eval {A} (r : result A) : Py A := λ st, (r, st).

Definition emit (e : event) : Py unit := λ st,
  (Returns (),
   {| CALLS_COUNT := CALLS_COUNT st; heap := heap st; vehicles := vehicles st;
      predictions := predictions st; trace := trace st ++ [e] |}).

(** [{}]: a new, empty dictionary. *)
Definition new_dict : Py addr := λ st,
  let a := fresh (dom (heap st)) in
  (Returns a,
   {| CALLS_COUNT := CALLS_COUNT st; heap := <[a := ∅]> (heap st);
      vehicles := vehicles st; predictions := predictions st;
      trace := trace st |}).

(** [d[key] = v] on the dictionary at [d]. *)
Definition setitem (d : addr) (key : string) (v : value) : Py unit := λ st,
  (Returns (),
   {| CALLS_COUNT := CALLS_COUNT st;
      heap := <[d := <[key := v]> (heap st !!! d)]> (heap st);
      vehicles := vehicles st; predictions := predictions st;
      trace := trace st |}).

Definition increment_CALLS_COUNT : Py unit := λ st,
  (Returns (),
   {| CALLS_COUNT := S (CALLS_COUNT st); heap := heap st;
      vehicles := vehicles st; predictions := predictions st;
      trace := trace st |}).

Definition extend_vehicles (new : list Vehicle.t) : Py unit := λ st,
  (Returns (),
   {| CALLS_COUNT := CALLS_COUNT st; heap := heap st;
      vehicles := vehicles st ++ new; predictions := predictions st;
      trace := trace st |}).

Definition extend_predictions (new : list Prediction.t) : Py unit := λ st,
  (Returns (),
   {| CALLS_COUNT := CALLS_COUNT st; heap := heap st;
      vehicles := vehicles st; predictions := predictions st ++ new;
      trace := trace st |}).

Definition get_state : Py State := λ st, (Returns st, st).

(** [for x in l: body x]. *)
Fixpoint for_ {A} (l : list A) (body : A → Py unit) : Py unit :=
  match l with
  | [] => mret ()
  | x :: l' => body x;; for_ l' body
  end.

Definition BASE_URL : string := "http://realtime.portauthority.org/bustime/api/v3".
Definition DATAFEED_NAME : string := "Port Authority Bus".
Definition VEHICLES_ENDPOINT : string := "/getvehicles".
Definition ROUTES_ENDPOINT : string := "/getroutes".
Definition PATTERNS_ENDPOINT : string := "/getpatterns".
Definition DIRECTIONS_ENDPOINT : string := "/getdirections".
Definition STOPS_ENDPOINT : string := "/getstops".
Definition PREDICTIONS_ENDPOINT : string := "/getpredictions".

Section Program.
Variable env : Env.

(** The builtin str. *)
Definition str (v : value) : string :=
  match v with
  | VNone => "None"
  | VBool true => "True"
  | VBool false => "False"
  | VInt n => pretty n
  | VStr s => s
  | VList _ | VDict _ => repr env v
  end.

(** [print(a, b, ...)] of strings. *)
Definition print (args : list string) : Py unit :=
  emit (Print (String.concat " " args)).

Definition sleep (secs : nat) : Py unit := emit (Sleep secs).

(** [open(path, 'w')], as far as the name decides it.  The process runs in
    a directory it may write to and that has no directory inside: a name
    with a slash points into a directory that is not there (OSError), and a
    name with a NUL character is no file name (ValueError).  What else a
    file system can refuse (a name longer than it allows, a full disk) is
    not modelled. *)
Definition open_w (path : string) : result unit :=
  if decide ("/"%char ∈ chars path) then Raises OSError
  else if decide ("000"%char ∈ chars path) then Raises ValueError
  else Returns ().
Arguments open_w : simpl never.

(** [df.to_csv(path)]: the file is opened before anything is written. *)
Definition to_csv (df : Frame) (path : string) : Py unit :=
  eval (open_w path);; emit (ToCsv path df).

(** [requests.get(url, params=params)]: the request goes out with the
    dictionary as it is now, and the server answers.  A request that gets no
    answer (a connection that fails, where requests.get raises and the
    script ends with CALLS_COUNT not yet incremented) is not modelled: every
    statement about a fetch is about a request that was answered.  The
    answer is the server's at the current CALLS_COUNT, which counts the
    requests made so far since only query_api changes it. *)
Definition get (url : string) (params : addr) : Py Response := λ st,
  let sent := heap st !!! params in
  (emit (Get url sent);; mret (requests_get env (CALLS_COUNT st) url sent)) st.

(** ** The functions both scripts define *)

Definition query_api (endpoint : string) (params : option addr) : Py value :=
  let params := default query_api_defaults params in
  setitem params "key" (BUSTIME_API_KEY env);;
  setitem params "format" (VStr "json");;
  setitem params "rtpidatafeed" (VStr DATAFEED_NAME);;
  response ← get (BASE_URL +:+ endpoint) params;
  increment_CALLS_COUNT;;
  if decide (status_code response = 200%Z) then
    body ← eval (json_loads_text response);
    eval (getitem body "bustime-response")
  else
    print [str (VInt (status_code response)); text response];;
    mret VNone.

Definition vehicle_of (v : value) : result Vehicle.t :=
  id ← getitem v "vid";
  timestamp ← getitem v "tmstmp";
  lat ← getitem v "lat";
  lon ← getitem v "lon";
  destination ← getitem v "des";
  pattern_id ← getitem v "pid";
  pattern_distance ← getitem v "pdist";
  trip_id ← getitem v "tatripid";
  speed ← getitem v "spd";
  passenger_load ← getitem v "psgld";
  Returns (Vehicle.mk id timestamp lat lon destination pattern_id
             pattern_distance trip_id speed passenger_load).

(** [response is None or key not in response]. *)
Definition is_None_or_lacks (response : value) (key : string) : result bool :=
  match response with
  | VNone => Returns true
  | _ => negb <$> contains key response
  end.

Definition get_vehicles (route_ids : string) : Py (list Vehicle.t) :=
  params ← new_dict;
  setitem params "rt" (VStr route_ids);;
  setitem params "tmres" (VStr "s");;
  response ← query_api VEHICLES_ENDPOINT (Some params);
  missing ← eval (is_None_or_lacks response "vehicle");
  if missing : bool then
    print ["Couldn't retrieve vehicles"; str response];;
    mret []
  else
    raw_vehicles ← eval (getitem response "vehicle" ≫= iter);
    eval (comprehension vehicle_of raw_vehicles).

(** ** gather_predictions.py *)

Definition prediction_of (p : value) : result Prediction.t :=
  timestamp ← getitem p "tmstmp";
  stop_id ← getitem p "stpid";
  vehicle_id ← getitem p "vid";
  predicted_time ← getitem p "prdtm";
  trip_id ← getitem p "tatripid";
  distance_to_stop ← getitem p "dstp";
  Returns (Prediction.mk timestamp stop_id vehicle_id predicted_time trip_id
             distance_to_stop).

(** [p['typ'] == 'A']. *)
Definition is_arrival (p : value) : result bool :=
  is_str "A" <$> getitem p "typ".

Definition get_predictions (vehicle_ids : string) : Py (list Prediction.t) :=
  params ← new_dict;
  setitem params "vid" (VStr vehicle_ids);;
  setitem params "tmres" (VStr "s");;
  response ← query_api PREDICTIONS_ENDPOINT (Some params);
  missing ← eval (is_None_or_lacks response "prd");
  if missing : bool then
    print ["Couldn't retrieve predictions"; str response];;
    mret []
  else
    raw_predictions ← eval (getitem response "prd" ≫= iter);
    eval (comprehension_if is_arrival prediction_of raw_predictions).

(** The loop of get_predictions_for_vehicles from index [i] on, with the
    list built so far. *)
Fixpoint predictions_from (vehicles : list Vehicle.t) (starts : list nat)
    (total_predictions : list Prediction.t) : Py (list Prediction.t) :=
  match starts with
  | [] => mret total_predictions
  | i :: starts' =>
      let group := slice vehicles i (Nat.min (i + 10) (length vehicles)) in
      new ← get_predictions (String.concat "," ((λ v, str (Vehicle.id v)) <$> group));
      predictions_from vehicles starts' (total_predictions ++ new)
  end.

Definition get_predictions_for_vehicles (vehicles : list Vehicle.t)
    : Py (list Prediction.t) :=
  predictions_from vehicles (range 0 (length vehicles) 10) [].

End Program.

(** The progress bar of tqdm writes to the terminal only and is left out of
    both loops.  The two cadences of each loop (how many iterations, and
    every how many of them the lists are saved) are parameters of [loop];
    [main] runs it with the numbers the script has. *)

Module GatherBusUpdates.
Section Script.
Variable env : Env.

Definition ROUTE_ID : string := "61A,61B,61C,61D,71A,71B,71C".
Definition number_iterations : nat := 3600.

(** The block under [if (i + 1) % 600 == 0]. *)
Definition save : Py unit :=
  print ["Saving..."];;
  st ← get_state;
  oldest ← eval (first (vehicles st));
  from_date ← eval (replace (Vehicle.timestamp oldest) " " "@");
  newest ← eval (last (vehicles st));
  to_date ← eval (replace (Vehicle.timestamp newest) " " "@");
  df_vehicles ← eval (drop_duplicates (DataFrame (vehicle_row <$> vehicles st)));
  to_csv df_vehicles ("vehicles" +:+ from_date +:+ "-" +:+ to_date +:+ ".csv").

Definition iteration (every i : nat) : Py unit :=
  vehicles_now ← get_vehicles env ROUTE_ID;
  extend_vehicles vehicles_now;;
  (if decide ((i + 1) `mod` every = 0) then save else mret ());;
  sleep 3.

Definition loop (number_iterations every : nat) : Py unit :=
  for_ (seq 0 number_iterations) (iteration every).

Definition main : Py unit :=
  loop number_iterations 600;;
  st ← get_state;
  print ["Called the API " +:+ pretty (CALLS_COUNT st) +:+ " times."].

End Script.
End GatherBusUpdates.

Module GatherPredictions.
Section Script.
Variable env : Env.

Definition ROUTE_ID : string := "61A,61B".
Definition number_iterations : nat := 1440.
Definition now : Z := time_time env.

(** The block under [if (i + 1) % 120 == 0]. *)
Definition save : Py unit :=
  print ["Saving..."];;
  st ← get_state;
  df_predictions ← eval (drop_duplicates (DataFrame (prediction_row <$> predictions st)));
  to_csv df_predictions ("predictions" +:+ pretty now +:+ ".csv");;
  df_vehicles ← eval (drop_duplicates (DataFrame (vehicle_row <$> vehicles st)));
  to_csv df_vehicles ("vehicles" +:+ pretty now +:+ ".csv").

Definition iteration (every i : nat) : Py unit :=
  vehicles_now ← get_vehicles env ROUTE_ID;
  new ← get_predictions_for_vehicles env vehicles_now;
  extend_predictions new;;
  extend_vehicles vehicles_now;;
  (if decide ((i + 1) `mod` every = 0) then save else mret ());;
  sleep 5.

Definition loop (number_iterations every : nat) : Py unit :=
  for_ (seq 0 number_iterations) (iteration every).

Definition main : Py unit :=
  loop number_iterations 120;;
  st ← get_state;
  print ["Called the API " +:+ pretty (CALLS_COUNT st) +:+ " times."].

End Script.
End GatherPredictions.

(** * Terms of the statements *)

(** ** One call *)

Section Summaries.
Variable env : Env.

(** The three entries query_api writes into the dictionary it is given. *)
Definition injected (d : gmap string value) : gmap string value :=
  <["rtpidatafeed" := VStr DATAFEED_NAME]>
    (<["format" := VStr "json"]> (<["key" := BUSTIME_API_KEY env]> d)).

(** The dictionary get_vehicles ([name] is rt) and get_predictions ([name]
    is vid) send. *)
Definition request_params (name arg : string) : gmap string value :=
  injected (<["tmres" := VStr "s"]> (<[name := VStr arg]> ∅)).

(** The state after one request: the call is counted, the dictionary at [a]
    is [d], the events [es] have happened. *)
Definition after_call (st : State) (a : addr) (d : gmap string value)
    (es : list event) : State :=
  {| CALLS_COUNT := S (CALLS_COUNT st); heap := <[a := d]> (heap st);
     vehicles := vehicles st; predictions := predictions st;
     trace := trace st ++ es |}.

(** What query_api returns for a response, and what it prints. *)
Definition answer (r : Response) : result value :=
  if decide (status_code r = 200%Z) then
    json_loads_text r ≫= λ body, getitem body "bustime-response"
  else Returns VNone.

Definition complaint (r : Response) : list event :=
  if decide (status_code r = 200%Z) then []
  else [Print (String.concat " " [str env (VInt (status_code r)); text r])].

(** What get_vehicles ([key] is vehicle) and get_predictions ([key] is prd)
    make of a response: the result, and the lines printed on the way. *)
Definition digest {A} (key noun : string) (f : list value → result (list A))
    (r : Response) : result (list A) * list event :=
  match answer r with
  | Raises e => (Raises e, complaint r)
  | Returns response =>
      match is_None_or_lacks response key with
      | Raises e => (Raises e, complaint r)
      | Returns true =>
          (Returns [],
           complaint r ++
             [Print (String.concat " " ["Couldn't retrieve " +:+ noun; str env response])])
      | Returns false => (raw ← getitem response key ≫= iter; f raw, complaint r)
      end
  end.

Definition vehicles_in : Response → result (list Vehicle.t) * list event :=
  digest "vehicle" "vehicles" (comprehension vehicle_of).

Definition predictions_in : Response → result (list Prediction.t) * list event :=
  digest "prd" "predictions" (comprehension_if is_arrival prediction_of).

End Summaries.

(** ** Groups of vehicles *)

(** The slices get_predictions_for_vehicles takes, one per value of [i]. *)
Definition groups {A} (l : list A) : list (list A) :=
  (λ i, slice l i (Nat.min (i + 10) (length l))) <$> range 0 (length l) 10.

(** The requests among some events. *)
Definition requests (es : list event) : list (string * gmap string value) :=
  omap (λ e, match e with Get url params => Some (url, params) | _ => None end) es.

Definition sizes {A} (gs : list (list A)) : list nat := length <$> gs.

Section Batches.
Variable env : Env.

(** The vid parameter of a group's request. *)
Definition vids (group : list Vehicle.t) : string :=
  String.concat "," ((λ v, str env (Vehicle.id v)) <$> group).

Definition PREDICTIONS_URL : string := BASE_URL +:+ PREDICTIONS_ENDPOINT.

Definition group_request (group : list Vehicle.t) : string * gmap string value :=
  (PREDICTIONS_URL, request_params env "vid" (vids group)).

(** The server's reply to the request for [group] when [n] requests came
    before it. *)
Definition group_reply (n : nat) (group : list Vehicle.t) : Response :=
  requests_get env n PREDICTIONS_URL (request_params env "vid" (vids group)).

(** From [st] to [st'], [n] calls were counted and the events [es] happened;
    the two lists of records are as they were. *)
Definition calls_made (st st' : State) (n : nat) (es : list event) : Prop :=
  CALLS_COUNT st' = CALLS_COUNT st + n ∧ vehicles st' = vehicles st ∧
  predictions st' = predictions st ∧ trace st' = trace st ++ es.

End Batches.

(** ** Sample servers and records *)

Definition raw_vehicle (vid tmstmp : string) : value :=
  VDict [("vid", VStr vid); ("tmstmp", VStr tmstmp); ("lat", VStr "40.4406");
         ("lon", VStr "-79.9959"); ("hdg", VStr "270"); ("pid", VInt 4521);
         ("rt", VStr "61A"); ("des", VStr "Downtown"); ("pdist", VInt 10112);
         ("dly", VBool false); ("spd", VInt 17); ("tatripid", VStr "16960");
         ("psgld", VStr "HALF_EMPTY")].

Definition raw_prediction (typ vid stpid : string) : value :=
  VDict [("tmstmp", VStr "20200302 10:15:02"); ("typ", VStr typ);
         ("stpid", VStr stpid); ("vid", VStr vid); ("dstp", VInt 2640);
         ("rt", VStr "61A"); ("prdtm", VStr "20200302 10:21:40");
         ("tatripid", VStr "16960")].

Definition ok (payload : list (string * value)) : Response :=
  {| status_code := 200; text := "(json)";
     json_loads_text := Returns (VDict [("bustime-response", VDict payload)]) |}.

Definition internal_server_error : Response :=
  {| status_code := 500; text := "Internal Server Error";
     json_loads_text := Raises JSONDecodeError |}.

(** A server that fails every request. *)
Definition down : Env :=
  {| BUSTIME_API_KEY := VStr "secret";
     requests_get := λ _ _ _, internal_server_error;
     repr := λ _, "(object)";
     time_time := 1583144100 |}.

(** A server that answers 200 with an empty JSON object. *)
Definition bare : Env :=
  {| BUSTIME_API_KEY := VStr "secret";
     requests_get := λ _ _ _,
       {| status_code := 200; text := "{}"; json_loads_text := Returns (VDict []) |};
     repr := λ _, "(object)";
     time_time := 1583144100 |}.

(** A server with two buses on the road, whose positions carry the time of
    the request; it predicts an arrival and a departure for whatever
    vehicles it is asked about, except that its second answer is a 500. *)
Definition feed : Env :=
  {| BUSTIME_API_KEY := VStr "secret";
     requests_get := λ n url _,
       if decide (n = 1) then internal_server_error
       else if decide (url = BASE_URL +:+ VEHICLES_ENDPOINT) then
         ok [("vehicle",
              VList [raw_vehicle "3201" ("20200302 10:15:" +:+ pretty n);
                     raw_vehicle "3207" ("20200302 10:15:" +:+ pretty n)])]
       else
         ok [("prd",
              VList [raw_prediction "A" "3201" "8192";
                     raw_prediction "D" "3201" "8193"])];
     repr := λ _, "(object)";
     time_time := 1583144100 |}.

(** The first vehicle of [feed], with what is given for the distance it has
    travelled along its pattern. *)
Definition raw_vehicle_at (pdist : value) : value :=
  VDict [("vid", VStr "3201"); ("tmstmp", VStr "20200302 10:15:00");
         ("lat", VStr "40.4406"); ("lon", VStr "-79.9959"); ("hdg", VStr "270");
         ("pid", VInt 4521); ("rt", VStr "61A"); ("des", VStr "Downtown");
         ("pdist", pdist); ("dly", VBool false); ("spd", VInt 17);
         ("tatripid", VStr "16960"); ("psgld", VStr "HALF_EMPTY")].

(** A server with one bus whose distance is beyond 2^53 in the first answer,
    one more in the second, and null from the third answer on. *)
Definition far_out : Env :=
  {| BUSTIME_API_KEY := VStr "secret";
     requests_get := λ n _ _,
       ok [("vehicle",
            VList [raw_vehicle_at
                     match n with
                     | 0 => VInt 9007199254740992
                     | 1 => VInt 9007199254740993
                     | _ => VNone
                     end])];
     repr := λ _, "(object)";
     time_time := 1583144100 |}.

Definition parked (vid : string) : Vehicle.t :=
  Vehicle.mk (VStr vid) (VStr "20200302 10:15:00") (VStr "40.4406")
    (VStr "-79.9959") (VStr "Downtown") (VInt 4521) (VInt 10112)
    (VStr "16960") (VInt 0) (VStr "EMPTY").

Definition fleet23 : list Vehicle.t :=
  (λ n : nat, parked (pretty n)) <$> seq 3200 23.

Definition arrival_8192 : Prediction.t :=
  Prediction.mk (VStr "20200302 10:15:02") (VStr "8192") (VStr "3201")
    (VStr "20200302 10:21:40") (VStr "16960") (VInt 2640).

Section Fetching.
Variable env : Env.

Definition VEHICLES_URL : string := BASE_URL +:+ VEHICLES_ENDPOINT.

(** The server's reply to get_vehicles when [n] requests came before. *)
Definition vehicles_reply (n : nat) (route_ids : string) : Response :=
  requests_get env n VEHICLES_URL (request_params env "rt" route_ids).

(** An entry of the prd list is an arrival. *)
Definition arrival (p : value) : Prop := is_arrival p = Returns true.

End Fetching.

(** What the feed calls a prediction of the type [code]: an entry that has
    the string [code] under typ. *)
Definition has_type_code (code : string) (p : value) : Prop :=
  getitem p "typ" = Returns (VStr code).

#[global] Instance has_type_code_dec code p : Decision (has_type_code code p).
Proof.
  unfold has_type_code.
  destruct (getitem p "typ") as [[| | |s| |]|e]; try (right; discriminate).
  destruct (decide (s = code)) as [->|Hne]; [by left|right; congruence].
Defined.

(** A 200 response whose JSON object has no bustime-response entry. *)
Definition lacks_envelope (r : Response) : Prop :=
  status_code r = 200%Z ∧
  ∃ kvs, json_loads_text r = Returns (VDict kvs) ∧ "bustime-response" ∉ kvs.*1.

Section KeepFirst.
Context {K R : Type} `{EqDecision K}.

Implicit Types (seen : list K) (l : list (K * R)).

(** [keep_first] with the keys left on the rows. *)
Fixpoint keep_keyed seen l : list (K * R) :=
  match l with
  | [] => []
  | (k, r) :: rest =>
      if decide (k ∈ seen) then keep_keyed seen rest
      else (k, r) :: keep_keyed (k :: seen) rest
  end.

End KeepFirst.

(** ** Events, files and runs *)

(** The files written among some events: path and content, in order. *)
Definition written (es : list event) : list (string * Frame) :=
  omap (λ e, match e with ToCsv path df => Some (path, df) | _ => None end) es.

(** The events between an earlier state and a later one. *)
Definition since (st0 st : State) : list event :=
  drop (length (trace st0)) (trace st).

(** The state with more events. *)
Definition log (st : State) (es : list event) : State :=
  {| CALLS_COUNT := CALLS_COUNT st; heap := heap st; vehicles := vehicles st;
     predictions := predictions st; trace := trace st ++ es |}.

(** The state with more records. *)
Definition gathered (st : State) (vs : list Vehicle.t) (ps : list Prediction.t)
    : State :=
  {| CALLS_COUNT := CALLS_COUNT st; heap := heap st;
     vehicles := vehicles st ++ vs; predictions := predictions st ++ ps;
     trace := trace st |}.

Module BusUpdatesFacts.
Import GatherBusUpdates.

Section Facts.
Variable env : Env.

(** The file the save block writes for a list of vehicles: its name and its
    content. *)
Definition snapshot (vs : list Vehicle.t) : result (string * Frame) :=
  oldest ← first vs;
  from_date ← replace (Vehicle.timestamp oldest) " " "@";
  newest ← last vs;
  to_date ← replace (Vehicle.timestamp newest) " " "@";
  df_vehicles ← drop_duplicates (DataFrame (vehicle_row <$> vs));
  let path := "vehicles" +:+ from_date +:+ "-" +:+ to_date +:+ ".csv" in
  open_w path;;
  Returns (path, df_vehicles).

(** What an iteration does after get_vehicles has returned [now]. *)
Definition rest_of_iteration (every i : nat) (st1 : State)
    (now : list Vehicle.t) : result () * State :=
  let st2 := gathered st1 now [] in
  if decide ((i + 1) `mod` every = 0) then
    match snapshot (vehicles st2) with
    | Returns (path, df) =>
        (Returns (), log st2 [Print "Saving..."; ToCsv path df; Sleep 3])
    | Raises e => (Raises e, log st2 [Print "Saving..."])
    end
  else (Returns (), log st2 [Sleep 3]).

End Facts.

End BusUpdatesFacts.

(** Nothing was gathered or written from [st] to [st']. *)
Definition quiet (st st' : State) : Prop :=
  vehicles st' = vehicles st ∧ predictions st' = predictions st ∧
  ∃ es, trace st' = trace st ++ es ∧ written es = [].

Module PredictionsFacts.
Import GatherPredictions.

Section Facts.
Variable env : Env.

Definition predictions_path : string := "predictions" +:+ pretty (now env) +:+ ".csv".

Definition vehicles_path : string := "vehicles" +:+ pretty (now env) +:+ ".csv".

(** What the save block writes for the two lists. *)
Definition snapshots (vs : list Vehicle.t) (ps : list Prediction.t)
    : result () * list event :=
  match drop_duplicates (DataFrame (prediction_row <$> ps)) with
  | Raises e => (Raises e, [Print "Saving..."])
  | Returns df_predictions =>
      match drop_duplicates (DataFrame (vehicle_row <$> vs)) with
      | Raises e =>
          (Raises e, [Print "Saving..."; ToCsv predictions_path df_predictions])
      | Returns df_vehicles =>
          (Returns (),
           [Print "Saving..."; ToCsv predictions_path df_predictions;
            ToCsv vehicles_path df_vehicles])
      end
  end.

(** What an iteration does after the two fetches have returned. *)
Definition rest_of_iteration (every i : nat) (st2 : State)
    (now : list Vehicle.t) (new : list Prediction.t) : result () * State :=
  let st3 := gathered st2 now new in
  if decide ((i + 1) `mod` every = 0) then
    match snapshots (vehicles st3) (predictions st3) with
    | (Returns _, es) => (Returns (), log st3 (es ++ [Sleep 5]))
    | (Raises e, es) => (Raises e, log st3 es)
    end
  else (Returns (), log st3 [Sleep 5]).

End Facts.

End PredictionsFacts.

(** ** Columns of one type *)

(** A character that can stand in a file name. *)
Definition in_name (c : ascii) : Prop := c ≠ "/"%char ∧ c ≠ "000"%char.

(** A timestamp that can be part of a file name: a str of such characters,
    at most 100 of them (the name is made of two timestamps and 13 more
    characters, and a file system takes 255). *)
Definition names_a_file (v : value) : Prop :=
  ∃ s, v = VStr s ∧ Forall in_name (chars s) ∧ String.length s ≤ 100.

(** [type(v).__name__]. *)
Definition type_name (v : value) : string :=
  match v with
  | VNone => "NoneType"
  | VBool _ => "bool"
  | VInt _ => "int"
  | VStr _ => "str"
  | VList _ => "list"
  | VDict _ => "dict"
  end.

Definition types (r : Row) : list (string * string) :=
  (λ kv, (kv.1, type_name kv.2)) <$> r.

(** Every column holds cells of one type: the records have the same fields,
    each once, and what any two of them have under a field is of one type
    (as in the feed, where a field is always a string or always an
    integer). *)
Definition uniform (records : list Row) : Prop :=
  ∃ ts, NoDup ts.*1 ∧ Forall (λ r, types r = ts) records.

(** A cell kept as it is: an integer as an integer, a bool as a bool,
    anything else as the object it is. *)
Definition stored (v : value) : element :=
  match v with
  | VInt n => EInt n
  | VBool b => EBool b
  | _ => EObject v
  end.

Definition stored_row (r : Row) : list (string * element) :=
  (λ kv, (kv.1, stored kv.2)) <$> r.

(** [r] is the record at the position [i] of the list, and no record before
    it equals it in every field. *)
Definition first_occurrences (records : list Row) (i : nat) (r : Row) : Prop :=
  records !! i = Some r ∧ ∀ j, j < i → records !! j ≠ Some r.

(** Every element of a list is related to every later one. *)
Definition ordered {A} (R : A → A → Prop) (l : list A) : Prop :=
  ∀ i j x y, i < j → l !! i = Some x → l !! j = Some y → R x y.

(** [df] is what dropping the duplicates of an earlier stretch of the list
    gave. *)
Definition snapshot_of {A} (row : A → Row) (buf : list A) (df : Frame) : Prop :=
  ∃ l1 l2, buf = l1 ++ l2 ∧ drop_duplicates (DataFrame (row <$> l1)) = Returns df.

(** A later file holds the rows of an earlier one, and more after them. *)
Definition later_extends (w w' : string * Frame) : Prop := w.2 `prefix_of` w'.2.

(** The same for two files of one name. *)
Definition same_path_extends (w w' : string * Frame) : Prop :=
  w.1 = w'.1 → w.2 `prefix_of` w'.2.

Section BusUpdatesRuns.
Import GatherBusUpdates BusUpdatesFacts.

Variable env : Env.

(** What holds of a run from [st0] on: the list has only grown, every file
    written holds the rows of a stretch of it, and each file extends the one
    before as long as every column of the list holds cells of one type. *)
Definition bus_updates_run (st0 st : State) : Prop :=
  vehicles st0 `prefix_of` vehicles st ∧
  ∃ es, trace st = trace st0 ++ es ∧
        Forall (λ w, snapshot_of vehicle_row (vehicles st) w.2) (written es) ∧
        (uniform (vehicle_row <$> vehicles st) →
         ordered later_extends (written es)).

End BusUpdatesRuns.

Section PredictionsRuns.
Import GatherPredictions PredictionsFacts.

Variable env : Env.

(** A file is the duplicate-free content of a stretch of the list it is
    named after. *)
Definition file_of (st : State) (w : string * Frame) : Prop :=
  (w.1 = predictions_path env ∧ snapshot_of prediction_row (predictions st) w.2) ∨
  (w.1 = vehicles_path env ∧ snapshot_of vehicle_row (vehicles st) w.2).

(** What holds of a run from [st0] on: the lists have only grown, every
    file written holds the rows of a stretch of the list it is named after,
    and each file extends the files of that name before it as long as every
    column of the two lists holds cells of one type. *)
Definition predictions_run (st0 st : State) : Prop :=
  vehicles st0 `prefix_of` vehicles st ∧
  predictions st0 `prefix_of` predictions st ∧
  ∃ es, trace st = trace st0 ++ es ∧
        Forall (file_of st) (written es) ∧
        (uniform (vehicle_row <$> vehicles st) →
         uniform (prediction_row <$> predictions st) →
         ordered same_path_extends (written es)).

End PredictionsRuns.

(** ** Cells and saves *)

(** A cell pandas can hash. *)
Definition scalar (v : value) : Prop :=
  match v with
  | VList _ | VDict _ => False
  | _ => True
  end.

Definition scalar_row (r : Row) : Prop := Forall (λ kv, scalar kv.2) r.

(** How many times the process has slept. *)
Definition sleeps (es : list event) : nat :=
  length (omap (λ e, match e with Sleep secs => Some secs | _ => None end) es).

(** What an iteration that starts in [st] gathers. *)
Definition fetched_vehicles (env : Env) (route_ids : string) (st : State)
    : list Vehicle.t :=
  match (get_vehicles env route_ids st).1 with
  | Returns now => now
  | Raises _ => []
  end.

Definition fetched_predictions (env : Env) (st : State) : list Prediction.t :=
  match get_vehicles env GatherPredictions.ROUTE_ID st with
  | (Returns now, st1) =>
      match (get_predictions_for_vehicles env now st1).1 with
      | Returns new => new
      | Raises _ => []
      end
  | (Raises _, _) => []
  end.

(** A server that answers the first request and fails every later one. *)
Definition feed_once : Env :=
  {| BUSTIME_API_KEY := VStr "secret";
     requests_get := λ n _ _,
       if decide (n = 0) then
         ok [("vehicle",
              VList [raw_vehicle "3201" "20200302 10:15:00";
                     raw_vehicle "3207" "20200302 10:15:02"])]
       else internal_server_error;
     repr := λ _, "(object)";
     time_time := 1583144100 |}.

Section FileNames.
Variable env : Env.

(** The to_date of the save block of gather_bus_updates.py. *)
Definition to_date (st : State) : result string :=
  newest ← last (vehicles st); replace (Vehicle.timestamp newest) " " "@".

End FileNames.

(** Two iterations of gather_predictions.py against [feed], without a save. *)
Definition two_iterations : State :=
  (GatherPredictions.loop feed 2 3 initial).2.

(** The lists of gather_bus_updates.py with one vehicle, and with one more. *)
Definition one_parked : State := gathered initial [parked "3201"] [].

Definition two_parked : State := gathered one_parked [parked "3207"] [].

(** ** Fields, lines, seconds and labels *)

(** The lines printed among some events. *)
Definition printed (es : list event) : list string :=
  omap (λ e, match e with Print line => Some line | _ => None end) es.

(** The seconds slept among some events. *)
Definition slept (es : list event) : nat :=
  sum_list (omap (λ e, match e with Sleep secs => Some secs | _ => None end) es).

(** A 200 response whose JSON text holds [envelope] under bustime-response. *)
Definition carries (r : Response) (envelope : value) : Prop :=
  status_code r = 200%Z ∧
  ∃ body, json_loads_text r = Returns body ∧
          getitem body "bustime-response" = Returns envelope.

(** The fields of a vehicle record and of a prediction record, each with the
    key of the entry it is read from, in the order of the dict literals. *)
Definition VEHICLE_FIELDS : list (string * string) :=
  [("id", "vid"); ("timestamp", "tmstmp"); ("lat", "lat"); ("lon", "lon");
   ("destination", "des"); ("pattern_id", "pid"); ("pattern_distance", "pdist");
   ("trip_id", "tatripid"); ("speed", "spd"); ("passenger_load", "psgld")].

Definition PREDICTION_FIELDS : list (string * string) :=
  [("timestamp", "tmstmp"); ("stop_id", "stpid"); ("vehicle_id", "vid");
   ("predicted_time", "prdtm"); ("trip_id", "tatripid");
   ("distance_to_stop", "dstp")].

(** A row holds, column by column, what an entry has under the fields' keys. *)
Definition row_of (fields : list (string * string)) (entry : value) (row : Row)
    : Prop :=
  Forall2 (λ cell field, cell.1 = field.1 ∧ getitem entry field.2 = Returns cell.2)
    row fields.

(** An entry has every key the fields are read from. *)
Definition has_keys (fields : list (string * string)) (entry : value) : Prop :=
  Forall (λ key, ∃ x, getitem entry key = Returns x) fields.*2.

(** An object that has the keys read before the [i]-th field and lacks the
    key of that one. *)
Definition lacks_key (fields : list (string * string)) (i : nat) (key : string)
    (entry : value) : Prop :=
  ∃ kvs, entry = VDict kvs ∧ fields.*2 !! i = Some key ∧
         (∀ k, k ∈ take i fields.*2 → k ∈ kvs.*1) ∧ key ∉ kvs.*1.

(** From [st0] to [st]: the dictionaries there were are as they were, and
    every request made has been counted. *)
Definition proceeds (st0 st : State) : Prop :=
  heap st0 ⊆ heap st ∧
  ∃ es, trace st = trace st0 ++ es ∧
        CALLS_COUNT st = CALLS_COUNT st0 + length (requests es).

(** A file name of gather_bus_updates.py whose from_date is the timestamp of
    [oldest]. *)
Definition named_from (oldest : Vehicle.t) (path : string) : Prop :=
  ∃ from_date to_date,
    replace (Vehicle.timestamp oldest) " " "@" = Returns from_date ∧
    path = "vehicles" +:+ from_date +:+ "-" +:+ to_date +:+ ".csv".

(** Under each label of the frame stands the record at that position of
    the list, cell by cell, and no record before it equals it in every
    field. *)
Definition labelled_by_first_position {A} (row : A → Row) (records : list A)
    (df : Frame) : Prop :=
  ∀ i x, (i, x) ∈ df →
    ∃ r, first_occurrences (row <$> records) i r ∧ x = stored_row r.

(** An entry has, under every key the fields are read from, something
    pandas can hash. *)
Definition has_scalars (fields : list (string * string)) (entry : value) : Prop :=
  Forall (λ key, ∃ x, getitem entry key = Returns x ∧ scalar x) fields.*2.

(** A vehicle entry a record can be made of and saved: a str under tmstmp,
    and no list or dict under any of the ten keys. *)
Definition sound_vehicle (v : value) : Prop :=
  (∃ s, getitem v "tmstmp" = Returns (VStr s)) ∧ has_scalars VEHICLE_FIELDS v.

(** A prediction entry with a type code which, when it is an arrival, has no
    list or dict under any of the six keys. *)
Definition sound_prediction (p : value) : Prop :=
  (∃ typ, getitem p "typ" = Returns typ) ∧
  (arrival p → has_scalars PREDICTION_FIELDS p).

(** A reply that a fetch can take in: another status than 200, or an
    envelope object that has no entry under [key] or has a list of sound
    entries there. *)
Definition sound_reply (key : string) (sound : value → Prop) (r : Response)
    : Prop :=
  status_code r ≠ 200%Z ∨
  ∃ kvs, carries r (VDict kvs) ∧
         (key ∉ kvs.*1 ∨
          ∃ raw, getitem (VDict kvs) key = Returns (VList raw) ∧ Forall sound raw).

(** A reply with at least one entry in the vehicle list. *)
Definition brings_a_vehicle (r : Response) : Prop :=
  ∃ kvs v raw, carries r (VDict kvs) ∧
               getitem (VDict kvs) "vehicle" = Returns (VList (v :: raw)).

(** A record that can be saved and has a str for a timestamp. *)
Definition sound_record (q : Vehicle.t) : Prop :=
  (∃ s, Vehicle.timestamp q = VStr s) ∧ scalar_row (vehicle_row q).

(** A vehicle entry whose record can be saved by gather_bus_updates.py when
    it is the first or the last of the list: under tmstmp a timestamp that
    can be part of a file name, and no list or dict under any of the ten
    keys. *)
Definition nameable_vehicle (v : value) : Prop :=
  (∃ ts, getitem v "tmstmp" = Returns ts ∧ names_a_file ts) ∧
  has_scalars VEHICLE_FIELDS v.

Definition nameable_record (q : Vehicle.t) : Prop :=
  names_a_file (Vehicle.timestamp q) ∧ scalar_row (vehicle_row q).

(** ** More sample servers *)

(** A vehicle entry that has no speed. *)
Definition raw_vehicle_without_speed : value :=
  VDict [("vid", VStr "3207"); ("tmstmp", VStr "20200302 10:15:02");
         ("lat", VStr "40.4406"); ("lon", VStr "-79.9959"); ("pid", VInt 4521);
         ("des", VStr "Downtown"); ("pdist", VInt 10112);
         ("tatripid", VStr "16960"); ("psgld", VStr "HALF_EMPTY")].

(** A server whose second vehicle has no speed. *)
Definition short_of_speed : Env :=
  {| BUSTIME_API_KEY := VStr "secret";
     requests_get := λ _ _ _,
       ok [("vehicle",
            VList [raw_vehicle "3201" "20200302 10:15:00";
                   raw_vehicle_without_speed])];
     repr := λ _, "(object)";
     time_time := 1583144100 |}.

(** A prediction entry that has no type code. *)
Definition raw_prediction_without_typ : value :=
  VDict [("stpid", VStr "8193"); ("vid", VStr "3201")].

(** A server whose second prediction has no type code. *)
Definition untyped : Env :=
  {| BUSTIME_API_KEY := VStr "secret";
     requests_get := λ _ _ _,
       ok [("prd",
            VList [raw_prediction "A" "3201" "8192"; raw_prediction_without_typ])];
     repr := λ _, "(object)";
     time_time := 1583144100 |}.

(** A server that answers 200 with a page that is no JSON. *)
Definition garbled : Env :=
  {| BUSTIME_API_KEY := VStr "secret";
     requests_get := λ _ _ _,
       {| status_code := 200; text := "<html>";
          json_loads_text := Raises JSONDecodeError |};
     repr := λ _, "(object)";
     time_time := 1583144100 |}.

(** A server that answers 200 with null in the envelope's place. *)
Definition void : Env :=
  {| BUSTIME_API_KEY := VStr "secret";
     requests_get := λ _ _ _,
       {| status_code := 200; text := "(json)";
          json_loads_text := Returns (VDict [("bustime-response", VNone)]) |};
     repr := λ _, "(object)";
     time_time := 1583144100 |}.

(** A server that predicts an arrival, except that its second answer is an
    empty JSON object. *)
Definition bare_once : Env :=
  {| BUSTIME_API_KEY := VStr "secret";
     requests_get := λ n _ _,
       if decide (n = 1) then
         {| status_code := 200; text := "{}"; json_loads_text := Returns (VDict []) |}
       else ok [("prd", VList [raw_prediction "A" "3201" "8192"])];
     repr := λ _, "(object)";
     time_time := 1583144100 |}.

(** * Properties *)

(** ** What one call amounts to *)

(** Unfold the statements of the monad down to functions on the state. *)
Ltac run_py :=
  unfold to_csv;
  unfold mbind, Py_bind, mret, Py_ret, eval, print, sleep, emit,
    setitem, new_dict, increment_CALLS_COUNT, extend_vehicles,
    extend_predictions, get_state;
  simpl.

Section Summaries.
Variable env : Env.

Lemma query_api_run endpoint params st :
  let a := default query_api_defaults params in
  let d := injected env (heap st !!! a) in
  let url := BASE_URL +:+ endpoint in
  let r := requests_get env (CALLS_COUNT st) url d in
  query_api env endpoint params st
  = (answer r, after_call st a d (Get url d :: complaint env r)).
Proof.
  intros a d url r. subst r d url.
  unfold query_api, answer, complaint, after_call, injected.
  fold a. generalize a; clear a; intros a.
  unfold mbind, Py_bind, setitem, get, increment_CALLS_COUNT, emit, mret, Py_ret. simpl.
  rewrite !lookup_total_insert_eq, !insert_insert_eq.
  case_decide; simpl.
  - unfold eval. by destruct (json_loads_text _) as [body|e].
  - by rewrite <- app_assoc.
Qed.

Lemma get_vehicles_run route_ids st :
  let a := fresh (dom (heap st)) in
  let d := request_params env "rt" route_ids in
  let url := BASE_URL +:+ VEHICLES_ENDPOINT in
  let r := requests_get env (CALLS_COUNT st) url d in
  get_vehicles env route_ids st
  = ((vehicles_in env r).1, after_call st a d (Get url d :: (vehicles_in env r).2)).
Proof.
  intros a d url r. subst r d url a. unfold get_vehicles.
  unfold mbind at 1 2 3 4, Py_bind, setitem, new_dict. simpl.
  rewrite query_api_run. unfold after_call. simpl.
  rewrite !lookup_total_insert_eq, !insert_insert_eq.
  unfold vehicles_in, digest, request_params.
  destruct (answer _) as [response|e]; simpl; [|done].
  unfold eval, mbind at 1, Py_bind.
  destruct (is_None_or_lacks response "vehicle") as [[]|e]; simpl; [| |done].
  - run_py. by rewrite <- app_assoc.
  - unfold mbind at 1, Py_bind.
    by destruct (getitem response "vehicle" ≫= iter) as [raw|e].
Qed.

Lemma get_predictions_run vehicle_ids st :
  let a := fresh (dom (heap st)) in
  let d := request_params env "vid" vehicle_ids in
  let url := BASE_URL +:+ PREDICTIONS_ENDPOINT in
  let r := requests_get env (CALLS_COUNT st) url d in
  get_predictions env vehicle_ids st
  = ((predictions_in env r).1, after_call st a d (Get url d :: (predictions_in env r).2)).
Proof.
  intros a d url r. subst r d url a. unfold get_predictions.
  unfold mbind at 1 2 3 4, Py_bind, setitem, new_dict. simpl.
  rewrite query_api_run. unfold after_call. simpl.
  rewrite !lookup_total_insert_eq, !insert_insert_eq.
  unfold predictions_in, digest, request_params.
  destruct (answer _) as [response|e]; simpl; [|done].
  unfold eval, mbind at 1, Py_bind.
  destruct (is_None_or_lacks response "prd") as [[]|e]; simpl; [| |done].
  - run_py. by rewrite <- app_assoc.
  - unfold mbind at 1, Py_bind.
    by destruct (getitem response "prd" ≫= iter) as [raw|e].
Qed.

End Summaries.

(** ** Groups of ten *)

Lemma range_10 n : range 0 n 10 = (λ k, k * 10) <$> seq 0 ((n + 9) / 10).
Proof. unfold range. by rewrite Nat.sub_0_r. Qed.

Lemma slice_10 {A} (l : list A) i :
  slice l i (Nat.min (i + 10) (length l)) = take 10 (drop i l).
Proof.
  unfold slice. destruct (decide (i + 10 ≤ length l)) as [H|H].
  - f_equal. lia.
  - rewrite (take_ge (drop i l) 10) by (rewrite length_drop; lia).
    apply take_ge. rewrite length_drop. lia.
Qed.

Lemma groups_unfold {A} (l : list A) :
  groups l = (λ k, take 10 (drop (k * 10) l)) <$> seq 0 ((length l + 9) / 10).
Proof.
  unfold groups. rewrite range_10, <- list_fmap_compose.
  apply list_fmap_ext. intros _ k _. simpl. apply slice_10.
Qed.

Lemma groups_length {A} (l : list A) : length (groups l) = (length l + 9) / 10.
Proof. by rewrite groups_unfold, length_fmap, length_seq. Qed.

Lemma groups_lookup {A} (l : list A) k g :
  groups l !! k = Some g → g = take 10 (drop (k * 10) l) ∧ k * 10 < length l.
Proof.
  rewrite groups_unfold, list_lookup_fmap. intros H.
  destruct (seq 0 ((length l + 9) / 10) !! k) as [k'|] eqn:E; [|done].
  apply lookup_seq in E as [-> Hk]. injection H as <-.
  split; [done|]. change (0 + k) with k.
  pose proof (Nat.div_mod_eq (length l + 9) 10).
  pose proof (Nat.mod_upper_bound (length l + 9) 10). lia.
Qed.

Lemma concat_chunks {A} (l : list A) m :
  concat ((λ k, take 10 (drop (k * 10) l)) <$> seq 0 m) = take (m * 10) l.
Proof.
  induction m as [|m IH]; [done|].
  rewrite seq_S, fmap_app, concat_app, IH. simpl. rewrite app_nil_r.
  rewrite take_take_drop. f_equal. lia.
Qed.

Lemma groups_concat {A} (l : list A) : concat (groups l) = l.
Proof.
  rewrite groups_unfold, concat_chunks. apply take_ge.
  pose proof (Nat.div_mod_eq (length l + 9) 10).
  pose proof (Nat.mod_upper_bound (length l + 9) 10). lia.
Qed.

Lemma groups_size {A} (l : list A) k g :
  groups l !! k = Some g →
  1 ≤ length g ≤ 10 ∧ (S k < length (groups l) → length g = 10).
Proof.
  intros H. apply groups_lookup in H as [-> Hk].
  rewrite length_take, length_drop, groups_length. split; [lia|].
  intros Hlast.
  pose proof (Nat.div_mod_eq (length l + 9) 10).
  pose proof (Nat.mod_upper_bound (length l + 9) 10). lia.
Qed.

Section Batches.
Variable env : Env.

Lemma requests_app es1 es2 : requests (es1 ++ es2) = requests es1 ++ requests es2.
Proof. apply omap_app. Qed.

Lemma requests_complaint r : requests (complaint env r) = [].
Proof. unfold complaint. by case_decide. Qed.

Lemma requests_digest {A} key noun (f : list value → result (list A)) r :
  requests (digest env key noun f r).2 = [].
Proof.
  unfold digest. destruct (answer r) as [response|]; simpl;
    [|apply requests_complaint].
  destruct (is_None_or_lacks response key) as [[]|]; simpl;
    rewrite ?requests_app; by rewrite requests_complaint.
Qed.

Lemma predictions_from_cons vehicles i starts acc :
  predictions_from env vehicles (i :: starts) acc
  = (new ← get_predictions env
             (vids env (slice vehicles i (Nat.min (i + 10) (length vehicles))));
     predictions_from env vehicles starts (acc ++ new)).
Proof. done. Qed.

Lemma predictions_from_returns vehicles starts acc st (out : nat → list Prediction.t) :
  (∀ k i, starts !! k = Some i →
     (predictions_in env
        (group_reply env (CALLS_COUNT st + k)
           (slice vehicles i (Nat.min (i + 10) (length vehicles))))).1
     = Returns (out k)) →
  ∃ st' es,
    predictions_from env vehicles starts acc st
    = (Returns (acc ++ concat (out <$> seq 0 (length starts))), st') ∧
    calls_made st st' (length starts) es ∧
    requests es
    = (λ i, group_request env (slice vehicles i (Nat.min (i + 10) (length vehicles)))) <$> starts.
Proof.
  revert acc st out. induction starts as [|i starts IH]; intros acc st out Hout.
  - exists st, []. simpl. rewrite !app_nil_r. unfold calls_made.
    by rewrite Nat.add_0_r, app_nil_r.
  - rewrite predictions_from_cons. unfold mbind at 1, Py_bind.
    rewrite get_predictions_run.
    pose proof (Hout 0 i eq_refl) as H0. rewrite Nat.add_0_r in H0.
    unfold group_reply, PREDICTIONS_URL in H0. rewrite H0.
    set (st1 := after_call _ _ _ _).
    destruct (IH (acc ++ out 0) st1 (out ∘ S)) as (st' & es & Hrun & Hmade & Hreq).
    { intros k j Hk. simpl. replace (S (CALLS_COUNT st + k)) with (CALLS_COUNT st + S k) by lia.
      by apply Hout. }
    eexists st', (_ :: _ ++ es). split; [|split].
    + rewrite Hrun. f_equal. rewrite <- app_assoc. do 2 f_equal.
      by rewrite list_fmap_compose, fmap_S_seq.
    + destruct Hmade as (Hc & Hv & Hp & Ht). unfold calls_made.
      rewrite Hc, Hv, Hp, Ht. simpl. rewrite <- app_assoc. simpl.
      split_and!; [lia|done..].
    + simpl. rewrite requests_app, Hreq.
      unfold predictions_in. by rewrite requests_digest.
Qed.

End Batches.

(** ** Batching (get_predictions_for_vehicles) *)

Section Batching.
Variable env : Env.

Lemma digest_failed {A} key noun (f : list value → result (list A)) r :
  status_code r ≠ 200%Z → (digest env key noun f r).1 = Returns [].
Proof. intros H. unfold digest, answer. by rewrite decide_False. Qed.

Lemma sizes_23 {A} (l : list A) : length l = 23 → sizes (groups l) = [10; 10; 3].
Proof.
  intros H. unfold sizes. rewrite groups_unfold, H. simpl.
  rewrite !length_take, !length_drop, H. done.
Qed.


End Batching.


(** ** One fetch (query_api, get_vehicles, get_predictions) *)

Section Fetching.
Variable env : Env.

Lemma comprehension_Forall2 {A B} (f : A → result B) l ys :
  comprehension f l = Returns ys ↔ Forall2 (λ x y, f x = Returns y) l ys.
Proof.
  revert ys. induction l as [|x l IH]; intros ys; simpl.
  - split; [intros [= <-]; constructor|by inversion 1].
  - unfold mbind, result_bind. destruct (f x) as [y|e] eqn:Ex.
    + destruct (comprehension f l) as [ys'|e]; simpl.
      * split.
        -- intros [= <-]. constructor; [done|by apply IH].
        -- inversion 1 as [|???? Hy Hys]; subst. rewrite Ex in Hy.
           injection Hy as <-. apply IH in Hys. by injection Hys as <-.
      * split; [done|]. inversion 1 as [|???? Hy Hys]; subst.
        by apply IH in Hys.
    + split; [done|]. inversion 1 as [|???? Hy Hys]; subst. congruence.
Qed.

Lemma comprehension_if_filter {A B} (cond : A → result bool) (f : A → result B) l :
  Forall (λ x, ∃ b, cond x = Returns b) l →
  comprehension_if cond f l
  = comprehension f (filter (λ x, cond x = Returns true) l).
Proof.
  induction 1 as [|x l [b Hb] _ IH]; [done|]. simpl.
  rewrite Hb. unfold mbind at 1, result_bind. destruct b.
  - rewrite filter_cons_True by done. simpl. by rewrite IH.
  - rewrite filter_cons_False by congruence. done.
Qed.

Lemma comprehension_filter_returns {A B} (f : A → result B) (P : A → Prop)
    `{∀ x, Decision (P x)} l :
  Forall (λ x, P x → ∃ y, f x = Returns y) l →
  ∃ ys, comprehension f (filter P l) = Returns ys.
Proof.
  induction 1 as [|x l Hx _ [ys IH]]; [by exists []|].
  destruct (decide (P x)) as [Hp|Hp].
  - rewrite filter_cons_True by done. destruct (Hx Hp) as [y Hy].
    exists (y :: ys). simpl. by rewrite Hy, IH.
  - rewrite filter_cons_False by done. by exists ys.
Qed.

Lemma getitem_contains kvs key v :
  getitem (VDict kvs) key = Returns v → contains key (VDict kvs) = Returns true.
Proof.
  unfold getitem, contains. intros H. f_equal. apply bool_decide_eq_true.
  destruct (list_find _ kvs) as [[i [k v']]|] eqn:E; [|done].
  apply list_find_Some in E as (Hi & Hk & _). simpl in Hk. subst k. apply list_elem_of_fmap. exists (key, v').
  split; [done|]. by eapply list_elem_of_lookup_2.
Qed.

Lemma found_not_lacking kvs key v :
  getitem (VDict kvs) key = Returns v →
  is_None_or_lacks (VDict kvs) key = Returns false.
Proof.
  intros H. unfold is_None_or_lacks. by rewrite (getitem_contains _ _ _ H).
Qed.

Lemma getitem_missing kvs key :
  key ∉ kvs.*1 → getitem (VDict kvs) key = Raises (KeyError key).
Proof.
  intros H. unfold getitem.
  destruct (list_find _ kvs) as [[i [k v']]|] eqn:E; [|done].
  apply list_find_Some in E as (Hi & Hk & _). simpl in Hk. subst k. destruct H. apply list_elem_of_fmap. exists (key, v').
  split; [done|]. by eapply list_elem_of_lookup_2.
Qed.

Lemma arrival_type_code p : arrival p ↔ has_type_code "A" p.
Proof.
  unfold arrival, is_arrival, has_type_code.
  destruct (getitem p "typ") as [[| | |s| |]|e]; simpl; split; try done.
  - intros [= H]. apply bool_decide_eq_true in H. by subst.
  - intros [= ->]. by rewrite bool_decide_eq_true_2.
Qed.

(** C5.  When the reply to get_predictions carries a prd list whose
    entries all have a type code (and whose entries of type A have the six
    fields a record is made of), get_predictions returns one record for
    every entry that has the string A under typ and none for any other entry,
    in the order of the list: what is of another type is dropped before
    anything is stored. *)
Theorem get_predictions_keeps_arrivals vehicle_ids st kvs raw :
  let r := requests_get env (CALLS_COUNT st) PREDICTIONS_URL
             (request_params env "vid" vehicle_ids) in
  answer r = Returns (VDict kvs) →
  getitem (VDict kvs) "prd" = Returns (VList raw) →
  Forall (λ p, ∃ typ, getitem p "typ" = Returns typ) raw →
  Forall (λ p, has_type_code "A" p → ∃ q, prediction_of p = Returns q) raw →
  ∃ ps,
    (get_predictions env vehicle_ids st).1 = Returns ps ∧
    Forall2 (λ p q, prediction_of p = Returns q)
      (filter (has_type_code "A") raw) ps ∧
    (∀ p, p ∈ raw → has_type_code "A" p →
          ∃ q, q ∈ ps ∧ prediction_of p = Returns q) ∧
    (∀ q, q ∈ ps → ∃ p, p ∈ raw ∧ has_type_code "A" p ∧
                         prediction_of p = Returns q) ∧
    length ps = length (filter (has_type_code "A") raw).
Proof.
  intros r Hanswer Hprd Htyp Hfields.
  assert (filter arrival raw = filter (has_type_code "A") raw) as Hfilter
    by (apply list_filter_iff; intros p; apply arrival_type_code).
  destruct (comprehension_filter_returns prediction_of (has_type_code "A") raw Hfields)
    as [ps Hps].
  exists ps. pose proof Hps as HF%comprehension_Forall2. split_and!.
  - rewrite get_predictions_run. simpl.
    subst r. unfold PREDICTIONS_URL in Hanswer.
    unfold predictions_in, digest. rewrite Hanswer. cbv beta iota.
    rewrite (found_not_lacking _ _ _ Hprd). cbv beta iota.
    rewrite Hprd. simpl.
    rewrite comprehension_if_filter.
    + fold arrival. by rewrite Hfilter.
    + eapply Forall_impl; [exact Htyp|]. intros p [typ Hp].
      exists (is_str "A" typ). unfold is_arrival. by rewrite Hp.
  - done.
  - intros p Hp Ha.
    assert (p ∈ filter (has_type_code "A") raw) as [i Hi]%list_elem_of_lookup
      by (by apply list_elem_of_filter).
    destruct (Forall2_lookup_l _ _ _ _ _ HF Hi) as (q & Hq & Hpq).
    exists q. split; [by eapply list_elem_of_lookup_2|done].
  - intros q [i Hq]%list_elem_of_lookup.
    destruct (Forall2_lookup_r _ _ _ _ _ HF Hq) as (p & Hp & Hpq).
    apply list_elem_of_lookup_2, list_elem_of_filter in Hp as [Ha Hp].
    by exists p.
  - symmetry. by eapply Forall2_length.
Qed.

End Fetching.

Lemma get_predictions_keeps_arrivals_witness :
  ∃ ps,
    (get_predictions feed "3201,3207" initial).1 = Returns ps ∧
    length ps = 1.
Proof.
  destruct (get_predictions_keeps_arrivals feed "3201,3207" initial
              [("prd", VList [raw_prediction "A" "3201" "8192";
                              raw_prediction "D" "3201" "8193"])]
              [raw_prediction "A" "3201" "8192"; raw_prediction "D" "3201" "8193"])
    as (ps & Hps & _ & _ & _ & Hlen).
  - vm_compute. reflexivity.
  - vm_compute. reflexivity.
  - repeat constructor; by eexists.
  - repeat constructor; intros _; by eexists.
  - exists ps. split; [exact Hps|exact Hlen].
Defined.

(** ** A response without the envelope, and a failed call *)

Lemma for_raises {A} (body : A → Py unit) x l st e st' :
  body x st = (Raises e, st') → for_ (x :: l) body st = (Raises e, st').
Proof. intros H. simpl. unfold mbind, Py_bind. by rewrite H. Qed.

Section Envelope.
Variable env : Env.

Lemma answer_lacks_envelope r :
  lacks_envelope r → answer r = Raises (KeyError "bustime-response").
Proof.
  intros (H200 & kvs & Hbody & Hkey). unfold answer.
  rewrite decide_True by done. rewrite Hbody. simpl.
  by apply getitem_missing.
Qed.

Lemma digest_lacks_envelope {A} key noun (f : list value → result (list A)) r :
  lacks_envelope r →
  (digest env key noun f r).1 = Raises (KeyError "bustime-response").
Proof. intros H. unfold digest. by rewrite answer_lacks_envelope. Qed.

Lemma digest_lacks_list {A} key noun (f : list value → result (list A)) r kvs :
  answer r = Returns (VDict kvs) → key ∉ kvs.*1 →
  (digest env key noun f r).1 = Returns [].
Proof.
  intros Ha Hkey. unfold digest. rewrite Ha. simpl.
  by rewrite bool_decide_eq_false_2.
Qed.

(** A call the server fails returns no vehicles and is counted once. *)
Lemma get_vehicles_failed route_ids st :
  status_code (vehicles_reply env (CALLS_COUNT st) route_ids) ≠ 200%Z →
  (get_vehicles env route_ids st).1 = Returns [] ∧
  CALLS_COUNT (get_vehicles env route_ids st).2 = S (CALLS_COUNT st) ∧
  vehicles (get_vehicles env route_ids st).2 = vehicles st.
Proof.
  intros H. rewrite get_vehicles_run. simpl. split; [|done].
  by apply digest_failed.
Qed.

(** C2, as the code has it.  A 200 response whose JSON object has no
    bustime-response entry makes the subscript in query_api raise KeyError;
    the call has been counted by then, and get_vehicles, get_predictions
    and the loops of both scripts pass the exception on.  What is turned
    into empty data is a response with any other status (None from
    query_api, an empty list from its callers) and a 200 response whose
    envelope has no vehicle or prd entry. *)
Theorem missing_envelope_raises_KeyError st :
  (∀ endpoint params,
     lacks_envelope
       (requests_get env (CALLS_COUNT st) (BASE_URL +:+ endpoint)
          (injected env (heap st !!! default query_api_defaults params))) →
     (query_api env endpoint params st).1 = Raises (KeyError "bustime-response") ∧
     CALLS_COUNT (query_api env endpoint params st).2 = S (CALLS_COUNT st)) ∧
  (∀ route_ids,
     lacks_envelope (vehicles_reply env (CALLS_COUNT st) route_ids) →
     (get_vehicles env route_ids st).1 = Raises (KeyError "bustime-response")) ∧
  (∀ vehicle_ids,
     lacks_envelope
       (requests_get env (CALLS_COUNT st) PREDICTIONS_URL
          (request_params env "vid" vehicle_ids)) →
     (get_predictions env vehicle_ids st).1 = Raises (KeyError "bustime-response")) ∧
  (∀ n every,
     lacks_envelope
       (vehicles_reply env (CALLS_COUNT st) GatherBusUpdates.ROUTE_ID) →
     (GatherBusUpdates.loop env (S n) every st).1
     = Raises (KeyError "bustime-response")) ∧
  (∀ n every,
     lacks_envelope
       (vehicles_reply env (CALLS_COUNT st) GatherPredictions.ROUTE_ID) →
     (GatherPredictions.loop env (S n) every st).1
     = Raises (KeyError "bustime-response")) ∧
  (∀ endpoint params,
     status_code
       (requests_get env (CALLS_COUNT st) (BASE_URL +:+ endpoint)
          (injected env (heap st !!! default query_api_defaults params)))
     ≠ 200%Z →
     (query_api env endpoint params st).1 = Returns VNone) ∧
  (∀ route_ids,
     status_code (vehicles_reply env (CALLS_COUNT st) route_ids) ≠ 200%Z →
     (get_vehicles env route_ids st).1 = Returns []) ∧
  (∀ route_ids kvs,
     answer (vehicles_reply env (CALLS_COUNT st) route_ids) = Returns (VDict kvs) →
     "vehicle" ∉ kvs.*1 →
     (get_vehicles env route_ids st).1 = Returns []).
Proof.
  split_and!.
  - intros endpoint params H. rewrite query_api_run. simpl.
    split; [|done]. by apply answer_lacks_envelope.
  - intros route_ids H. rewrite get_vehicles_run. simpl.
    by apply digest_lacks_envelope.
  - intros vehicle_ids H. rewrite get_predictions_run. simpl.
    by apply digest_lacks_envelope.
  - intros n every H. unfold GatherBusUpdates.loop.
    rewrite <- cons_seq.
    erewrite for_raises; [done|].
    unfold GatherBusUpdates.iteration, mbind at 1, Py_bind.
    rewrite get_vehicles_run. simpl.
    unfold vehicles_in. rewrite digest_lacks_envelope by done. done.
  - intros n every H. unfold GatherPredictions.loop.
    rewrite <- cons_seq.
    erewrite for_raises; [done|].
    unfold GatherPredictions.iteration, mbind at 1, Py_bind.
    rewrite get_vehicles_run. simpl.
    unfold vehicles_in. rewrite digest_lacks_envelope by done. done.
  - intros endpoint params H. rewrite query_api_run. simpl.
    unfold answer. by rewrite decide_False.
  - intros route_ids H. by apply get_vehicles_failed.
  - intros route_ids kvs Ha Hkey. rewrite get_vehicles_run. simpl.
    by eapply digest_lacks_list.
Qed.

End Envelope.

Lemma missing_envelope_raises_KeyError_witness :
  (query_api bare VEHICLES_ENDPOINT None initial).1
  = Raises (KeyError "bustime-response") ∧
  (get_vehicles bare "61A,61B" initial).1 = Raises (KeyError "bustime-response") ∧
  (GatherBusUpdates.loop bare 3 3 initial).1 = Raises (KeyError "bustime-response") ∧
  (query_api down VEHICLES_ENDPOINT None initial).1 = Returns VNone ∧
  (get_vehicles down "61A,61B" initial).1 = Returns [].
Proof.
  assert (∀ n url params, lacks_envelope (requests_get bare n url params)) as H.
  { intros n url params. split; [done|]. exists [].
    split; [done|]. apply not_elem_of_nil. }
  destruct (missing_envelope_raises_KeyError bare initial)
    as (Hquery & Hvehicles & _ & Hloop & _).
  destruct (missing_envelope_raises_KeyError down initial)
    as (_ & _ & _ & _ & _ & Hnone & Hempty & _).
  split_and!.
  - apply (Hquery VEHICLES_ENDPOINT None), H.
  - apply (Hvehicles "61A,61B"), H.
  - apply (Hloop 2 3), H.
  - by apply (Hnone VEHICLES_ENDPOINT None).
  - by apply (Hempty "61A,61B").
Defined.

(** C2, as claimed, fails: the server answers 200 with the JSON object {},
    and the KeyError leaves query_api, get_vehicles and both scripts. *)
Lemma missing_envelope_is_not_empty_data :
  lacks_envelope (vehicles_reply bare 0 "61A,61B") ∧
  (query_api bare VEHICLES_ENDPOINT None initial).1
  = Raises (KeyError "bustime-response") ∧
  (get_vehicles bare "61A,61B" initial).1 = Raises (KeyError "bustime-response") ∧
  (GatherBusUpdates.main bare initial).1 = Raises (KeyError "bustime-response") ∧
  (GatherPredictions.main bare initial).1 = Raises (KeyError "bustime-response").
Proof.
  split_and!; try by vm_compute.
  split; [done|]. exists []. split; [done|]. apply not_elem_of_nil.
Qed.

(** ** The dictionary query_api writes to *)

Section Params.
Variable env : Env.

Lemma injected_lookup d :
  injected env d !! "key" = Some (BUSTIME_API_KEY env) ∧
  injected env d !! "format" = Some (VStr "json") ∧
  injected env d !! "rtpidatafeed" = Some (VStr DATAFEED_NAME) ∧
  (∀ k, k ≠ "key" → k ≠ "format" → k ≠ "rtpidatafeed" →
        injected env d !! k = d !! k).
Proof.
  unfold injected. split_and!.
  - by rewrite lookup_insert_ne, lookup_insert_ne, lookup_insert_eq.
  - by rewrite lookup_insert_ne, lookup_insert_eq.
  - by rewrite lookup_insert_eq.
  - intros k ???. by rewrite !lookup_insert_ne.
Qed.

Lemma injected_idemp d : injected env (injected env d) = injected env d.
Proof.
  apply map_eq. intros k.
  destruct (injected_lookup d) as (Hk & Hf & Hr & Hd).
  destruct (injected_lookup (injected env d)) as (Hk' & Hf' & Hr' & Hd').
  destruct (decide (k = "key")) as [->|?]; [congruence|].
  destruct (decide (k = "format")) as [->|?]; [congruence|].
  destruct (decide (k = "rtpidatafeed")) as [->|?]; [congruence|].
  by rewrite Hd'.
Qed.

(** C10.  query_api writes into the dictionary it is given, not into a
    copy: whatever the call returns or raises, the dictionary at the
    caller's address holds afterwards the key, format and rtpidatafeed
    entries besides the entries it had, and no other dictionary has changed.
    A call that omits [params] uses the one dictionary made with the
    function: the entries are written into it, stay in it, and the next
    call that omits [params] sends that very dictionary. *)
Theorem query_api_writes_into_params endpoint params st :
  let a := default query_api_defaults params in
  let before := heap st !!! a in
  let st' := (query_api env endpoint params st).2 in
  let after := heap st' !!! a in
  (after !! "key" = Some (BUSTIME_API_KEY env) ∧
   after !! "format" = Some (VStr "json") ∧
   after !! "rtpidatafeed" = Some (VStr DATAFEED_NAME) ∧
   (∀ k, k ≠ "key" → k ≠ "format" → k ≠ "rtpidatafeed" →
         after !! k = before !! k)) ∧
  (∀ b, b ≠ a → heap st' !! b = heap st !! b) ∧
  (∀ endpoint',
     let st1 := (query_api env endpoint None st).2 in
     let st2 := (query_api env endpoint' None st1).2 in
     let kept := heap st1 !!! query_api_defaults in
     kept = injected env (heap st !!! query_api_defaults) ∧
     heap st2 !!! query_api_defaults = kept ∧
     requests (drop (length (trace st1)) (trace st2))
     = [(BASE_URL +:+ endpoint', kept)]).
Proof.
  intros a before st' after. subst st' after.
  rewrite query_api_run. simpl. fold a. split_and!.
  1-4: rewrite lookup_total_insert_eq; apply injected_lookup.
  - intros b Hb. by rewrite lookup_insert_ne.
  - intros endpoint'. rewrite !query_api_run. simpl.
    rewrite !lookup_total_insert_eq, injected_idemp. split_and!; [done..|].
    rewrite drop_app_length. simpl. by rewrite requests_complaint.
Qed.

End Params.

(** ** Dropping duplicates *)

Section KeepFirst.
Context {K R : Type} `{EqDecision K}.

Implicit Types (seen : list K) (l : list (K * R)).

Lemma keep_first_keyed seen l : keep_first seen l = (keep_keyed seen l).*2.
Proof.
  revert seen. induction l as [|[k r] l IH]; intros seen; [done|]. simpl.
  case_decide; simpl; by rewrite IH.
Qed.

Lemma keep_keyed_ext seen seen' l :
  (∀ k, k ∈ seen ↔ k ∈ seen') → keep_keyed seen l = keep_keyed seen' l.
Proof.
  revert seen seen'. induction l as [|[k r] l IH]; intros seen seen' Hs; [done|].
  simpl. destruct (decide (k ∈ seen)) as [Hk|Hk].
  - rewrite decide_True by (by apply Hs). by apply IH.
  - rewrite decide_False by (by rewrite <- Hs). f_equal. apply IH.
    intros k'. rewrite !elem_of_cons. by rewrite Hs.
Qed.

Lemma keep_keyed_app seen l1 l2 :
  keep_keyed seen (l1 ++ l2)
  = keep_keyed seen l1 ++ keep_keyed (l1.*1 ++ seen) l2.
Proof.
  revert seen. induction l1 as [|[k r] l1 IH]; intros seen; [done|]. simpl.
  destruct (decide (k ∈ seen)) as [Hk|Hk].
  - rewrite IH. f_equal. apply keep_keyed_ext. intros k'.
    rewrite elem_of_cons, !elem_of_app. split; [tauto|].
    intros [->|?]; tauto.
  - rewrite IH. simpl. do 2 f_equal. apply keep_keyed_ext. intros k'.
    rewrite !elem_of_cons, !elem_of_app, elem_of_cons. tauto.
Qed.

Lemma keep_keyed_idemp seen l :
  keep_keyed seen (keep_keyed seen l) = keep_keyed seen l.
Proof.
  revert seen. induction l as [|[k r] l IH]; intros seen; [done|]. simpl.
  destruct (decide (k ∈ seen)) as [Hk|Hk]; [done|]. simpl.
  rewrite decide_False by done. by rewrite IH.
Qed.

Lemma keep_keyed_sublist seen l : keep_keyed seen l `sublist_of` l.
Proof.
  revert seen. induction l as [|[k r] l IH]; intros seen; [done|]. simpl.
  case_decide; [by apply sublist_cons|by apply sublist_skip].
Qed.

Lemma keep_keyed_fresh seen l k : k ∈ (keep_keyed seen l).*1 → k ∉ seen.
Proof.
  revert seen. induction l as [|[k' r] l IH]; intros seen; simpl.
  - by intros ?%elem_of_nil.
  - destruct (decide (k' ∈ seen)) as [Hk|Hk]; [apply IH|].
    simpl. rewrite elem_of_cons. intros [->|Hin]; [done|].
    apply IH in Hin. rewrite elem_of_cons in Hin. tauto.
Qed.

Lemma keep_keyed_NoDup seen l : NoDup (keep_keyed seen l).*1.
Proof.
  revert seen. induction l as [|[k r] l IH]; intros seen; simpl; [constructor|].
  case_decide; [done|]. simpl. constructor; [|done].
  intros Hin%keep_keyed_fresh. apply Hin. by left.
Qed.

Lemma keep_keyed_complete seen l k :
  k ∈ l.*1 → k ∈ seen ∨ k ∈ (keep_keyed seen l).*1.
Proof.
  revert seen. induction l as [|[k' r] l IH]; intros seen; simpl.
  - by intros ?%elem_of_nil.
  - rewrite elem_of_cons. intros [->|Hin].
    + destruct (decide (k' ∈ seen)); [by left|right]. simpl. by left.
    + destruct (decide (k' ∈ seen)) as [Hk|Hk]; [by apply IH|].
      destruct (IH (k' :: seen) Hin) as [Hs|Hs].
      * apply elem_of_cons in Hs as [->|Hs]; [right; simpl; by left|by left].
      * right. simpl. by right.
Qed.

End KeepFirst.

(** The rows of a frame with their keys, when every cell can be hashed. *)
Lemma keyed_rows df rows :
  comprehension keyed df = Returns rows →
  rows.*2 = df ∧ Forall (λ kr, keyed kr.2 = Returns kr) rows.
Proof.
  intros H%comprehension_Forall2. induction H as [|r [k r'] df rows Hr _ [IH1 IH2]].
  - by split.
  - unfold keyed in Hr. destruct (hash_row r.2) as [k'|] eqn:Ek; [|done].
    simpl in Hr. injection Hr as <- <-. split; [by rewrite fmap_cons, IH1|].
    constructor; [|done]. simpl. unfold keyed. by rewrite Ek.
Qed.

Lemma keyed_sublist rows rows' :
  Forall (λ kr, keyed kr.2 = Returns kr) rows → rows' `sublist_of` rows →
  comprehension keyed rows'.*2 = Returns rows'.
Proof.
  intros Hrows Hsub. apply comprehension_Forall2.
  assert (Forall (λ kr, keyed kr.2 = Returns kr) rows') as Hrows'.
  { rewrite Forall_forall in Hrows. apply Forall_forall. intros kr Hin.
    apply Hrows. by eapply elem_of_sublist. }
  clear Hrows Hsub. induction Hrows' as [|kr rows' Hkr _ IH]; by constructor.
Qed.

Lemma comprehension_app {A B} (f : A → result B) l1 l2 ys :
  comprehension f (l1 ++ l2) = Returns ys ↔
  ∃ ys1 ys2, ys = ys1 ++ ys2 ∧ comprehension f l1 = Returns ys1 ∧
             comprehension f l2 = Returns ys2.
Proof.
  rewrite comprehension_Forall2. split.
  - intros (ys1 & ys2 & H1 & H2 & ->)%Forall2_app_inv_l.
    exists ys1, ys2. by rewrite !comprehension_Forall2.
  - intros (ys1 & ys2 & -> & H1%comprehension_Forall2 & H2%comprehension_Forall2).
    by apply Forall2_app.
Qed.

(** Dropping duplicates a second time changes nothing. *)
Lemma drop_duplicates_idemp df df' :
  drop_duplicates df = Returns df' → drop_duplicates df' = Returns df'.
Proof.
  unfold drop_duplicates. unfold mbind, result_bind.
  destruct (comprehension keyed df) as [rows|] eqn:E; [|done].
  intros [= <-]. apply keyed_rows in E as [_ Hrows].
  rewrite keep_first_keyed.
  rewrite (keyed_sublist rows) by (done || apply keep_keyed_sublist).
  by rewrite keep_first_keyed, keep_keyed_idemp.
Qed.

(** The duplicates dropped from a frame are a prefix of those dropped from
    the frame with more rows after it. *)
Lemma drop_duplicates_app df1 df2 df :
  drop_duplicates (df1 ++ df2) = Returns df →
  ∃ df1', drop_duplicates df1 = Returns df1' ∧ df1' `prefix_of` df.
Proof.
  unfold drop_duplicates. unfold mbind, result_bind.
  destruct (comprehension keyed (df1 ++ df2)) as [rows|] eqn:E; [|done].
  intros [= <-]. apply comprehension_app in E as (rows1 & rows2 & -> & E1 & E2).
  rewrite E1. eexists. split; [done|].
  rewrite !keep_first_keyed, keep_keyed_app, fmap_app. by eexists.
Qed.

(** *** Columns of one type *)

Lemma uniform_app records more : uniform (records ++ more) → uniform records.
Proof.
  intros (ts & Hnd & H). exists ts. split; [done|].
  by apply Forall_app in H as [? _].
Qed.

Lemma uniform_check ts records :
  NoDup ts.*1 → Forall (λ r, types r = ts) records → uniform records.
Proof. intros ??. by exists ts. Qed.

Lemma uniform_prefix records records' :
  records `prefix_of` records' → uniform records' → uniform records.
Proof. intros [more ->]. apply uniform_app. Qed.

Lemma same_on_one_type (f : value → bool) cells v :
  (∀ x, type_name x = type_name v → f x = f v) →
  cells ≠ [] → Forall (λ x, type_name x = type_name v) cells →
  forallb f cells = f v ∧ existsb f cells = f v.
Proof.
  intros Hf Hne H. induction H as [|x cells Hx H IH]; [done|]. clear Hne.
  cbn [forallb existsb]. rewrite (Hf x Hx).
  destruct cells as [|y cells].
  - cbn [forallb existsb]. by rewrite andb_true_r, orb_false_r.
  - destruct IH as [-> ->]; [done|]. by destruct (f v).
Qed.

Lemma infer_one_type cells v :
  cells ≠ [] → Forall (λ x, type_name x = type_name v) cells →
  astype (infer cells) v = stored v.
Proof.
  intros Hne H. unfold stored, infer.
  destruct (same_on_one_type is_int cells v) as [-> ->];
    [by intros [] Hx; destruct v|done..|].
  destruct (same_on_one_type is_int_or_None cells v) as [-> _];
    [by intros [] Hx; destruct v|done..|].
  destruct (same_on_one_type is_bool cells v) as [-> _];
    [by intros [] Hx; destruct v|done..|].
  by destruct v.
Qed.

Lemma column_elem records c x :
  x ∈ column records c ↔ ∃ r, r ∈ records ∧ (c, x) ∈ r.
Proof.
  unfold column. rewrite list_elem_of_bind. split.
  - intros (r & Hx & Hr). exists r. split; [done|].
    apply list_elem_of_fmap in Hx as ([c' x'] & -> & Hin).
    apply list_elem_of_filter in Hin as [Hc Hin]. simpl in Hc. by subst.
  - intros (r & Hr & Hx). exists r. split; [|done].
    apply list_elem_of_fmap. exists (c, x). split; [done|].
    by apply list_elem_of_filter.
Qed.

Lemma NoDup_fst_unique {A B} (l : list (A * B)) x y1 y2 :
  NoDup l.*1 → (x, y1) ∈ l → (x, y2) ∈ l → y1 = y2.
Proof.
  induction l as [|[x' y'] l IH]; simpl; [by intros _ ?%elem_of_nil|].
  intros [Hx Hnd]%NoDup_cons [H1|H1]%elem_of_cons [H2|H2]%elem_of_cons.
  - congruence.
  - injection H1 as <- <-. destruct Hx. apply list_elem_of_fmap. by exists (x, y2).
  - injection H2 as <- <-. destruct Hx. apply list_elem_of_fmap. by exists (x, y1).
  - by apply IH.
Qed.

Lemma types_elem r c x : (c, x) ∈ r → (c, type_name x) ∈ types r.
Proof. intros H. apply list_elem_of_fmap. by exists (c, x). Qed.

(** In a list whose columns are of one type each, a record is stored cell by
    cell, whatever the other records hold. *)
Lemma stored_in_uniform records r :
  uniform records → r ∈ records → stored_in records r = stored_row r.
Proof.
  intros (ts & Hnd & Hts) Hr. unfold stored_in, stored_row.
  rewrite Forall_forall in Hts.
  apply list_fmap_ext. intros i [c v] Hi. simpl. f_equal.
  apply list_elem_of_lookup_2 in Hi.
  apply infer_one_type.
  - intros Hnil. assert (v ∈ column records c) as Hv
      by (apply column_elem; by exists r).
    rewrite Hnil in Hv. by apply elem_of_nil in Hv.
  - apply Forall_forall. intros x (r' & Hr' & Hx)%column_elem.
    apply types_elem in Hx, Hi. rewrite (Hts _ Hr') in Hx. rewrite (Hts _ Hr) in Hi.
    by eapply NoDup_fst_unique.
Qed.

Lemma DataFrame_uniform records :
  uniform records →
  DataFrame records = zip (seq 0 (length records)) (stored_row <$> records).
Proof.
  intros H. unfold DataFrame. f_equal. apply list_fmap_ext. intros i r Hi.
  apply stored_in_uniform; [done|]. by eapply list_elem_of_lookup_2.
Qed.

Lemma DataFrame_app records more :
  uniform (records ++ more) →
  DataFrame (records ++ more)
  = DataFrame records ++ zip (seq (length records) (length more)) (stored_row <$> more).
Proof.
  intros H. rewrite (DataFrame_uniform _ H).
  rewrite (DataFrame_uniform records) by (by eapply uniform_app).
  rewrite length_app, seq_app, fmap_app. simpl.
  by rewrite zip_with_app by (by rewrite length_seq, length_fmap).
Qed.

Lemma DataFrame_labels records : (DataFrame records).*1 = seq 0 (length records).
Proof. unfold DataFrame. apply fst_zip. by rewrite length_seq, length_fmap. Qed.

Lemma DataFrame_rows records :
  (DataFrame records).*2 = stored_in records <$> records.
Proof. unfold DataFrame. apply snd_zip. by rewrite length_seq, length_fmap. Qed.

(** ** File names *)

Lemma chars_app (a b : string) : chars (a +:+ b) = chars a ++ chars b.
Proof. induction a as [|c a IH]; [done|]. simpl. by rewrite <- IH. Qed.

Lemma open_w_returns path : Forall in_name (chars path) ↔ open_w path = Returns ().
Proof.
  unfold open_w. rewrite Forall_forall. split.
  - intros H. rewrite !decide_False; [done|..]; intros Hin; by destruct (H _ Hin).
  - repeat case_decide; try done. intros _ c Hc. split; by intros ->.
Qed.

Lemma pretty_N_char_in_name n : in_name (pretty_N_char n).
Proof. unfold pretty_N_char. split; by repeat case_match. Qed.

Lemma pretty_N_go_in_name x s :
  Forall in_name (chars s) → Forall in_name (chars (pretty_N_go x s)).
Proof.
  revert s. induction (N.lt_wf_0 x) as [x _ IH]; intros s Hs.
  assert (x = 0 ∨ 0 < x)%N as [->|?] by lia; [by rewrite pretty_N_go_0|].
  rewrite pretty_N_go_step by done. apply IH; [by apply N.div_lt|].
  constructor; [apply pretty_N_char_in_name|done].
Qed.

Lemma pretty_N_in_name (x : N) : Forall in_name (chars (pretty x)).
Proof.
  unfold pretty, pretty_N. case_decide; [by repeat constructor|].
  apply pretty_N_go_in_name. constructor.
Qed.

(** However the clock stands, its digits can stand in a file name. *)
Lemma pretty_Z_in_name (z : Z) : Forall in_name (chars (pretty z)).
Proof.
  destruct z as [|p|p]; unfold pretty, pretty_Z.
  - by repeat constructor.
  - apply pretty_N_in_name.
  - rewrite chars_app. apply Forall_app. split; [by repeat constructor|].
    apply pretty_N_in_name.
Qed.

Lemma open_w_now (prefix : string) (z : Z) :
  Forall in_name (chars prefix) →
  open_w (prefix +:+ pretty z +:+ ".csv") = Returns ().
Proof.
  intros H. apply open_w_returns. rewrite !chars_app, !Forall_app.
  split_and!; [done|apply pretty_Z_in_name|by repeat constructor].
Qed.

(** ** One iteration of the loops *)

Lemma for_app {A} (body : A → Py unit) l1 l2 st :
  for_ (l1 ++ l2) body st
  = match for_ l1 body st with
    | (Returns _, st') => for_ l2 body st'
    | (Raises e, st') => (Raises e, st')
    end.
Proof.
  revert st. induction l1 as [|x l1 IH]; intros st; [done|]. simpl.
  unfold mbind, Py_bind. destruct (body x st) as [[[]|e] st']; [apply IH|done].
Qed.

Lemma written_app es1 es2 : written (es1 ++ es2) = written es1 ++ written es2.
Proof. apply omap_app. Qed.

Lemma written_Get url d es : written (Get url d :: es) = written es.
Proof. done. Qed.

Lemma written_complaint env r : written (complaint env r) = [].
Proof. unfold complaint. by case_decide. Qed.

Lemma written_digest {A} env key noun (f : list value → result (list A)) r :
  written (digest env key noun f r).2 = [].
Proof.
  unfold digest. destruct (answer r) as [response|]; simpl;
    [|apply written_complaint].
  destruct (is_None_or_lacks response key) as [[]|]; simpl;
    rewrite ?written_app; by rewrite written_complaint.
Qed.

Lemma since_log st es : since st (log st es) = es.
Proof. unfold since, log. simpl. apply drop_app_length. Qed.

Section BusUpdatesSteps.
Import GatherBusUpdates BusUpdatesFacts.
Variable env : Env.

Lemma bus_updates_save_run st :
  save st
  = match snapshot (vehicles st) with
    | Returns (path, df) => (Returns (), log st [Print "Saving..."; ToCsv path df])
    | Raises e => (Raises e, log st [Print "Saving..."])
    end.
Proof.
  unfold save, snapshot. run_py. unfold log. simpl.
  destruct (first (vehicles st)) as [oldest|]; simpl; [|done].
  destruct (replace (Vehicle.timestamp oldest) " " "@") as [from_date|]; simpl; [|done].
  destruct (last (vehicles st)) as [newest|]; simpl; [|done].
  destruct (replace (Vehicle.timestamp newest) " " "@") as [to_date|]; simpl; [|done].
  destruct (drop_duplicates _) as [df|]; simpl; [|done].
  destruct (open_w _); simpl; [|done].
  by rewrite <- app_assoc.
Qed.

Lemma bus_updates_iteration_run every i st :
  let r := vehicles_reply env (CALLS_COUNT st) ROUTE_ID in
  let d := request_params env "rt" ROUTE_ID in
  let st1 := after_call st (fresh (dom (heap st))) d
               (Get VEHICLES_URL d :: (vehicles_in env r).2) in
  iteration env every i st
  = match (vehicles_in env r).1 with
    | Returns now => rest_of_iteration every i st1 now
    | Raises e => (Raises e, st1)
    end.
Proof.
  intros r d st1. subst st1 r d. unfold vehicles_reply, VEHICLES_URL.
  unfold iteration. unfold mbind at 1, Py_bind.
  rewrite get_vehicles_run. simpl.
  destruct ((vehicles_in env _).1) as [now|e]; [|done].
  unfold rest_of_iteration. unfold mbind at 1 2, Py_bind, extend_vehicles.
  unfold gathered. simpl. rewrite app_nil_r.
  case_decide.
  - rewrite bus_updates_save_run. simpl.
    destruct (snapshot _) as [[path df]|e]; simpl; [|done].
    unfold sleep, emit, log. simpl. by rewrite <- app_assoc.
  - done.
Qed.

End BusUpdatesSteps.

Lemma quiet_refl st : quiet st st.
Proof. split_and!; [done..|]. exists []. by rewrite app_nil_r. Qed.

Lemma quiet_trans st1 st2 st3 : quiet st1 st2 → quiet st2 st3 → quiet st1 st3.
Proof.
  intros (Hv & Hp & es & Ht & Hw) (Hv' & Hp' & es' & Ht' & Hw').
  split_and!; [congruence..|]. exists (es ++ es').
  by rewrite Ht', Ht, app_assoc, written_app, Hw, Hw'.
Qed.

Lemma get_vehicles_quiet env route_ids st :
  quiet st (get_vehicles env route_ids st).2.
Proof.
  rewrite get_vehicles_run. simpl. split_and!; [done..|].
  eexists. split; [done|]. simpl. apply written_digest.
Qed.

Lemma get_predictions_quiet env vehicle_ids st :
  quiet st (get_predictions env vehicle_ids st).2.
Proof.
  rewrite get_predictions_run. simpl. split_and!; [done..|].
  eexists. split; [done|]. simpl. apply written_digest.
Qed.

Lemma predictions_from_quiet env vehicles starts acc st :
  quiet st (predictions_from env vehicles starts acc st).2.
Proof.
  revert acc st. induction starts as [|i starts IH]; intros acc st.
  - apply quiet_refl.
  - rewrite predictions_from_cons. unfold mbind, Py_bind.
    pose proof (get_predictions_quiet env
      (vids env (slice vehicles i (Nat.min (i + 10) (length vehicles)))) st) as H.
    destruct (get_predictions _ _ _) as [[new|e] st1]; simpl in H; [|done].
    eapply quiet_trans; [done|apply IH].
Qed.

Lemma get_predictions_for_vehicles_quiet env vehicles st :
  quiet st (get_predictions_for_vehicles env vehicles st).2.
Proof. unfold get_predictions_for_vehicles. apply predictions_from_quiet. Qed.

Section PredictionsSteps.
Import GatherPredictions PredictionsFacts.
Variable env : Env.

Lemma predictions_save_run st :
  save env st
  = ((snapshots env (vehicles st) (predictions st)).1,
     log st (snapshots env (vehicles st) (predictions st)).2).
Proof.
  unfold save, snapshots. run_py. unfold log. simpl.
  destruct (drop_duplicates (DataFrame (prediction_row <$> _))) as [dfp|]; simpl; [|done].
  rewrite open_w_now by (by repeat constructor). simpl.
  destruct (drop_duplicates (DataFrame (vehicle_row <$> _))) as [dfv|]; simpl.
  - rewrite open_w_now by (by repeat constructor). simpl.
    by rewrite <- !app_assoc.
  - by rewrite <- !app_assoc.
Qed.

Lemma predictions_iteration_run every i st :
  iteration env every i st
  = match get_vehicles env ROUTE_ID st with
    | (Returns now, st1) =>
        match get_predictions_for_vehicles env now st1 with
        | (Returns new, st2) => rest_of_iteration env every i st2 now new
        | (Raises e, st2) => (Raises e, st2)
        end
    | (Raises e, st1) => (Raises e, st1)
    end.
Proof.
  unfold iteration. unfold mbind at 1, Py_bind.
  destruct (get_vehicles env ROUTE_ID st) as [[now|e] st1]; [|done].
  unfold mbind at 1, Py_bind.
  destruct (get_predictions_for_vehicles env now st1) as [[new|e] st2]; [|done].
  unfold rest_of_iteration. 
  unfold mbind at 1 2 3, Py_bind, extend_vehicles, extend_predictions.
  unfold gathered. simpl.
  case_decide.
  - rewrite predictions_save_run. simpl.
    destruct (snapshots env _ _) as [[[]|e] es]; simpl; [|done].
    unfold sleep, emit, log. simpl. by rewrite <- app_assoc.
  - done.
Qed.

End PredictionsSteps.

(** ** Runs of the loops *)

Lemma for_invariant {A} (I : State → Prop) (body : A → Py unit) l :
  (∀ x st, I st → I (body x st).2) → ∀ st, I st → I (for_ l body st).2.
Proof.
  intros Hbody. induction l as [|x l IH]; intros st Hst; [done|]. simpl.
  unfold mbind, Py_bind. specialize (Hbody x st Hst).
  destruct (body x st) as [[[]|e] st']; simpl in Hbody; [by apply IH|done].
Qed.

Lemma ordered_nil {A} (R : A → A → Prop) : ordered R [].
Proof. by intros i j x y _ ?. Qed.

Lemma ordered_snoc {A} (R : A → A → Prop) l y :
  ordered R l → Forall (λ x, R x y) l → ordered R (l ++ [y]).
Proof.
  intros Hl Hy i j x z Hij Hi Hj.
  destruct (decide (j < length l)) as [Hlt|Hge].
  - rewrite lookup_app_l in Hi, Hj by lia. by apply (Hl i j).
  - rewrite lookup_app_r in Hj by lia.
    destruct (j - length l) as [|k] eqn:E; simpl in Hj; [|done].
    injection Hj as <-. rewrite lookup_app_l in Hi by lia.
    rewrite Forall_forall in Hy. apply Hy. by eapply list_elem_of_lookup_2.
Qed.

Lemma snapshot_of_whole {A} (row : A → Row) buf df :
  drop_duplicates (DataFrame (row <$> buf)) = Returns df → snapshot_of row buf df.
Proof. intros H. exists buf, []. by rewrite app_nil_r. Qed.

Lemma snapshot_of_more {A} (row : A → Row) buf more df :
  snapshot_of row buf df → snapshot_of row (buf ++ more) df.
Proof.
  intros (l1 & l2 & -> & H). exists l1, (l2 ++ more). by rewrite app_assoc.
Qed.

Lemma snapshot_of_prefix {A} (row : A → Row) buf df df' :
  uniform (row <$> buf) →
  snapshot_of row buf df →
  drop_duplicates (DataFrame (row <$> buf)) = Returns df' → df `prefix_of` df'.
Proof.
  intros Hu (l1 & l2 & -> & H) H'. rewrite fmap_app in Hu, H'.
  rewrite DataFrame_app in H' by done.
  apply drop_duplicates_app in H' as (df1 & H1 & Hpre). congruence.
Qed.

Lemma uniform_more {A} (row : A → Row) buf more :
  uniform (row <$> buf ++ more) → uniform (row <$> buf).
Proof. rewrite fmap_app. apply uniform_app. Qed.

Section BusUpdatesRuns.
Import GatherBusUpdates BusUpdatesFacts.

Variable env : Env.

Lemma snapshot_content vs path df :
  snapshot vs = Returns (path, df) →
  drop_duplicates (DataFrame (vehicle_row <$> vs)) = Returns df.
Proof.
  unfold snapshot, mbind, result_bind. intros H.
  destruct (first vs) as [oldest|]; [|done].
  destruct (replace (Vehicle.timestamp oldest) " " "@"); [|done].
  destruct (last vs) as [newest|]; [|done].
  destruct (replace (Vehicle.timestamp newest) " " "@"); [|done].
  destruct (drop_duplicates _); [|done]. cbv zeta in H.
  destruct (open_w _); [|done]. by injection H as _ <-.
Qed.

Lemma bus_updates_run_refl st0 : bus_updates_run st0 st0.
Proof.
  split; [done|]. exists []. rewrite app_nil_r. split_and!; [done|constructor|].
  intros _. apply ordered_nil.
Qed.

Lemma bus_updates_run_call st0 st a d es' :
  written es' = [] →
  bus_updates_run st0 st → bus_updates_run st0 (after_call st a d es').
Proof.
  intros Hw (Hpre & es & Ht & Hsnap & Hord). split; [done|]. simpl.
  exists (es ++ es'). by rewrite Ht, app_assoc, written_app, Hw, app_nil_r.
Qed.

Lemma bus_updates_run_gather st0 st now :
  bus_updates_run st0 st → bus_updates_run st0 (gathered st now []).
Proof.
  intros (Hpre & es & Ht & Hsnap & Hord). split; simpl.
  - by apply prefix_app_r.
  - exists es. split_and!; [done| |].
    + eapply Forall_impl; [done|]. intros w. apply snapshot_of_more.
    + intros Hu%uniform_more. by apply Hord.
Qed.

Lemma bus_updates_run_log st0 st es' :
  written es' = [] → bus_updates_run st0 st → bus_updates_run st0 (log st es').
Proof.
  intros Hw (Hpre & es & Ht & Hsnap & Hord). split; [done|]. simpl.
  exists (es ++ es'). by rewrite Ht, app_assoc, written_app, Hw, app_nil_r.
Qed.

Lemma bus_updates_run_save st0 st path df es1 es2 :
  written es1 = [] → written es2 = [] →
  drop_duplicates (DataFrame (vehicle_row <$> vehicles st)) = Returns df →
  bus_updates_run st0 st →
  bus_updates_run st0 (log st (es1 ++ ToCsv path df :: es2)).
Proof.
  intros Hw1 Hw2 Hdf (Hpre & es & Ht & Hsnap & Hord). split; [done|]. simpl.
  exists (es ++ es1 ++ ToCsv path df :: es2).
  rewrite Ht, <- app_assoc, !written_app, Hw1. simpl. rewrite Hw2.
  split_and!; [done| |].
  - apply Forall_app. split; [done|]. constructor; [|constructor].
    by apply snapshot_of_whole.
  - intros Hu. apply ordered_snoc; [by apply Hord|].
    eapply Forall_impl; [done|]. intros w Hwsnap. unfold later_extends.
    by apply (snapshot_of_prefix vehicle_row (vehicles st)).
Qed.

Lemma bus_updates_run_iteration st0 every i st :
  bus_updates_run st0 st → bus_updates_run st0 (iteration env every i st).2.
Proof.
  intros Hrun. rewrite bus_updates_iteration_run.
  apply (bus_updates_run_call _ _ (fresh (dom (heap st)))
           (request_params env "rt" ROUTE_ID)
           (Get VEHICLES_URL (request_params env "rt" ROUTE_ID)
              :: (vehicles_in env (vehicles_reply env (CALLS_COUNT st) ROUTE_ID)).2))
    in Hrun; [|apply written_digest].
  destruct ((vehicles_in env _).1) as [now|e] eqn:E; simpl; [|done].
  unfold rest_of_iteration. apply (bus_updates_run_gather _ _ now) in Hrun.
  case_decide; [|by apply bus_updates_run_log].
  destruct (snapshot _) as [[path df]|e] eqn:Es; simpl.
  - apply (bus_updates_run_save _ _ path df [Print "Saving..."] [Sleep 3]);
      [done..| |done].
    by eapply snapshot_content.
  - by apply bus_updates_run_log.
Qed.

(** In every run of the loop of gather_bus_updates.py, finished or cut short
    by an exception, the list has only grown, and each file written extends
    every file written before it when every column of the list holds cells
    of one type. *)
Lemma bus_updates_files_grow n every st0 :
  let st := (loop env n every st0).2 in
  vehicles st0 `prefix_of` vehicles st ∧
  (uniform (vehicle_row <$> vehicles st) →
   ordered later_extends (written (since st0 st))).
Proof.
  intros st.
  assert (bus_updates_run st0 st) as (Hpre & es & Ht & _ & Hord).
  { subst st. unfold loop.
    apply (for_invariant (bus_updates_run st0)); [|apply bus_updates_run_refl].
    intros i st'. apply bus_updates_run_iteration. }
  split; [done|]. unfold since. by rewrite Ht, drop_app_length.
Qed.

End BusUpdatesRuns.

Lemma log_log st es1 es2 : log (log st es1) es2 = log st (es1 ++ es2).
Proof. unfold log. simpl. by rewrite app_assoc. Qed.

Section PredictionsRuns.
Import GatherPredictions PredictionsFacts.

Variable env : Env.

Lemma paths_differ : predictions_path env ≠ vehicles_path env.
Proof. unfold predictions_path, vehicles_path. intros H. discriminate H. Qed.

Lemma predictions_run_refl st0 : predictions_run env st0 st0.
Proof.
  split_and!; [done..|]. exists []. rewrite app_nil_r.
  split_and!; [done|constructor|]. intros _ _. apply ordered_nil.
Qed.

Lemma predictions_run_quiet st0 st st' :
  quiet st st' → predictions_run env st0 st → predictions_run env st0 st'.
Proof.
  intros (Hv & Hp & es' & Ht' & Hw) (Hpv & Hpp & es & Ht & Hfiles & Hord).
  split_and!; [by rewrite Hv|by rewrite Hp|].
  exists (es ++ es'). rewrite Ht', Ht, app_assoc, written_app, Hw, app_nil_r.
  split_and!; [done| |by rewrite Hv, Hp].
  eapply Forall_impl; [done|]. intros w. unfold file_of. by rewrite Hv, Hp.
Qed.

Lemma predictions_run_gather st0 st now new :
  predictions_run env st0 st → predictions_run env st0 (gathered st now new).
Proof.
  intros (Hpv & Hpp & es & Ht & Hfiles & Hord). split_and!; simpl.
  - by apply prefix_app_r.
  - by apply prefix_app_r.
  - exists es. split_and!; [done| |].
    + eapply Forall_impl; [done|]. intros w [[? ?]|[? ?]]; [left|right];
        (split; [done|by apply snapshot_of_more]).
    + intros Hv%uniform_more Hp%uniform_more. by apply Hord.
Qed.

Lemma predictions_run_log st0 st es' :
  written es' = [] → predictions_run env st0 st → predictions_run env st0 (log st es').
Proof.
  intros Hw. apply predictions_run_quiet. split_and!; [done..|]. by exists es'.
Qed.

Lemma predictions_run_write st0 st path df :
  (path = predictions_path env ∧
   drop_duplicates (DataFrame (prediction_row <$> predictions st)) = Returns df) ∨
  (path = vehicles_path env ∧
   drop_duplicates (DataFrame (vehicle_row <$> vehicles st)) = Returns df) →
  predictions_run env st0 st → predictions_run env st0 (log st [ToCsv path df]).
Proof.
  intros Hdf (Hpv & Hpp & es & Ht & Hfiles & Hord). split_and!; [done..|].
  simpl. exists (es ++ [ToCsv path df]). rewrite Ht, app_assoc, written_app.
  simpl. split_and!; [done| |].
  - apply Forall_app. split; [done|]. constructor; [|constructor].
    destruct Hdf as [[-> Hdf]|[-> Hdf]]; [left|right];
      (split; [done|by apply snapshot_of_whole]).
  - intros Huv Hup. apply ordered_snoc; [by apply Hord|].
    eapply Forall_impl; [done|]. intros w Hw Hpath. simpl in *.
    pose proof paths_differ as Hne.
    destruct Hw as [[Hw1 Hw2]|[Hw1 Hw2]], Hdf as [[-> Hdf]|[-> Hdf]];
      try congruence.
    + by apply (snapshot_of_prefix prediction_row (predictions st)).
    + by apply (snapshot_of_prefix vehicle_row (vehicles st)).
Qed.

Lemma predictions_run_save st0 st :
  predictions_run env st0 st →
  predictions_run env st0 (log st (snapshots env (vehicles st) (predictions st)).2).
Proof.
  intros Hrun. unfold snapshots.
  destruct (drop_duplicates (DataFrame (prediction_row <$> _))) as [dfp|] eqn:Ep;
    simpl; [|by apply predictions_run_log].
  apply (predictions_run_log _ _ [Print "Saving..."]) in Hrun; [|done].
  apply (predictions_run_write _ _ (predictions_path env) dfp) in Hrun;
    [|by left].
  rewrite log_log in Hrun.
  destruct (drop_duplicates (DataFrame (vehicle_row <$> _))) as [dfv|] eqn:Ev;
    simpl; [|done].
  apply (predictions_run_write _ _ (vehicles_path env) dfv) in Hrun;
    [|by right].
  by rewrite log_log in Hrun.
Qed.

Lemma predictions_run_iteration st0 every i st :
  predictions_run env st0 st → predictions_run env st0 (iteration env every i st).2.
Proof.
  intros Hrun. rewrite predictions_iteration_run.
  pose proof (get_vehicles_quiet env ROUTE_ID st) as Hq1.
  destruct (get_vehicles env ROUTE_ID st) as [[now|e] st1]; simpl in Hq1;
    [|by eapply predictions_run_quiet].
  apply (predictions_run_quiet _ _ _ Hq1) in Hrun.
  pose proof (get_predictions_for_vehicles_quiet env now st1) as Hq2.
  destruct (get_predictions_for_vehicles env now st1) as [[new|e] st2];
    simpl in Hq2; [|by eapply predictions_run_quiet].
  apply (predictions_run_quiet _ _ _ Hq2) in Hrun.
  apply (predictions_run_gather _ _ now new) in Hrun.
  unfold rest_of_iteration. case_decide; [|by apply predictions_run_log].
  apply predictions_run_save in Hrun.
  destruct (snapshots _ _ _) as [[[]|e] es]; simpl in *; [|done].
  rewrite <- log_log. by apply predictions_run_log.
Qed.

(** In every run of the loop of gather_predictions.py, finished or cut
    short by an exception, the two lists have only grown, and each file
    written extends every file of its name written before it when every
    column of the two lists holds cells of one type. *)
Lemma predictions_files_grow n every st0 :
  let st := (loop env n every st0).2 in
  vehicles st0 `prefix_of` vehicles st ∧
  predictions st0 `prefix_of` predictions st ∧
  (uniform (vehicle_row <$> vehicles st) →
   uniform (prediction_row <$> predictions st) →
   ordered same_path_extends (written (since st0 st))) ∧
  Forall (λ w, w.1 = predictions_path env ∨ w.1 = vehicles_path env)
    (written (since st0 st)).
Proof.
  intros st.
  assert (predictions_run env st0 st) as (Hpv & Hpp & es & Ht & Hfiles & Hord).
  { subst st. unfold loop.
    apply (for_invariant (predictions_run env st0)); [|apply predictions_run_refl].
    intros i st'. apply predictions_run_iteration. }
  split_and!; [done..| |]; unfold since; rewrite Ht, drop_app_length; [done|].
  eapply Forall_impl; [done|]. intros w [[? _]|[? _]]; tauto.
Qed.

End PredictionsRuns.

(** ** What a flush writes *)

Lemma comprehension_returns {A B} (f : A → result B) l :
  Forall (λ x, ∃ y, f x = Returns y) l → ∃ ys, comprehension f l = Returns ys.
Proof.
  induction 1 as [|x l [y Hy] _ [ys IH]]; [by exists []|].
  exists (y :: ys). simpl. by rewrite Hy, IH.
Qed.

Lemma hash_astype d v : scalar v → ∃ k, hash (astype d v) = Returns k.
Proof. intros H. destruct d, v; try done; by eexists. Qed.

Lemma hash_row_returns records r :
  scalar_row r → ∃ k, hash_row (stored_in records r) = Returns k.
Proof.
  intros H. apply comprehension_returns. unfold stored_in.
  apply Forall_fmap. eapply Forall_impl; [exact H|]. intros [c v] Hv. simpl in *.
  destruct (hash_astype (infer (column records c)) v Hv) as [k ->]. by eexists.
Qed.

Lemma drop_duplicates_returns records :
  Forall scalar_row records → ∃ df, drop_duplicates (DataFrame records) = Returns df.
Proof.
  intros H. unfold drop_duplicates.
  destruct (comprehension_returns keyed (DataFrame records)) as [rows Hrows].
  { apply Forall_forall. intros [i x] Hin.
    assert (x ∈ (DataFrame records).*2) as Hx
      by (apply list_elem_of_fmap; by exists (i, x)).
    rewrite DataFrame_rows in Hx. apply list_elem_of_fmap in Hx as (r & -> & Hr).
    rewrite Forall_forall in H.
    destruct (hash_row_returns records r (H _ Hr)) as [k Hk].
    exists (k, (i, stored_in records r)). unfold keyed. simpl. by rewrite Hk. }
  rewrite Hrows. by eexists.
Qed.

(** What drop_duplicates keeps: rows of the frame in their order, one for
    every row of the frame that is equal to it in every column, and no two
    that are equal in every column. *)
Lemma drop_duplicates_keeps df df' :
  drop_duplicates df = Returns df' →
  df' `sublist_of` df ∧
  (∀ r, r ∈ df → ∃ r', r' ∈ df' ∧ hash_row r'.2 = hash_row r.2) ∧
  (∀ i j r r', i < j → df' !! i = Some r → df' !! j = Some r' →
               hash_row r.2 ≠ hash_row r'.2).
Proof.
  unfold drop_duplicates, mbind, result_bind.
  destruct (comprehension keyed df) as [rows|] eqn:E; [|done].
  intros [= <-]. apply keyed_rows in E as [<- Hrows].
  rewrite keep_first_keyed. rewrite Forall_forall in Hrows.
  assert (∀ kr, kr ∈ keep_keyed [] rows → hash_row kr.2.2 = Returns kr.1) as Hkept.
  { intros kr Hin. eapply elem_of_sublist in Hin; [|apply keep_keyed_sublist].
    apply Hrows in Hin. unfold keyed in Hin.
    destruct (hash_row kr.2.2); [|done]. simpl in Hin. by injection Hin as <-. }
  split_and!.
  - apply fmap_sublist, keep_keyed_sublist.
  - intros r Hr. apply list_elem_of_fmap in Hr as ([k r0] & -> & Hin).
    destruct (keep_keyed_complete [] rows k) as [Hs|Hs].
    { apply list_elem_of_fmap. by exists (k, r0). }
    { by apply elem_of_nil in Hs. }
    apply list_elem_of_fmap in Hs as ([k' r'] & -> & Hin').
    exists r'. split; [apply list_elem_of_fmap; by exists (k', r')|].
    pose proof (Hkept _ Hin') as Hk'. simpl in Hk' |- *. rewrite Hk'.
    apply Hrows in Hin. unfold keyed in Hin. simpl in Hin.
    destruct (hash_row r0.2); [|done]. simpl in Hin. by injection Hin as <-.
  - intros i j r r' Hij Hi Hj Heq.
    apply list_lookup_fmap_Some_1 in Hi as ([k r1] & -> & Ei).
    apply list_lookup_fmap_Some_1 in Hj as ([k' r1'] & -> & Ej).
    pose proof (Hkept (k, r1) (list_elem_of_lookup_2 _ _ _ Ei)) as Hk.
    pose proof (Hkept (k', r1') (list_elem_of_lookup_2 _ _ _ Ej)) as Hk'.
    simpl in Hk, Hk', Heq. assert (k = k') as -> by congruence.
    pose proof (keep_keyed_NoDup [] rows) as Hnd.
    assert (i = j); [|lia].
    eapply NoDup_lookup; [exact Hnd| |]; rewrite list_lookup_fmap.
    + by rewrite Ei.
    + by rewrite Ej.
Qed.

Lemma prefix_subseteq {A} (l1 l2 : list A) : l1 `prefix_of` l2 → l1 ⊆ l2.
Proof. intros [k ->] x Hx. apply elem_of_app. by left. Qed.

Lemma last_returns {A} (l : list A) : l ≠ [] → ∃ x, last l = Returns x ∧ x ∈ l.
Proof.
  intros H. unfold last. destruct (list.last l) as [x|] eqn:E.
  - exists x. split; [done|]. rewrite last_lookup in E.
    by eapply list_elem_of_lookup_2.
  - by apply last_None in E.
Qed.

Lemma hash_stored_inj x y k :
  type_name x = type_name y →
  hash (stored x) = Returns k → hash (stored y) = Returns k → x = y.
Proof.
  destruct x as [|b|n|s|l|kvs], y as [|b'|n'|s'|l'|kvs']; try done;
    unfold stored; simpl; intros _ [= <-] [= H]; try congruence.
  by destruct b, b'.
Qed.

Lemma hash_row_stored_inj r r' k :
  types r = types r' →
  hash_row (stored_row r) = Returns k → hash_row (stored_row r') = Returns k →
  r = r'.
Proof.
  revert r' k. induction r as [|[c v] r IH]; intros [|[c' v'] r'] k Ht; try done.
  injection Ht as <- Hv Ht. unfold hash_row, stored_row. rewrite !fmap_cons.
  cbn [comprehension fst snd]. unfold mbind at 1 2 4 5, result_bind.
  destruct (hash (stored v)) as [kv|] eqn:Ev; [|done].
  destruct (comprehension _ (_ <$> r)) as [kr|] eqn:Er; [|done].
  intros [= <-].
  destruct (hash (stored v')) as [kv'|] eqn:Ev'; [|done].
  destruct (comprehension _ (_ <$> r')) as [kr'|] eqn:Er'; [|done].
  intros [= -> ->]. f_equal.
  - f_equal. by eapply hash_stored_inj.
  - by eapply IH.
Qed.

Lemma keep_keyed_first {K R} `{EqDecision K} (seen : list K) (l : list (K * R)) k r :
  (k, r) ∈ keep_keyed seen l →
  ∃ l1 l2, l = l1 ++ (k, r) :: l2 ∧ (k ∉ seen) ∧ (k ∉ l1.*1).
Proof.
  revert seen. induction l as [|[k0 r0] l IH]; intros seen; simpl.
  - by intros ?%elem_of_nil.
  - case_decide as Hseen.
    + intros (l1 & l2 & -> & Hk & Hl1)%IH. exists ((k0, r0) :: l1), l2.
      split_and!; [done..|]. rewrite fmap_cons. apply not_elem_of_cons.
      split; [|done]. simpl. congruence.
    + intros [[= -> ->]|Hin]%elem_of_cons.
      * exists [], l. split_and!; [done..|]. apply not_elem_of_nil.
      * apply IH in Hin as (l1 & l2 & -> & Hk & Hl1).
        apply not_elem_of_cons in Hk as [Hk0 Hk].
        exists ((k0, r0) :: l1), l2. split_and!; [done..|].
        rewrite fmap_cons. by apply not_elem_of_cons.
Qed.

Lemma keep_keyed_head {K R} `{EqDecision K} (l1 l2 : list (K * R)) k r :
  k ∉ l1.*1 → (k, r) ∈ keep_keyed [] (l1 ++ (k, r) :: l2).
Proof.
  intros Hk. rewrite keep_keyed_app. apply elem_of_app. right. simpl.
  rewrite decide_False by (by rewrite app_nil_r). by left.
Qed.

Lemma DataFrame_lookup {A} n (rows : list A) p i r :
  length rows = n →
  zip (seq 0 n) rows !! p = Some (i, r) ↔ i = p ∧ rows !! p = Some r.
Proof.
  intros <-. split.
  - intros Hp. apply lookup_zip_with_Some in Hp as (i' & r' & [= <- <-] & Hi & Hr).
    apply lookup_seq in Hi as [-> _]. done.
  - intros [-> Hr]. apply lookup_zip_with_Some. exists p, r.
    split_and!; [done| |done]. apply lookup_seq. split; [done|].
    by eapply lookup_lt_Some.
Qed.

(** The rows of a frame of records whose columns are of one type each, with
    their keys. *)
Lemma keyed_uniform_lookup records krs :
  comprehension keyed (zip (seq 0 (length records)) (stored_row <$> records))
  = Returns krs →
  ∀ p k i x,
    krs !! p = Some (k, (i, x)) ↔
    i = p ∧ hash_row x = Returns k ∧ ∃ r, records !! p = Some r ∧ x = stored_row r.
Proof.
  intros H%comprehension_Forall2 p k i x. split.
  - intros Hp. destruct (Forall2_lookup_r _ _ _ _ _ H Hp) as ([i' x'] & Hz & Hk).
    apply DataFrame_lookup in Hz as [-> Hx]; [|by rewrite length_fmap].
    unfold keyed in Hk. simpl in Hk. destruct (hash_row x') as [k'|] eqn:E; [|done].
    simpl in Hk. injection Hk as -> -> ->. split_and!; [done..|].
    apply list_lookup_fmap_Some_1 in Hx as (r & -> & Hr). by exists r.
  - intros (-> & Hk & r & Hr & ->).
    assert (zip (seq 0 (length records)) (stored_row <$> records) !! p
            = Some (p, stored_row r)) as Hz.
    { apply DataFrame_lookup; [by rewrite length_fmap|]. split; [done|].
      by rewrite list_lookup_fmap, Hr. }
    destruct (Forall2_lookup_l _ _ _ _ _ H Hz) as (kr & Hp & Hkr).
    unfold keyed in Hkr. simpl in Hkr. rewrite Hk in Hkr. simpl in Hkr.
    by injection Hkr as <-.
Qed.

(** What drop_duplicates keeps of records whose columns are of one type
    each: the records that no earlier record equals in every field, each
    under its position in the list. *)
Lemma drop_duplicates_uniform records df :
  uniform records → drop_duplicates (DataFrame records) = Returns df →
  ∀ i x, (i, x) ∈ df ↔ ∃ r, first_occurrences records i r ∧ x = stored_row r.
Proof.
  intros Hu. rewrite DataFrame_uniform by done.
  unfold drop_duplicates, mbind, result_bind.
  destruct (comprehension keyed _) as [krs|] eqn:E; [|done].
  intros [= <-] i x. pose proof (keyed_uniform_lookup _ _ E) as Hkrs.
  rewrite keep_first_keyed. split.
  - intros ([k [i' x']] & [= <- <-] & Hin)%list_elem_of_fmap.
    apply keep_keyed_first in Hin as (l1 & l2 & Hl & _ & Hl1).
    assert (krs !! length l1 = Some (k, (i, x))) as Hp
      by (rewrite Hl; by apply list_lookup_middle).
    apply Hkrs in Hp as (-> & Hk & r & Hr & ->). exists r. split; [|done].
    split; [done|]. intros j Hj Hrj.
    assert (krs !! j = Some (k, (j, stored_row r))) as Hpj.
    { apply Hkrs. split_and!; [done..|]. by exists r. }
    rewrite Hl, lookup_app_l in Hpj by done.
    apply Hl1. apply list_elem_of_fmap. exists (k, (j, stored_row r)).
    split; [done|]. by eapply list_elem_of_lookup_2.
  - intros (r & [Hr Hfirst] & ->).
    assert (∃ k, hash_row (stored_row r) = Returns k) as [k Hk].
    { assert (is_Some (krs !! i)) as [[k [i' x']] Hp].
      { apply lookup_lt_is_Some. apply comprehension_Forall2 in E.
        rewrite <- (Forall2_length _ _ _ E), length_zip_with, length_seq, length_fmap.
        apply lookup_lt_Some in Hr. lia. }
      pose proof Hp as (-> & Hk & r' & Hr' & ->)%Hkrs. exists k.
      by assert (r' = r) as -> by congruence. }
    assert (krs !! i = Some (k, (i, stored_row r))) as Hp.
    { apply Hkrs. split_and!; [done..|]. by exists r. }
    apply list_elem_of_fmap. exists (k, (i, stored_row r)). split; [done|].
    rewrite <- (take_drop_middle _ _ _ Hp). apply keep_keyed_head.
    intros ([k' [j x']] & Hkk & Hin)%list_elem_of_fmap. simpl in Hkk. subst k'.
    apply list_elem_of_lookup in Hin as [q Hq].
    pose proof (lookup_lt_Some _ _ _ Hq) as Hlt. rewrite length_take in Hlt.
    rewrite lookup_take_lt in Hq by lia.
    apply Hkrs in Hq as (-> & Hk' & r' & Hr' & ->).
    apply (Hfirst q); [lia|]. rewrite Hr'. f_equal.
    destruct Hu as (ts & _ & Hts). rewrite Forall_forall in Hts.
    eapply hash_row_stored_inj; [|done..].
    rewrite (Hts r'), (Hts r); [done|by eapply list_elem_of_lookup_2..].
Qed.

Lemma drop_duplicates_labels records df :
  drop_duplicates (DataFrame records) = Returns df →
  df.*1 `sublist_of` seq 0 (length records).
Proof.
  intros [H _]%drop_duplicates_keeps. rewrite <- DataFrame_labels.
  by apply fmap_sublist.
Qed.

Lemma str_replace_in_name old new s :
  in_name new → Forall in_name (chars s) →
  Forall in_name (chars (str_replace old new s)).
Proof.
  intros Hn. induction s as [|c s IH]; [done|]. simpl.
  intros [Hc Hs]%Forall_cons. constructor; [by case_decide|by apply IH].
Qed.

Lemma bus_updates_snapshot_returns vs oldest newest :
  first vs = Returns oldest → last vs = Returns newest →
  names_a_file (Vehicle.timestamp oldest) →
  names_a_file (Vehicle.timestamp newest) →
  Forall scalar_row (vehicle_row <$> vs) →
  ∃ path df, BusUpdatesFacts.snapshot vs = Returns (path, df).
Proof.
  intros Ho Hn (s1 & E1 & Hs1 & _) (s2 & E2 & Hs2 & _) Hrows.
  unfold BusUpdatesFacts.snapshot. rewrite Ho. cbn [mbind result_bind].
  rewrite E1. cbn [replace mbind result_bind]. rewrite Hn.
  cbn [mbind result_bind]. rewrite E2. cbn [replace mbind result_bind].
  destruct (drop_duplicates_returns _ Hrows) as [df ->]. cbn [mbind result_bind].
  rewrite (proj1 (open_w_returns _)); [by eexists _, _|].
  rewrite !chars_app, !Forall_app.
  split_and!; [by repeat constructor|by apply str_replace_in_name
              |by repeat constructor|by apply str_replace_in_name
              |by repeat constructor].
Qed.

Section Flushes.
Variable env : Env.

Lemma predictions_save_writes st :
  let st' := (GatherPredictions.save env st).2 in
  vehicles st' = vehicles st ∧ predictions st' = predictions st ∧
  Forall (λ w,
    (w.1 = PredictionsFacts.predictions_path env ∧
     drop_duplicates (DataFrame (prediction_row <$> predictions st)) = Returns w.2) ∨
    (w.1 = PredictionsFacts.vehicles_path env ∧
     drop_duplicates (DataFrame (vehicle_row <$> vehicles st)) = Returns w.2))
    (written (since st st')) ∧
  (Forall scalar_row (prediction_row <$> predictions st) →
   Forall scalar_row (vehicle_row <$> vehicles st) →
   (GatherPredictions.save env st).1 = Returns () ∧
   (written (since st st')).*1
   = [PredictionsFacts.predictions_path env; PredictionsFacts.vehicles_path env]).
Proof.
  intros st'. subst st'. rewrite predictions_save_run. simpl.
  rewrite since_log. unfold PredictionsFacts.snapshots. split_and!; [done..| |].
  - destruct (drop_duplicates (DataFrame (prediction_row <$> _))) as [dfp|] eqn:Ep;
      simpl; [|constructor].
    destruct (drop_duplicates (DataFrame (vehicle_row <$> _))) as [dfv|] eqn:Ev;
      simpl.
    + constructor; [by left|]. constructor; [by right|constructor].
    + constructor; [by left|constructor].
  - intros Hp Hv.
    destruct (drop_duplicates_returns _ Hp) as [dfp ->].
    destruct (drop_duplicates_returns _ Hv) as [dfv ->].
    done.
Qed.

Lemma bus_updates_save_writes st :
  let st' := (GatherBusUpdates.save st).2 in
  vehicles st' = vehicles st ∧
  Forall (λ w, drop_duplicates (DataFrame (vehicle_row <$> vehicles st)) = Returns w.2)
    (written (since st st')) ∧
  (∀ oldest newest,
     first (vehicles st) = Returns oldest → last (vehicles st) = Returns newest →
     names_a_file (Vehicle.timestamp oldest) →
     names_a_file (Vehicle.timestamp newest) →
     Forall scalar_row (vehicle_row <$> vehicles st) →
     (GatherBusUpdates.save st).1 = Returns () ∧
     length (written (since st st')) = 1).
Proof.
  intros st'. subst st'. rewrite bus_updates_save_run. split_and!.
  - by destruct (BusUpdatesFacts.snapshot _) as [[path df]|].
  - destruct (BusUpdatesFacts.snapshot _) as [[path df]|] eqn:E; simpl;
      rewrite since_log; simpl; [|constructor].
    constructor; [|constructor]. by eapply snapshot_content.
  - intros oldest newest Ho Hn Hto Htn Hrows.
    destruct (bus_updates_snapshot_returns _ _ _ Ho Hn Hto Htn Hrows)
      as (path & df & ->).
    simpl. by rewrite since_log.
Qed.


End Flushes.


(** ** Flushing twice *)

Section FlushTwice.
Variable env : Env.

(** C7.  Dropping the duplicates of a frame whose duplicates were dropped
    gives the frame back.  And a save block that runs again with no record
    gathered in between does again what it did: it ends the same way and
    writes the same names with the same contents (two files in
    gather_predictions.py, one in gather_bus_updates.py, when it returns). *)
Theorem second_flush_writes_the_same :
  (∀ df df', drop_duplicates df = Returns df' → drop_duplicates df' = Returns df') ∧
  (∀ st,
     let st1 := (GatherPredictions.save env st).2 in
     let st2 := (GatherPredictions.save env st1).2 in
     (GatherPredictions.save env st1).1 = (GatherPredictions.save env st).1 ∧
     written (since st1 st2) = written (since st st1) ∧
     ((GatherPredictions.save env st).1 = Returns () →
      length (written (since st st1)) = 2)) ∧
  (∀ st,
     let st1 := (GatherBusUpdates.save st).2 in
     let st2 := (GatherBusUpdates.save st1).2 in
     (GatherBusUpdates.save st1).1 = (GatherBusUpdates.save st).1 ∧
     written (since st1 st2) = written (since st st1) ∧
     ((GatherBusUpdates.save st).1 = Returns () →
      length (written (since st st1)) = 1)).
Proof.
  split_and!.
  - apply drop_duplicates_idemp.
  - intros st st1 st2. subst st2 st1.
    rewrite !predictions_save_run. simpl. rewrite !since_log.
    split_and!; [done..|].
    unfold PredictionsFacts.snapshots.
    destruct (drop_duplicates (DataFrame (prediction_row <$> _))); [|done].
    by destruct (drop_duplicates (DataFrame (vehicle_row <$> _))).
  - intros st st1 st2. subst st2 st1.
    rewrite (bus_updates_save_run st).
    destruct (BusUpdatesFacts.snapshot (vehicles st)) as [[path df]|] eqn:E.
    + rewrite bus_updates_save_run. simpl. rewrite E. simpl.
      by rewrite !since_log.
    + rewrite bus_updates_save_run. simpl. rewrite E. simpl.
      by rewrite !since_log.
Qed.

End FlushTwice.

(** ** A flush with no vehicle (gather_bus_updates.py) *)

Lemma for_singleton {A} (body : A → Py unit) x st : for_ [x] body st = body x st.
Proof.
  simpl. unfold mbind, Py_bind, mret, Py_ret.
  by destruct (body x st) as [[[]|e] st'].
Qed.

Lemma drop_duplicates_raises df e : drop_duplicates df = Raises e → e = TypeError.
Proof.
  unfold drop_duplicates, mbind, result_bind.
  destruct (comprehension keyed df) as [rows|e'] eqn:E; [done|].
  intros [= <-]. induction df as [|r df IH]; [done|]. simpl in E.
  unfold mbind, result_bind in E.
  destruct (keyed r) as [kr|e''] eqn:Er.
  - destruct (comprehension keyed df); [done|]. injection E as <-. by apply IH.
  - injection E as <-. unfold keyed, hash_row in Er.
    unfold mbind, result_bind in Er.
    destruct (comprehension _ r.2) as [k|e3] eqn:Ek; [done|]. injection Er as <-.
    clear -Ek. induction (r.2) as [|[c v] cells IH]; [done|]. simpl in Ek.
    unfold mbind, result_bind in Ek.
    destruct (hash v) as [cv|e4] eqn:Ev; simpl in Ek.
    + destruct (comprehension _ cells); [done|]. injection Ek as <-. by apply IH.
    + injection Ek as <-. destruct v as [| | | |[]]; simpl in Ev; congruence.
Qed.

Section NoVehicles.
Import GatherBusUpdates BusUpdatesFacts.

Variable env : Env.

Lemma save_IndexError st : (save st).1 = Raises IndexError ↔ vehicles st = [].
Proof.
  rewrite bus_updates_save_run. split.
  - destruct (snapshot (vehicles st)) as [[path df]|e] eqn:E; simpl; [done|].
    intros [= ->]. destruct (vehicles st) as [|oldest vs] eqn:Ev; [done|].
    exfalso. unfold snapshot in E. simpl in E.
    destruct (replace (Vehicle.timestamp oldest) " " "@") as [from_date|e] eqn:Ef;
      simpl in E; [|destruct (Vehicle.timestamp oldest); simpl in Ef; congruence].
    destruct (last_returns (oldest :: vs)) as (newest & Hn & _); [done|].
    rewrite Hn in E. simpl in E.
    destruct (replace (Vehicle.timestamp newest) " " "@") as [to_date|e] eqn:Et;
      simpl in E; [|destruct (Vehicle.timestamp newest); simpl in Et; congruence].
    destruct (drop_duplicates _) as [df|e] eqn:Ed; simpl in E.
    + unfold open_w in E. repeat case_decide; simpl in E; congruence.
    + apply drop_duplicates_raises in Ed. congruence.
  - intros ->. done.
Qed.

(** The state after [m] iterations in which the server had no vehicle, none
    of them one that saves. *)
Lemma loop_without_vehicles every m st :
  vehicles st = [] → m < every →
  (∀ k, k < m →
     (vehicles_in env (vehicles_reply env (CALLS_COUNT st + k) ROUTE_ID)).1
     = Returns []) →
  ∃ st' es, loop env m every st = (Returns (), st') ∧ vehicles st' = [] ∧
            CALLS_COUNT st' = CALLS_COUNT st + m ∧
            trace st' = trace st ++ es ∧ written es = [].
Proof.
  intros Hv. induction m as [|m IH]; intros Hm Hreply.
  - exists st, []. rewrite app_nil_r. split_and!; [done..|lia|done|done].
  - destruct IH as (st' & es & Hrun & Hv' & Hc & Ht & Hw);
      [lia|intros k Hk; apply Hreply; lia|].
    unfold loop in *. rewrite seq_S, for_app, Hrun, for_singleton. simpl.
    rewrite bus_updates_iteration_run. rewrite Hc, Hreply by lia.
    unfold rest_of_iteration.
    rewrite decide_False by (rewrite Nat.mod_small; lia).
    eexists _, _. split; [done|]. simpl. rewrite Hv', Ht, <- !app_assoc.
    split_and!; [done|lia|done|].
    rewrite !written_app, Hw, written_Get. unfold vehicles_in.
    by rewrite written_digest.
Qed.

(** An iteration that saves, with no vehicle in the list and none found. *)
Lemma iteration_saves_nothing every i st :
  (i + 1) `mod` every = 0 → vehicles st = [] →
  (vehicles_in env (vehicles_reply env (CALLS_COUNT st) ROUTE_ID)).1 = Returns [] →
  ∃ st', iteration env every i st = (Raises IndexError, st') ∧
         CALLS_COUNT st' = S (CALLS_COUNT st) ∧ vehicles st' = [] ∧
         ∃ es, trace st' = trace st ++ es ∧ written es = [].
Proof.
  intros Hdue Hv Hreply. rewrite bus_updates_iteration_run, Hreply.
  unfold rest_of_iteration. rewrite decide_True by done. simpl. rewrite Hv.
  simpl. eexists. split; [done|]. simpl. rewrite Hv. split_and!; [done..|].
  rewrite <- app_assoc. eexists. split; [done|].
  rewrite written_app, written_Get. unfold vehicles_in.
  by rewrite written_digest.
Qed.

(** When the list is empty at the start and the server has no vehicle in
    any of the first [every] iterations, the first save ends the run. *)
Lemma loop_aborts_without_vehicles n every st :
  0 < every ≤ n → vehicles st = [] →
  (∀ k, k < every →
     (vehicles_in env (vehicles_reply env (CALLS_COUNT st + k) ROUTE_ID)).1
     = Returns []) →
  (loop env n every st).1 = Raises IndexError ∧
  CALLS_COUNT (loop env n every st).2 = CALLS_COUNT st + every ∧
  written (since st (loop env n every st).2) = [] ∧
  vehicles (loop env n every st).2 = [].
Proof.
  intros Hn Hv Hreply.
  destruct (loop_without_vehicles every (every - 1) st)
    as (st' & es & Hrun & Hv' & Hc & Ht & Hw); [done|lia|intros; apply Hreply; lia|].
  destruct (iteration_saves_nothing every (0 + (every - 1)) st')
    as (st'' & Hit & Hc' & Hv'' & es' & Ht' & Hw').
  { replace (0 + (every - 1) + 1) with every by lia. apply Nat.Div0.mod_same. }
  { done. }
  { rewrite Hc. apply Hreply. lia. }
  unfold loop in *.
  replace n with ((every - 1) + 1 + (n - every)) by lia.
  rewrite !seq_app, !for_app, Hrun.
  change (seq (0 + (every - 1)) 1) with [0 + (every - 1)].
  rewrite for_singleton, Hit. cbn [fst snd].
  split_and!; [done|lia| |done].
  unfold since. by rewrite Ht', Ht, <- app_assoc, drop_app_length, written_app, Hw, Hw'.
Qed.

(** C9.  The save block of gather_bus_updates.py raises IndexError exactly
    when the list of vehicles is empty.  So when the list is empty at the
    start and no iteration up to the first that saves finds a vehicle, that
    iteration raises IndexError: the run ends there, after [every] calls,
    with no file written. *)
Theorem save_without_vehicles_raises_IndexError :
  (∀ st, (save st).1 = Raises IndexError ↔ vehicles st = []) ∧
  (∀ n every st,
     0 < every ≤ n → vehicles st = [] →
     (∀ k, k < every →
        (vehicles_in env (vehicles_reply env (CALLS_COUNT st + k) ROUTE_ID)).1
        = Returns []) →
     (loop env n every st).1 = Raises IndexError ∧
     CALLS_COUNT (loop env n every st).2 = CALLS_COUNT st + every ∧
     written (since st (loop env n every st).2) = []).
Proof.
  split; [apply save_IndexError|].
  intros n every st Hn Hv Hreply.
  destruct (loop_aborts_without_vehicles n every st) as (? & ? & ? & _); done.
Qed.

End NoVehicles.

Lemma save_without_vehicles_raises_IndexError_witness :
  (GatherBusUpdates.loop down GatherBusUpdates.number_iterations 600 initial).1
  = Raises IndexError ∧
  CALLS_COUNT (GatherBusUpdates.loop down GatherBusUpdates.number_iterations
                 600 initial).2 = 0 + 600 ∧
  written (since initial
             (GatherBusUpdates.loop down GatherBusUpdates.number_iterations
                600 initial).2) = [].
Proof.
  apply (save_without_vehicles_raises_IndexError down).
  - unfold GatherBusUpdates.number_iterations. lia.
  - reflexivity.
  - intros k _. reflexivity.
Defined.

(** ** A run in which every call fails (gather_bus_updates.py) *)

(** C6, where the code departs from it: with a server that answers 500 to
    every request, get_vehicles returns an empty list each time and each
    call is counted, but the six hundredth iteration does not reach its
    sleep: its save block raises IndexError and the script ends. *)
Lemma failed_calls_end_bus_updates :
  (get_vehicles down GatherBusUpdates.ROUTE_ID initial).1 = Returns [] ∧
  CALLS_COUNT (get_vehicles down GatherBusUpdates.ROUTE_ID initial).2 = 1 ∧
  (GatherBusUpdates.main down initial).1 = Raises IndexError ∧
  CALLS_COUNT (GatherBusUpdates.main down initial).2 = 600 ∧
  sleeps (trace (GatherBusUpdates.main down initial).2) = 599.
Proof. by vm_compute. Qed.

(** ** When the loops save *)

Lemma for_returns_prefix {A} (body : A → Py unit) l1 l2 st :
  (for_ (l1 ++ l2) body st).1 = Returns () → (for_ l1 body st).1 = Returns ().
Proof. rewrite for_app. by destruct (for_ l1 body st) as [[[]|e] st']. Qed.

Lemma for_snoc {A} (body : A → Py unit) l x st :
  for_ (l ++ [x]) body st
  = match for_ l body st with
    | (Returns _, st') => body x st'
    | (Raises e, st') => (Raises e, st')
    end.
Proof.
  rewrite for_app. destruct (for_ l body st) as [[[]|e] st']; [|done].
  apply for_singleton.
Qed.

Section BusUpdatesCadence.
Import GatherBusUpdates BusUpdatesFacts.

Variable env : Env.

Lemma bus_updates_iteration_returns every i st :
  (iteration env every i st).1 = Returns () →
  let st' := (iteration env every i st).2 in
  vehicles st' = vehicles st ++ fetched_vehicles env ROUTE_ID st ∧
  ∃ es, trace st' = trace st ++ es ∧
        if decide ((i + 1) `mod` every = 0) then
          ∃ path df,
            written es = [(path, df)] ∧
            drop_duplicates (DataFrame (vehicle_row <$> vehicles st')) = Returns df
        else written es = [].
Proof.
  unfold fetched_vehicles. rewrite bus_updates_iteration_run, get_vehicles_run.
  cbn [fst snd]. fold VEHICLES_URL.
  fold (vehicles_reply env (CALLS_COUNT st) ROUTE_ID).
  destruct ((vehicles_in env _).1) as [now|e]; [|done].
  unfold rest_of_iteration. case_decide.
  - destruct (snapshot _) as [[path df]|e] eqn:E; [|done]. intros _.
    apply snapshot_content in E. simpl in *. split; [done|].
    rewrite <- app_assoc. eexists. split; [done|]. exists path, df.
    split; [|done]. rewrite written_app, written_Get. unfold vehicles_in.
    by rewrite written_digest.
  - intros _. simpl. split; [done|]. rewrite <- app_assoc.
    eexists. split; [done|]. rewrite written_app, written_Get.
    unfold vehicles_in. by rewrite written_digest.
Qed.

Lemma bus_updates_iteration_idle every i st :
  (i + 1) `mod` every ≠ 0 → written (since st (iteration env every i st).2) = [].
Proof.
  intros Hidle. rewrite bus_updates_iteration_run.
  destruct ((vehicles_in env _).1) as [now|e]; simpl.
  - unfold rest_of_iteration. rewrite decide_False by done.
    unfold since. simpl. rewrite <- app_assoc, drop_app_length.
    rewrite written_app, written_Get. unfold vehicles_in.
    by rewrite written_digest.
  - unfold since. simpl. rewrite drop_app_length, written_Get.
    unfold vehicles_in. by rewrite written_digest.
Qed.

Lemma bus_updates_loop_S m every st0 :
  loop env (S m) every st0
  = match loop env m every st0 with
    | (Returns _, st) => iteration env every m st
    | (Raises e, st) => (Raises e, st)
    end.
Proof. unfold loop. rewrite seq_S. apply for_snoc. Qed.

Lemma bus_updates_loop_prefix n m every st0 :
  m ≤ n → (loop env n every st0).1 = Returns () →
  (loop env m every st0).1 = Returns ().
Proof.
  intros Hm. unfold loop. replace n with (m + (n - m)) by lia.
  rewrite seq_app. apply for_returns_prefix.
Qed.

(** The [m+1]-th iteration of a run that returns. *)
Lemma bus_updates_tick n every st0 m :
  m < n → (loop env n every st0).1 = Returns () →
  let s := (loop env m every st0).2 in
  let s' := (loop env (S m) every st0).2 in
  vehicles s' = vehicles s ++ fetched_vehicles env ROUTE_ID s ∧
  ∃ es, trace s' = trace s ++ es ∧
        if decide ((m + 1) `mod` every = 0) then
          ∃ path df,
            written es = [(path, df)] ∧
            drop_duplicates (DataFrame (vehicle_row <$> vehicles s')) = Returns df
        else written es = [].
Proof.
  intros Hm Hn s s'. subst s s'.
  pose proof (bus_updates_loop_prefix n (S m) every st0 Hm Hn) as HS.
  rewrite bus_updates_loop_S in HS |- *.
  destruct (loop env m every st0) as [[[]|e] s]; [|done].
  by apply bus_updates_iteration_returns.
Qed.

End BusUpdatesCadence.

Section PredictionsCadence.
Import GatherPredictions PredictionsFacts.

Variable env : Env.

Lemma predictions_iteration_returns every i st :
  (iteration env every i st).1 = Returns () →
  let st' := (iteration env every i st).2 in
  vehicles st' = vehicles st ++ fetched_vehicles env ROUTE_ID st ∧
  predictions st' = predictions st ++ fetched_predictions env st ∧
  ∃ es, trace st' = trace st ++ es ∧
        if decide ((i + 1) `mod` every = 0) then
          ∃ dfp dfv,
            written es = [(predictions_path env, dfp); (vehicles_path env, dfv)] ∧
            drop_duplicates (DataFrame (prediction_row <$> predictions st'))
            = Returns dfp ∧
            drop_duplicates (DataFrame (vehicle_row <$> vehicles st')) = Returns dfv
        else written es = [].
Proof.
  unfold fetched_vehicles, fetched_predictions. rewrite predictions_iteration_run.
  pose proof (get_vehicles_quiet env ROUTE_ID st) as Hq1.
  destruct (get_vehicles env ROUTE_ID st) as [[now|e] st1]; [|done].
  pose proof (get_predictions_for_vehicles_quiet env now st1) as Hq2.
  destruct (get_predictions_for_vehicles env now st1) as [[new|e] st2]; [|done].
  simpl in Hq1, Hq2.
  destruct (quiet_trans _ _ _ Hq1 Hq2) as (Hv & Hp & es & Ht & Hw).
  unfold rest_of_iteration. cbn [fst snd]. case_decide.
  - unfold snapshots. cbn [vehicles predictions gathered].
    destruct (drop_duplicates (DataFrame (prediction_row <$> _))) as [dfp|] eqn:Ep;
      [|done].
    destruct (drop_duplicates (DataFrame (vehicle_row <$> _))) as [dfv|] eqn:Ev;
      [|done].
    intros _. cbn [fst snd log gathered vehicles predictions trace].
    rewrite Hv, Hp, Ht, <- app_assoc. split_and!; [done..|].
    eexists. split; [done|]. exists dfp, dfv.
    rewrite written_app, Hw. rewrite Hp in Ep. rewrite Hv in Ev. done.
  - intros _. cbn [fst snd log gathered vehicles predictions trace].
    rewrite Hv, Hp, Ht, <- app_assoc. split_and!; [done..|].
    eexists. split; [done|]. by rewrite written_app, Hw.
Qed.

Lemma predictions_iteration_idle every i st :
  (i + 1) `mod` every ≠ 0 → written (since st (iteration env every i st).2) = [].
Proof.
  intros Hidle. rewrite predictions_iteration_run.
  pose proof (get_vehicles_quiet env ROUTE_ID st) as Hq1.
  destruct (get_vehicles env ROUTE_ID st) as [[now|e] st1]; simpl in Hq1.
  - pose proof (get_predictions_for_vehicles_quiet env now st1) as Hq2.
    destruct (get_predictions_for_vehicles env now st1) as [[new|e] st2];
      simpl in Hq2;
      destruct (quiet_trans _ _ _ Hq1 Hq2) as (_ & _ & es & Ht & Hw).
    + unfold rest_of_iteration. rewrite decide_False by done.
      unfold since. simpl.
      by rewrite Ht, <- app_assoc, drop_app_length, written_app, Hw.
    + unfold since. simpl. by rewrite Ht, drop_app_length.
  - destruct Hq1 as (_ & _ & es & Ht & Hw).
    unfold since. simpl. by rewrite Ht, drop_app_length.
Qed.

Lemma predictions_loop_S m every st0 :
  loop env (S m) every st0
  = match loop env m every st0 with
    | (Returns _, st) => iteration env every m st
    | (Raises e, st) => (Raises e, st)
    end.
Proof. unfold loop. rewrite seq_S. apply for_snoc. Qed.

Lemma predictions_loop_prefix n m every st0 :
  m ≤ n → (loop env n every st0).1 = Returns () →
  (loop env m every st0).1 = Returns ().
Proof.
  intros Hm. unfold loop. replace n with (m + (n - m)) by lia.
  rewrite seq_app. apply for_returns_prefix.
Qed.

Lemma predictions_tick n every st0 m :
  m < n → (loop env n every st0).1 = Returns () →
  let s := (loop env m every st0).2 in
  let s' := (loop env (S m) every st0).2 in
  vehicles s' = vehicles s ++ fetched_vehicles env ROUTE_ID s ∧
  predictions s' = predictions s ++ fetched_predictions env s ∧
  ∃ es, trace s' = trace s ++ es ∧
        if decide ((m + 1) `mod` every = 0) then
          ∃ dfp dfv,
            written es = [(predictions_path env, dfp); (vehicles_path env, dfv)] ∧
            drop_duplicates (DataFrame (prediction_row <$> predictions s'))
            = Returns dfp ∧
            drop_duplicates (DataFrame (vehicle_row <$> vehicles s')) = Returns dfv
        else written es = [].
Proof.
  intros Hm Hn s s'. subst s s'.
  pose proof (predictions_loop_prefix n (S m) every st0 Hm Hn) as HS.
  rewrite predictions_loop_S in HS |- *.
  destruct (loop env m every st0) as [[[]|e] s]; [|done].
  by apply predictions_iteration_returns.
Qed.

End PredictionsCadence.

Lemma since_app st s es : trace s = trace st ++ es → since st s = es.
Proof. intros H. unfold since. by rewrite H, drop_app_length. Qed.

Section Cadence.
Variable env : Env.

Lemma since_same st : written (since st st) = [].
Proof. unfold since. by rewrite drop_all. Qed.


End Cadence.

(** ** The names of the files *)

Lemma string_length_app (a s : string) :
  String.length (a +:+ s) = String.length a + String.length s.
Proof.
  induction a as [|c a IH]; [done|].
  change (String c a +:+ s) with (String c (a +:+ s)). simpl. by rewrite IH.
Qed.

Lemma string_app_inj_l (s a b : string) : a +:+ s = b +:+ s → a = b.
Proof.
  revert b. induction a as [|c a IH]; intros [|c' b] H; [done| | |].
  - apply (f_equal String.length) in H. rewrite !string_length_app in H.
    simpl in H. lia.
  - apply (f_equal String.length) in H. rewrite !string_length_app in H.
    simpl in H. lia.
  - change (String c (a +:+ s) = String c' (b +:+ s)) in H.
    injection H as -> H. f_equal. by apply IH.
Qed.

Section FileNames.
Variable env : Env.

Lemma bus_updates_snapshot_name vs path df :
  BusUpdatesFacts.snapshot vs = Returns (path, df) →
  ∃ oldest newest from_date to_date,
    first vs = Returns oldest ∧ last vs = Returns newest ∧
    replace (Vehicle.timestamp oldest) " " "@" = Returns from_date ∧
    replace (Vehicle.timestamp newest) " " "@" = Returns to_date ∧
    path = "vehicles" +:+ from_date +:+ "-" +:+ to_date +:+ ".csv".
Proof.
  unfold BusUpdatesFacts.snapshot, mbind, result_bind. intros H.
  destruct (first vs) as [oldest|] eqn:Ho; [|done].
  destruct (replace (Vehicle.timestamp oldest) " " "@") as [from_date|] eqn:Ef;
    [|done].
  destruct (last vs) as [newest|] eqn:En; [|done].
  destruct (replace (Vehicle.timestamp newest) " " "@") as [to_date'|] eqn:Et;
    [|done].
  destruct (drop_duplicates _); [|done]. cbv zeta in H.
  destruct (open_w _); [|done]. injection H as <- _.
  by exists oldest, newest, from_date, to_date'.
Qed.

(** C4, as the code has it.  gather_predictions.py names its files after
    the time the script started: every save of a run writes
    predictions<now>.csv and vehicles<now>.csv, so each save replaces the
    files of the one before.  gather_bus_updates.py names its file after the
    timestamps of the first and the last vehicle of the list: two saves of
    one run (the list of the second begins with the list of the first) write
    to the same file exactly when the last timestamp is the same. *)
Theorem file_names_of_saves :
  (∀ n every st0,
     Forall (λ w, w.1 = PredictionsFacts.predictions_path env ∨
                  w.1 = PredictionsFacts.vehicles_path env)
       (written (since st0 (GatherPredictions.loop env n every st0).2))) ∧
  (∀ st,
     (GatherPredictions.save env st).1 = Returns () →
     (written (since st (GatherPredictions.save env st).2)).*1
     = [PredictionsFacts.predictions_path env; PredictionsFacts.vehicles_path env]) ∧
  (∀ st,
     (GatherBusUpdates.save st).1 = Returns () →
     ∃ oldest newest from_date to_date df,
       first (vehicles st) = Returns oldest ∧ last (vehicles st) = Returns newest ∧
       replace (Vehicle.timestamp oldest) " " "@" = Returns from_date ∧
       replace (Vehicle.timestamp newest) " " "@" = Returns to_date ∧
       written (since st (GatherBusUpdates.save st).2)
       = [("vehicles" +:+ from_date +:+ "-" +:+ to_date +:+ ".csv", df)]) ∧
  (∀ st1 st2,
     vehicles st1 `prefix_of` vehicles st2 →
     (GatherBusUpdates.save st1).1 = Returns () →
     (GatherBusUpdates.save st2).1 = Returns () →
     (written (since st1 (GatherBusUpdates.save st1).2)).*1
     = (written (since st2 (GatherBusUpdates.save st2).2)).*1
     ↔ to_date st1 = to_date st2).
Proof.
  split_and!.
  - intros n every st0. apply predictions_files_grow.
  - intros st. rewrite predictions_save_run. simpl. rewrite since_log.
    unfold PredictionsFacts.snapshots.
    destruct (drop_duplicates (DataFrame (prediction_row <$> _))); [|done].
    by destruct (drop_duplicates (DataFrame (vehicle_row <$> _))).
  - intros st. rewrite bus_updates_save_run.
    destruct (BusUpdatesFacts.snapshot _) as [[path df]|] eqn:E; [|done].
    intros _. simpl. rewrite since_log.
    destruct (bus_updates_snapshot_name _ _ _ E)
      as (oldest & newest & from_date & to_date' & ? & ? & ? & ? & ->).
    by exists oldest, newest, from_date, to_date', df.
  - intros st1 st2 [more Hmore]. rewrite !bus_updates_save_run.
    destruct (BusUpdatesFacts.snapshot (vehicles st1)) as [[path1 df1]|] eqn:E1;
      [|done].
    destruct (BusUpdatesFacts.snapshot (vehicles st2)) as [[path2 df2]|] eqn:E2;
      [|done].
    intros _ _. simpl. rewrite !since_log. simpl.
    destruct (bus_updates_snapshot_name _ _ _ E1)
      as (oldest1 & newest1 & from1 & to1 & Hf1 & Hl1 & Hrf1 & Hrt1 & ->).
    destruct (bus_updates_snapshot_name _ _ _ E2)
      as (oldest2 & newest2 & from2 & to2 & Hf2 & Hl2 & Hrf2 & Hrt2 & ->).
    unfold to_date. rewrite Hl1, Hl2. simpl. rewrite Hrt1, Hrt2.
    assert (from1 = from2) as <-.
    { rewrite Hmore in Hf2. destruct (vehicles st1) as [|v vs]; [done|].
      simpl in Hf1, Hf2. congruence. }
    split.
    + intros [= H]. apply String.app_inj in H. apply String.app_inj in H.
      apply String.app_inj in H. apply string_app_inj_l in H. by rewrite H.
    + by intros [= ->].
Qed.

End FileNames.

(** C4, as claimed, fails.  With every request failing, gather_predictions.py
    saves twelve times and writes predictions1583144100.csv each time.  With
    only the first request answered, the first two saves of
    gather_bus_updates.py (after 600 and after 1200 iterations) write the
    same file as well. *)
Lemma saves_write_to_the_same_file :
  (written (trace (GatherPredictions.main down initial).2)).*1
  = mjoin (replicate 12 ["predictions1583144100.csv"; "vehicles1583144100.csv"]) ∧
  (written (trace (GatherBusUpdates.loop feed_once 1200 600 initial).2)).*1
  = ["vehicles20200302@10:15:00-20200302@10:15:02.csv";
     "vehicles20200302@10:15:00-20200302@10:15:02.csv"].
Proof. split; by vm_compute. Qed.

(** ** The theorems at sample runs *)

Lemma query_api_writes_into_params_witness :
  (heap (query_api feed VEHICLES_ENDPOINT None initial).2 !!! query_api_defaults)
    !! "key" = Some (VStr "secret").
Proof. apply (query_api_writes_into_params feed VEHICLES_ENDPOINT None initial). Defined.


Lemma second_flush_writes_the_same_witness :
  (GatherPredictions.save feed (GatherPredictions.save feed two_iterations).2).1
  = Returns () ∧
  written (since (GatherPredictions.save feed two_iterations).2
             (GatherPredictions.save feed
                (GatherPredictions.save feed two_iterations).2).2)
  = written (since two_iterations (GatherPredictions.save feed two_iterations).2) ∧
  length (written (since two_iterations
                     (GatherPredictions.save feed two_iterations).2)) = 2.
Proof.
  destruct (second_flush_writes_the_same feed) as (_ & Hsave & _).
  destruct (Hsave two_iterations) as (Hsame & Hfiles & Htwo).
  assert ((GatherPredictions.save feed two_iterations).1 = Returns ()) as Hret
    by (by vm_compute).
  split_and!; [by rewrite Hsame|done|by apply Htwo].
Defined.


Lemma file_names_of_saves_witness :
  (written (since one_parked (GatherBusUpdates.save one_parked).2)).*1
  = (written (since two_parked (GatherBusUpdates.save two_parked).2)).*1
  ↔ to_date one_parked = to_date two_parked.
Proof.
  destruct (file_names_of_saves feed) as (_ & _ & _ & Hnames).
  apply (Hnames one_parked two_parked).
  - by exists [parked "3207"].
  - by vm_compute.
  - by vm_compute.
Defined.

(** * Further properties *)

(** ** Entries and records *)

Lemma printed_app es1 es2 : printed (es1 ++ es2) = printed es1 ++ printed es2.
Proof. apply omap_app. Qed.

Section Records.
Variable env : Env.

Lemma carries_answer r envelope :
  carries r envelope ↔ status_code r = 200%Z ∧ answer r = Returns envelope.
Proof.
  unfold carries, answer. split.
  - intros (H200 & body & Hbody & Henv). split; [done|].
    rewrite decide_True by done. by rewrite Hbody.
  - intros (H200 & Ha). split; [done|]. rewrite decide_True in Ha by done.
    destruct (json_loads_text r) as [body|e]; [|done]. by exists body.
Qed.

Lemma getitem_present kvs key :
  key ∈ kvs.*1 → ∃ x, getitem (VDict kvs) key = Returns x.
Proof.
  intros H. unfold getitem.
  destruct (list_find _ kvs) as [[i [k v]]|] eqn:E; [by exists v|].
  apply list_elem_of_fmap in H as ([k v] & -> & Hin).
  eapply list_find_None, Forall_forall in E; [|done]. by destruct E.
Qed.

Lemma vehicle_of_returns v :
  has_keys VEHICLE_FIELDS v → ∃ q, vehicle_of v = Returns q.
Proof.
  unfold has_keys. simpl. intros H. unfold vehicle_of.
  repeat (apply Forall_cons in H as [[? ->] H]; simpl).
  by eexists.
Qed.

Lemma vehicle_of_row v q :
  vehicle_of v = Returns q → row_of VEHICLE_FIELDS v (vehicle_row q).
Proof.
  unfold vehicle_of. intros H.
  repeat (match type of H with
          | (getitem ?v ?k ≫= _) = _ =>
              let E := fresh "E" in
              destruct (getitem v k) eqn:E; simpl in H; [|done]
          end).
  injection H as <-. unfold row_of, vehicle_row, VEHICLE_FIELDS. simpl.
  repeat (constructor; [done|]). constructor.
Qed.

Lemma prediction_of_returns p :
  has_keys PREDICTION_FIELDS p → ∃ q, prediction_of p = Returns q.
Proof.
  unfold has_keys. simpl. intros H. unfold prediction_of.
  repeat (apply Forall_cons in H as [[? ->] H]; simpl).
  by eexists.
Qed.

Lemma prediction_of_row p q :
  prediction_of p = Returns q → row_of PREDICTION_FIELDS p (prediction_row q).
Proof.
  unfold prediction_of. intros H.
  repeat (match type of H with
          | (getitem ?v ?k ≫= _) = _ =>
              let E := fresh "E" in
              destruct (getitem v k) eqn:E; simpl in H; [|done]
          end).
  injection H as <-. unfold row_of, prediction_row, PREDICTION_FIELDS. simpl.
  repeat (constructor; [done|]). constructor.
Qed.

End Records.

Section FirstFailure.
Variable env : Env.

Lemma vehicle_of_raises i key v :
  lacks_key VEHICLE_FIELDS i key v → vehicle_of v = Raises (KeyError key).
Proof.
  intros (kvs & -> & Hi & Hpre & Hkey). unfold vehicle_of.
  apply getitem_missing in Hkey.
  do 10 (destruct i as [|i];
    [injection Hi as <-; simpl in Hpre;
     repeat match goal with
            | |- (getitem _ ?k ≫= _) = Raises (KeyError ?k) => by rewrite Hkey
            | |- (getitem _ ?k ≫= _) = _ =>
                let x := fresh "x" in let E := fresh "E" in
                destruct (getitem_present kvs k) as [x E];
                  [apply Hpre; by repeat constructor|rewrite E; cbn [mbind result_bind]]
            end|]).
  done.
Qed.

Lemma prediction_of_raises i key p :
  lacks_key PREDICTION_FIELDS i key p → prediction_of p = Raises (KeyError key).
Proof.
  intros (kvs & -> & Hi & Hpre & Hkey). unfold prediction_of.
  apply getitem_missing in Hkey.
  do 6 (destruct i as [|i];
    [injection Hi as <-; simpl in Hpre;
     repeat match goal with
            | |- (getitem _ ?k ≫= _) = Raises (KeyError ?k) => by rewrite Hkey
            | |- (getitem _ ?k ≫= _) = _ =>
                let x := fresh "x" in let E := fresh "E" in
                destruct (getitem_present kvs k) as [x E];
                  [apply Hpre; by repeat constructor|rewrite E; cbn [mbind result_bind]]
            end|]).
  done.
Qed.

(** A comprehension stops at the first element that raises. *)
Lemma comprehension_raises {A B} (f : A → result B) good x rest e :
  Forall (λ y, ∃ z, f y = Returns z) good → f x = Raises e →
  comprehension f (good ++ x :: rest) = Raises e.
Proof.
  intros Hgood Hx. induction Hgood as [|y good [z Hz] _ IH]; simpl.
  - by rewrite Hx.
  - by rewrite Hz, IH.
Qed.

Lemma comprehension_if_raises {A B} (cond : A → result bool) (f : A → result B)
    good x rest e :
  Forall (λ y, ∃ b, cond y = Returns b ∧ (b = true → ∃ z, f y = Returns z)) good →
  (cond x = Raises e ∨ (cond x = Returns true ∧ f x = Raises e)) →
  comprehension_if cond f (good ++ x :: rest) = Raises e.
Proof.
  intros Hgood Hx. induction Hgood as [|y good (b & Hb & Hz) _ IH]; simpl.
  - destruct Hx as [->|[-> ->]]; done.
  - rewrite Hb. simpl. destruct b; [|done].
    destruct (Hz eq_refl) as [z ->]. simpl. by rewrite IH.
Qed.

End FirstFailure.

(** ** One fetch, seen from outside *)

Lemma since_after_call st a d es : since st (after_call st a d es) = es.
Proof. unfold since, after_call. simpl. apply drop_app_length. Qed.

Section OneFetch.
Variable env : Env.

Lemma request_params_lookup name arg :
  name ≠ "tmres" → name ≠ "key" → name ≠ "format" → name ≠ "rtpidatafeed" →
  let d := request_params env name arg in
  dom d = {[name; "tmres"; "key"; "format"; "rtpidatafeed"]} ∧
  d !! name = Some (VStr arg) ∧ d !! "tmres" = Some (VStr "s") ∧
  d !! "key" = Some (BUSTIME_API_KEY env) ∧ d !! "format" = Some (VStr "json") ∧
  d !! "rtpidatafeed" = Some (VStr "Port Authority Bus").
Proof.
  intros H1 H2 H3 H4 d. subst d. unfold request_params, injected, DATAFEED_NAME.
  split_and!.
  - rewrite !dom_insert_L, dom_empty_L. apply set_eq. intros k.
    rewrite !elem_of_union, !elem_of_singleton, elem_of_empty. tauto.
  - by rewrite !lookup_insert_ne, lookup_insert_eq by done.
  - by rewrite !lookup_insert_ne, lookup_insert_eq by done.
  - by rewrite !lookup_insert_ne, lookup_insert_eq by done.
  - by rewrite !lookup_insert_ne, lookup_insert_eq by done.
  - by rewrite lookup_insert_eq.
Qed.

(** X1.  Whatever the server answers, get_vehicles sends exactly one
    request, to the getvehicles endpoint, and its parameters are rt (the
    route ids it was given), tmres = s and the three entries query_api adds
    (key, format = json, rtpidatafeed = Port Authority Bus), nothing else;
    the call is counted once and the lists of records are as they were.  The
    same holds of get_predictions, with the getpredictions endpoint and vid
    in the place of rt. *)
Theorem fetches_send_one_request st :
  (∀ route_ids,
     let st' := (get_vehicles env route_ids st).2 in
     ∃ params,
       requests (since st st') = [(BASE_URL +:+ "/getvehicles", params)] ∧
       dom params = {["rt"; "tmres"; "key"; "format"; "rtpidatafeed"]} ∧
       params !! "rt" = Some (VStr route_ids) ∧
       params !! "tmres" = Some (VStr "s") ∧
       params !! "key" = Some (BUSTIME_API_KEY env) ∧
       params !! "format" = Some (VStr "json") ∧
       params !! "rtpidatafeed" = Some (VStr "Port Authority Bus") ∧
       CALLS_COUNT st' = S (CALLS_COUNT st) ∧
       vehicles st' = vehicles st ∧ predictions st' = predictions st) ∧
  (∀ vehicle_ids,
     let st' := (get_predictions env vehicle_ids st).2 in
     ∃ params,
       requests (since st st') = [(BASE_URL +:+ "/getpredictions", params)] ∧
       dom params = {["vid"; "tmres"; "key"; "format"; "rtpidatafeed"]} ∧
       params !! "vid" = Some (VStr vehicle_ids) ∧
       params !! "tmres" = Some (VStr "s") ∧
       params !! "key" = Some (BUSTIME_API_KEY env) ∧
       params !! "format" = Some (VStr "json") ∧
       params !! "rtpidatafeed" = Some (VStr "Port Authority Bus") ∧
       CALLS_COUNT st' = S (CALLS_COUNT st) ∧
       vehicles st' = vehicles st ∧ predictions st' = predictions st).
Proof.
  split.
  - intros route_ids. rewrite get_vehicles_run. cbn [snd].
    rewrite since_after_call. exists (request_params env "rt" route_ids).
    destruct (request_params_lookup "rt" route_ids) as (? & ? & ? & ? & ? & ?);
      [done..|].
    split_and!; try done.
    simpl. unfold vehicles_in. by rewrite requests_digest.
  - intros vehicle_ids. rewrite get_predictions_run. cbn [snd].
    rewrite since_after_call. exists (request_params env "vid" vehicle_ids).
    destruct (request_params_lookup "vid" vehicle_ids) as (? & ? & ? & ? & ? & ?);
      [done..|].
    split_and!; try done.
    simpl. unfold predictions_in. by rewrite requests_digest.
Qed.

Lemma printed_complaint r :
  printed (complaint env r)
  = if decide (status_code r = 200%Z) then []
    else [pretty (status_code r) +:+ " " +:+ text r].
Proof. unfold complaint. by case_decide. Qed.

Lemma digest_printed {A} key noun (f : list value → result (list A)) r :
  let out := printed (digest env key noun f r).2 in
  (status_code r ≠ 200%Z →
   out = [pretty (status_code r) +:+ " " +:+ text r;
          "Couldn't retrieve " +:+ noun +:+ " None"]) ∧
  (∀ kvs, carries r (VDict kvs) → key ∉ kvs.*1 →
          out = ["Couldn't retrieve " +:+ noun +:+ " " +:+ repr env (VDict kvs)]) ∧
  (∀ kvs, carries r (VDict kvs) → key ∈ kvs.*1 → out = []).
Proof.
  intros out. subst out. split_and!.
  - intros H. unfold digest, answer. rewrite decide_False by done. simpl.
    rewrite printed_app, printed_complaint, decide_False by done. done.
  - intros kvs [H200 Ha]%carries_answer Hkey. unfold digest. rewrite Ha. simpl.
    rewrite bool_decide_eq_false_2 by done. simpl.
    rewrite printed_app, printed_complaint, decide_True by done. done.
  - intros kvs [H200 Ha]%carries_answer Hkey. unfold digest. rewrite Ha. simpl.
    rewrite bool_decide_eq_true_2 by done. simpl.
    rewrite printed_complaint, decide_True by done. done.
Qed.

(** X2.  What a fetch prints.  When the status is not 200, get_vehicles
    prints two lines: the status and the body, and Couldn't retrieve
    vehicles None.  When a 200 response carries an envelope object without a
    vehicle entry, it prints one line: Couldn't retrieve vehicles and the
    envelope.  When the envelope has the entry, it prints nothing.  The same
    holds of get_predictions, with prd and predictions. *)
Theorem fetches_print_what_failed st :
  (∀ route_ids,
     let r := vehicles_reply env (CALLS_COUNT st) route_ids in
     let out := printed (since st (get_vehicles env route_ids st).2) in
     (status_code r ≠ 200%Z →
      out = [pretty (status_code r) +:+ " " +:+ text r;
             "Couldn't retrieve vehicles None"]) ∧
     (∀ kvs, carries r (VDict kvs) → "vehicle" ∉ kvs.*1 →
             out = ["Couldn't retrieve vehicles " +:+ repr env (VDict kvs)]) ∧
     (∀ kvs, carries r (VDict kvs) → "vehicle" ∈ kvs.*1 → out = [])) ∧
  (∀ vehicle_ids,
     let r := requests_get env (CALLS_COUNT st) PREDICTIONS_URL
                (request_params env "vid" vehicle_ids) in
     let out := printed (since st (get_predictions env vehicle_ids st).2) in
     (status_code r ≠ 200%Z →
      out = [pretty (status_code r) +:+ " " +:+ text r;
             "Couldn't retrieve predictions None"]) ∧
     (∀ kvs, carries r (VDict kvs) → "prd" ∉ kvs.*1 →
             out = ["Couldn't retrieve predictions " +:+ repr env (VDict kvs)]) ∧
     (∀ kvs, carries r (VDict kvs) → "prd" ∈ kvs.*1 → out = [])).
Proof.
  split.
  - intros route_ids r out. subst out r. rewrite get_vehicles_run. cbn [snd].
    rewrite since_after_call. unfold vehicles_reply, VEHICLES_URL.
    change (printed (Get ?u ?d :: ?es)) with (printed es).
    apply (digest_printed "vehicle" "vehicles").
  - intros vehicle_ids r out. subst out r. rewrite get_predictions_run. cbn [snd].
    rewrite since_after_call. unfold PREDICTIONS_URL.
    change (printed (Get ?u ?d :: ?es)) with (printed es).
    apply (digest_printed "prd" "predictions").
Qed.

End OneFetch.

(** ** The fields of the records *)

Section Entries.
Variable env : Env.

Lemma digest_list {A} key noun (f : list value → result (list A)) r kvs raw :
  carries r (VDict kvs) → getitem (VDict kvs) key = Returns (VList raw) →
  (digest env key noun f r).1 = f raw.
Proof.
  intros [H200 Ha]%carries_answer Hraw. unfold digest. rewrite Ha. cbv beta iota.
  rewrite (found_not_lacking _ _ _ Hraw). cbv beta iota. by rewrite Hraw.
Qed.

(** X3.  When the reply carries a vehicle list whose entries all have
    the ten keys, get_vehicles returns one record per entry, in the order of
    the list, and the row of each record holds id = vid, timestamp = tmstmp,
    lat, lon, destination = des, pattern_id = pid, pattern_distance = pdist,
    trip_id = tatripid, speed = spd and passenger_load = psgld of its entry,
    in this order; what else the entry holds is dropped. *)
Theorem get_vehicles_maps_entries route_ids st kvs raw :
  carries (vehicles_reply env (CALLS_COUNT st) route_ids) (VDict kvs) →
  getitem (VDict kvs) "vehicle" = Returns (VList raw) →
  Forall (has_keys VEHICLE_FIELDS) raw →
  ∃ vs,
    (get_vehicles env route_ids st).1 = Returns vs ∧
    Forall2 (row_of VEHICLE_FIELDS) raw (vehicle_row <$> vs).
Proof.
  intros Hr Hraw Hkeys. rewrite get_vehicles_run. cbn [fst].
  unfold vehicles_in. fold VEHICLES_URL.
  rewrite (digest_list _ _ _ _ _ _ Hr Hraw).
  destruct (comprehension_returns vehicle_of raw) as [vs Hvs].
  { eapply Forall_impl; [done|]. apply vehicle_of_returns. }
  exists vs. split; [done|]. apply comprehension_Forall2 in Hvs.
  apply Forall2_fmap_r. eapply Forall2_impl; [done|].
  apply vehicle_of_row.
Qed.

(** X4.  When the reply carries a prd list whose entries all have a
    type code and whose arrivals have the six keys, get_predictions returns
    one record per arrival, in the order of the list, and the row of each
    record holds timestamp = tmstmp, stop_id = stpid, vehicle_id = vid,
    predicted_time = prdtm, trip_id = tatripid and distance_to_stop = dstp
    of its entry, in this order. *)
Theorem get_predictions_maps_arrivals vehicle_ids st kvs raw :
  carries (requests_get env (CALLS_COUNT st) PREDICTIONS_URL
             (request_params env "vid" vehicle_ids)) (VDict kvs) →
  getitem (VDict kvs) "prd" = Returns (VList raw) →
  Forall (λ p, ∃ typ, getitem p "typ" = Returns typ) raw →
  Forall (λ p, arrival p → has_keys PREDICTION_FIELDS p) raw →
  ∃ ps,
    (get_predictions env vehicle_ids st).1 = Returns ps ∧
    Forall2 (row_of PREDICTION_FIELDS) (filter arrival raw) (prediction_row <$> ps).
Proof.
  intros Hr Hraw Htyp Hkeys. rewrite get_predictions_run. cbn [fst].
  unfold predictions_in. fold PREDICTIONS_URL.
  rewrite (digest_list _ _ _ _ _ _ Hr Hraw).
  rewrite comprehension_if_filter; [|].
  2:{ eapply Forall_impl; [exact Htyp|]. intros p [typ Hp].
      exists (is_str "A" typ). unfold is_arrival. by rewrite Hp. }
  destruct (comprehension_filter_returns prediction_of arrival raw) as [ps Hps].
  { eapply Forall_impl; [exact Hkeys|]. intros p Hp Ha.
    by apply prediction_of_returns, Hp. }
  exists ps. split; [done|]. apply comprehension_Forall2 in Hps.
  apply Forall2_fmap_r. eapply Forall2_impl; [done|].
  apply prediction_of_row.
Qed.

(** X5.  A vehicle entry that lacks one of the ten keys makes
    get_vehicles raise KeyError for the first key it lacks (in the order of
    the dict literal), at the first such entry: no record is returned, not
    for the entries before it either, though the call has been counted; and
    the loop of either script ends with that exception when the reply is the
    one to its first request. *)
Theorem get_vehicles_entry_without_key route_ids st kvs good entry rest i key :
  carries (vehicles_reply env (CALLS_COUNT st) route_ids) (VDict kvs) →
  getitem (VDict kvs) "vehicle" = Returns (VList (good ++ entry :: rest)) →
  Forall (has_keys VEHICLE_FIELDS) good →
  lacks_key VEHICLE_FIELDS i key entry →
  (get_vehicles env route_ids st).1 = Raises (KeyError key) ∧
  CALLS_COUNT (get_vehicles env route_ids st).2 = S (CALLS_COUNT st) ∧
  (route_ids = GatherBusUpdates.ROUTE_ID →
   ∀ n every, (GatherBusUpdates.loop env (S n) every st).1 = Raises (KeyError key)) ∧
  (route_ids = GatherPredictions.ROUTE_ID →
   ∀ n every, (GatherPredictions.loop env (S n) every st).1 = Raises (KeyError key)).
Proof.
  intros Hr Hraw Hgood Hentry.
  assert ((get_vehicles env route_ids st).1 = Raises (KeyError key)) as Hget.
  { rewrite get_vehicles_run. cbn [fst]. unfold vehicles_in. fold VEHICLES_URL.
    rewrite (digest_list _ _ _ _ _ _ Hr Hraw).
    apply comprehension_raises; [|by eapply vehicle_of_raises].
    eapply Forall_impl; [done|]. apply vehicle_of_returns. }
  split_and!; [done|by rewrite get_vehicles_run| |].
  - intros -> n every. unfold GatherBusUpdates.loop. rewrite <- cons_seq.
    destruct (get_vehicles env GatherBusUpdates.ROUTE_ID st) as [res st1] eqn:E.
    simpl in Hget. subst res.
    erewrite for_raises; [done|].
    unfold GatherBusUpdates.iteration, mbind at 1, Py_bind. by rewrite E.
  - intros -> n every. unfold GatherPredictions.loop. rewrite <- cons_seq.
    destruct (get_vehicles env GatherPredictions.ROUTE_ID st) as [res st1] eqn:E.
    simpl in Hget. subst res.
    erewrite for_raises; [done|].
    unfold GatherPredictions.iteration, mbind at 1, Py_bind. by rewrite E.
Qed.

(** X6.  The first entry of the prd list that is not in order ends
    get_predictions: an entry without a type code raises KeyError typ, and
    an arrival that lacks one of the six keys raises KeyError for the first
    key it lacks. *)
Theorem get_predictions_entry_without_key vehicle_ids st kvs good entry rest :
  carries (requests_get env (CALLS_COUNT st) PREDICTIONS_URL
             (request_params env "vid" vehicle_ids)) (VDict kvs) →
  getitem (VDict kvs) "prd" = Returns (VList (good ++ entry :: rest)) →
  Forall (λ p, ∃ typ, getitem p "typ" = Returns typ ∧
               (arrival p → has_keys PREDICTION_FIELDS p)) good →
  (getitem entry "typ" = Raises (KeyError "typ") →
   (get_predictions env vehicle_ids st).1 = Raises (KeyError "typ")) ∧
  (∀ i key,
     arrival entry → lacks_key PREDICTION_FIELDS i key entry →
     (get_predictions env vehicle_ids st).1 = Raises (KeyError key)).
Proof.
  intros Hr Hraw Hgood.
  assert (Forall (λ y, ∃ b, is_arrival y = Returns b ∧
                            (b = true → ∃ z, prediction_of y = Returns z)) good)
    as Hgood'.
  { eapply Forall_impl; [exact Hgood|]. intros p (typ & Htyp & Hkeys).
    exists (is_str "A" typ). unfold is_arrival. rewrite Htyp. split; [done|].
    intros Ha. apply prediction_of_returns, Hkeys. unfold arrival, is_arrival.
    rewrite Htyp. simpl. by rewrite Ha. }
  rewrite get_predictions_run. cbn [fst]. unfold predictions_in. fold PREDICTIONS_URL.
  rewrite (digest_list _ _ _ _ _ _ Hr Hraw).
  split.
  - intros Htyp. apply comprehension_if_raises; [done|]. left.
    unfold is_arrival. by rewrite Htyp.
  - intros i key Ha Hlack. apply comprehension_if_raises; [done|]. right.
    split; [done|]. by eapply prediction_of_raises.
Qed.

End Entries.

(** ** Calls counted, dictionaries left alone *)

Lemma proceeds_refl st : proceeds st st.
Proof. split; [done|]. exists []. by rewrite app_nil_r, Nat.add_0_r. Qed.

Lemma proceeds_trans st1 st2 st3 :
  proceeds st1 st2 → proceeds st2 st3 → proceeds st1 st3.
Proof.
  intros (Hh & es & Ht & Hc) (Hh' & es' & Ht' & Hc'). split; [by etrans|].
  exists (es ++ es'). rewrite Ht', Ht, app_assoc. split; [done|].
  rewrite requests_app, length_app. lia.
Qed.

Lemma proceeds_since st0 st :
  proceeds st0 st →
  CALLS_COUNT st = CALLS_COUNT st0 + length (requests (since st0 st)).
Proof.
  intros (_ & es & Ht & Hc). by rewrite (since_app _ _ _ Ht).
Qed.

Lemma proceeds_after_call st url p es :
  requests es = [] → ∀ d,
  proceeds st (after_call st (fresh (dom (heap st))) d (Get url p :: es)).
Proof.
  intros Hes d. split; simpl.
  - apply insert_subseteq, not_elem_of_dom, is_fresh.
  - eexists. split; [done|]. simpl. rewrite Hes. simpl. lia.
Qed.

Lemma proceeds_log st es : requests es = [] → proceeds st (log st es).
Proof.
  intros Hes. split; [done|]. exists es. split; [done|]. rewrite Hes. simpl. lia.
Qed.

Lemma proceeds_gathered st vs ps : proceeds st (gathered st vs ps).
Proof.
  split; [done|]. exists []. simpl. by rewrite app_nil_r, Nat.add_0_r.
Qed.

Section Proceeding.
Variable env : Env.

Lemma get_vehicles_proceeds route_ids st :
  proceeds st (get_vehicles env route_ids st).2.
Proof.
  rewrite get_vehicles_run. cbn [snd]. apply proceeds_after_call.
  apply requests_digest.
Qed.

Lemma get_predictions_proceeds vehicle_ids st :
  proceeds st (get_predictions env vehicle_ids st).2.
Proof.
  rewrite get_predictions_run. cbn [snd]. apply proceeds_after_call.
  apply requests_digest.
Qed.

Lemma predictions_from_proceeds vehicles starts acc st :
  proceeds st (predictions_from env vehicles starts acc st).2.
Proof.
  revert acc st. induction starts as [|i starts IH]; intros acc st.
  - apply proceeds_refl.
  - rewrite predictions_from_cons. unfold mbind, Py_bind.
    pose proof (get_predictions_proceeds
      (vids env (slice vehicles i (Nat.min (i + 10) (length vehicles)))) st) as H.
    destruct (get_predictions _ _ _) as [[new|e] st1]; simpl in H; [|done].
    eapply proceeds_trans; [done|apply IH].
Qed.

Lemma get_predictions_for_vehicles_proceeds vehicles st :
  proceeds st (get_predictions_for_vehicles env vehicles st).2.
Proof. unfold get_predictions_for_vehicles. apply predictions_from_proceeds. Qed.

Lemma bus_updates_iteration_proceeds every i st :
  proceeds st (GatherBusUpdates.iteration env every i st).2.
Proof.
  rewrite bus_updates_iteration_run.
  set (st1 := after_call _ _ _ _).
  assert (proceeds st st1) as H1 by (apply proceeds_after_call, requests_digest).
  destruct ((vehicles_in env _).1) as [now|e]; [|done].
  eapply proceeds_trans; [done|]. unfold BusUpdatesFacts.rest_of_iteration.
  eapply proceeds_trans; [apply (proceeds_gathered _ now [])|].
  case_decide; [|by apply proceeds_log].
  destruct (BusUpdatesFacts.snapshot _) as [[path df]|e]; by apply proceeds_log.
Qed.

Lemma predictions_iteration_proceeds every i st :
  proceeds st (GatherPredictions.iteration env every i st).2.
Proof.
  rewrite predictions_iteration_run.
  pose proof (get_vehicles_proceeds GatherPredictions.ROUTE_ID st) as H1.
  destruct (get_vehicles env _ st) as [[now|e] st1]; [|done]. simpl in H1.
  pose proof (get_predictions_for_vehicles_proceeds now st1) as H2.
  destruct (get_predictions_for_vehicles env now st1) as [[new|e] st2];
    simpl in H2; [|by eapply proceeds_trans].
  eapply proceeds_trans; [done|]. eapply proceeds_trans; [done|].
  unfold PredictionsFacts.rest_of_iteration.
  eapply proceeds_trans; [apply (proceeds_gathered _ now new)|].
  case_decide; [|by apply proceeds_log].
  unfold PredictionsFacts.snapshots.
  destruct (drop_duplicates (DataFrame (prediction_row <$> _))) as [dfp|];
    [|by apply proceeds_log].
  destruct (drop_duplicates (DataFrame (vehicle_row <$> _))) as [dfv|];
    by apply proceeds_log.
Qed.

Lemma bus_updates_loop_proceeds n every st0 :
  proceeds st0 (GatherBusUpdates.loop env n every st0).2.
Proof.
  apply (for_invariant (proceeds st0)); [|apply proceeds_refl].
  intros i st H. eapply proceeds_trans; [done|].
  apply bus_updates_iteration_proceeds.
Qed.

Lemma predictions_loop_proceeds n every st0 :
  proceeds st0 (GatherPredictions.loop env n every st0).2.
Proof.
  apply (for_invariant (proceeds st0)); [|apply proceeds_refl].
  intros i st H. eapply proceeds_trans; [done|].
  apply predictions_iteration_proceeds.
Qed.

Lemma bus_updates_main_run st0 :
  GatherBusUpdates.main env st0
  = match GatherBusUpdates.loop env GatherBusUpdates.number_iterations 600 st0 with
    | (Returns _, st) =>
        (Returns (),
         log st [Print ("Called the API " +:+ pretty (CALLS_COUNT st) +:+ " times.")])
    | (Raises e, st) => (Raises e, st)
    end.
Proof.
  unfold GatherBusUpdates.main. unfold mbind at 1, Py_bind.
  by destruct (GatherBusUpdates.loop _ _ _ _) as [[[]|e] st].
Qed.

Lemma predictions_main_run st0 :
  GatherPredictions.main env st0
  = match GatherPredictions.loop env GatherPredictions.number_iterations 120 st0 with
    | (Returns _, st) =>
        (Returns (),
         log st [Print ("Called the API " +:+ pretty (CALLS_COUNT st) +:+ " times.")])
    | (Raises e, st) => (Raises e, st)
    end.
Proof.
  unfold GatherPredictions.main. unfold mbind at 1, Py_bind.
  by destruct (GatherPredictions.loop _ _ _ _) as [[[]|e] st].
Qed.

Lemma bus_updates_main_proceeds st0 :
  proceeds st0 (GatherBusUpdates.main env st0).2.
Proof.
  rewrite bus_updates_main_run.
  pose proof (bus_updates_loop_proceeds GatherBusUpdates.number_iterations 600 st0) as H.
  destruct (GatherBusUpdates.loop _ _ _ _) as [[[]|e] st]; [|done].
  eapply proceeds_trans; [done|]. by apply proceeds_log.
Qed.

Lemma predictions_main_proceeds st0 :
  proceeds st0 (GatherPredictions.main env st0).2.
Proof.
  rewrite predictions_main_run.
  pose proof (predictions_loop_proceeds GatherPredictions.number_iterations 120 st0) as H.
  destruct (GatherPredictions.loop _ _ _ _) as [[[]|e] st]; [|done].
  eapply proceeds_trans; [done|]. by apply proceeds_log.
Qed.

(** X11.  CALLS_COUNT counts the answers.  In every run of either loop
    and of either script in which every request is answered, whether the run
    finishes or ends with an exception raised while an answer is read or the
    lists are saved, CALLS_COUNT has grown by exactly the number of requests:
    each answer is counted once, before it is looked at.  (A request that
    gets no answer, where requests.get itself raises, would not be counted;
    the model has no such request.) *)
Theorem CALLS_COUNT_counts_the_answers st0 :
  (∀ n every,
     let st := (GatherBusUpdates.loop env n every st0).2 in
     CALLS_COUNT st = CALLS_COUNT st0 + length (requests (since st0 st))) ∧
  (∀ n every,
     let st := (GatherPredictions.loop env n every st0).2 in
     CALLS_COUNT st = CALLS_COUNT st0 + length (requests (since st0 st))) ∧
  (let st := (GatherBusUpdates.main env st0).2 in
   CALLS_COUNT st = CALLS_COUNT st0 + length (requests (since st0 st))) ∧
  (let st := (GatherPredictions.main env st0).2 in
   CALLS_COUNT st = CALLS_COUNT st0 + length (requests (since st0 st))).
Proof.
  split_and!; intros; apply proceeds_since.
  - apply bus_updates_loop_proceeds.
  - apply predictions_loop_proceeds.
  - apply bus_updates_main_proceeds.
  - apply predictions_main_proceeds.
Qed.

(** X10.  get_vehicles and get_predictions make a new dictionary for
    every call: a dictionary that was there before (the one shared default
    of query_api among them) holds after a fetch, and after a run of either
    loop or script, what it held before. *)
Theorem fetches_use_a_new_dictionary st0 a d :
  heap st0 !! a = Some d →
  (∀ route_ids, heap (get_vehicles env route_ids st0).2 !! a = Some d) ∧
  (∀ vehicle_ids, heap (get_predictions env vehicle_ids st0).2 !! a = Some d) ∧
  (∀ vehicles, heap (get_predictions_for_vehicles env vehicles st0).2 !! a = Some d) ∧
  (∀ n every, heap (GatherBusUpdates.loop env n every st0).2 !! a = Some d) ∧
  (∀ n every, heap (GatherPredictions.loop env n every st0).2 !! a = Some d) ∧
  heap (GatherBusUpdates.main env st0).2 !! a = Some d ∧
  heap (GatherPredictions.main env st0).2 !! a = Some d.
Proof.
  intros Ha.
  assert (∀ st, proceeds st0 st → heap st !! a = Some d) as H.
  { intros st [Hh _]. by eapply lookup_weaken. }
  split_and!; intros; apply H.
  - apply get_vehicles_proceeds.
  - apply get_predictions_proceeds.
  - apply get_predictions_for_vehicles_proceeds.
  - apply bus_updates_loop_proceeds.
  - apply predictions_loop_proceeds.
  - apply bus_updates_main_proceeds.
  - apply predictions_main_proceeds.
Qed.

End Proceeding.

(** ** A complete run of gather_bus_updates.py *)

Lemma sleeps_app es1 es2 : sleeps (es1 ++ es2) = sleeps es1 + sleeps es2.
Proof. unfold sleeps. by rewrite omap_app, length_app. Qed.

Lemma slept_app es1 es2 : slept (es1 ++ es2) = slept es1 + slept es2.
Proof. unfold slept. by rewrite omap_app, sum_list_with_app. Qed.

(** What a fetch leaves in the trace besides its request is printed lines. *)
Lemma digest_prints {A} env key noun (f : list value → result (list A)) r :
  Forall (λ e, ∃ line, e = Print line) (digest env key noun f r).2.
Proof.
  assert (Forall (λ e, ∃ line, e = Print line) (complaint env r)) as Hc.
  { unfold complaint. case_decide; repeat constructor. by eexists. }
  unfold digest. destruct (answer r) as [response|]; simpl; [|done].
  destruct (is_None_or_lacks response key) as [[]|]; simpl; [|done..].
  apply Forall_app. split; [done|]. repeat constructor. by eexists.
Qed.

Lemma prints_sleep_not es :
  Forall (λ e, ∃ line, e = Print line) es → sleeps es = 0 ∧ slept es = 0.
Proof.
  induction 1 as [|e es [line ->] _ IH]; [done|]. exact IH.
Qed.

Lemma div_S n every :
  0 < every →
  S n / every = n / every + (if decide ((n + 1) `mod` every = 0) then 1 else 0).
Proof.
  intros Hevery.
  pose proof (Nat.div_mod_eq n every) as Hn.
  pose proof (Nat.mod_upper_bound n every ltac:(lia)) as Hr.
  destruct (decide (n `mod` every + 1 = every)) as [Hlast|Hmore].
  - rewrite decide_True.
    + symmetry. apply (Nat.div_unique _ _ _ 0); lia.
    + symmetry. apply (Nat.mod_unique _ _ (n / every + 1)); lia.
  - rewrite decide_False.
    + rewrite Nat.add_0_r. symmetry.
      apply (Nat.div_unique _ _ _ (n `mod` every + 1)); lia.
    + intros H0.
      pose proof (Nat.mod_unique (n + 1) every (n / every) (n `mod` every + 1)
                    ltac:(lia) ltac:(lia)) as H1.
      lia.
Qed.

Section BusUpdatesAccounts.
Import GatherBusUpdates BusUpdatesFacts.

Variable env : Env.

(** What an iteration that returns has done. *)
Lemma bus_updates_iteration_accounts every i st :
  (iteration env every i st).1 = Returns () →
  let st' := (iteration env every i st).2 in
  ∃ es, trace st' = trace st ++ es ∧
        requests es = [(VEHICLES_URL, request_params env "rt" ROUTE_ID)] ∧
        sleeps es = 1 ∧ slept es = 3 ∧
        length (written es) = if decide ((i + 1) `mod` every = 0) then 1 else 0.
Proof.
  rewrite bus_updates_iteration_run. unfold vehicles_in.
  pose proof (digest_prints env "vehicle" "vehicles" (comprehension vehicle_of)
                (vehicles_reply env (CALLS_COUNT st) ROUTE_ID)) as Hp.
  destruct (prints_sleep_not _ Hp) as [Hs Hz].
  destruct ((digest _ _ _ _ _).1) as [now|e]; [|done].
  unfold rest_of_iteration. case_decide.
  - destruct (snapshot _) as [[path df]|e]; [|done]. intros _. simpl.
    rewrite <- app_assoc. eexists. split; [done|].
    rewrite requests_app, sleeps_app, slept_app, written_app, written_Get.
    rewrite written_digest. simpl. rewrite requests_digest.
    change (sleeps (Get ?u ?d :: ?l)) with (sleeps l).
    change (slept (Get ?u ?d :: ?l)) with (slept l).
    by rewrite Hs, Hz.
  - intros _. simpl.
    rewrite <- app_assoc. eexists. split; [done|].
    rewrite requests_app, sleeps_app, slept_app, written_app, written_Get.
    rewrite written_digest. simpl. rewrite requests_digest.
    change (sleeps (Get ?u ?d :: ?l)) with (sleeps l).
    change (slept (Get ?u ?d :: ?l)) with (slept l).
    by rewrite Hs, Hz.
Qed.

Lemma bus_updates_saves : number_iterations / 600 = 6.
Proof. vm_compute. reflexivity. Qed.

Lemma bus_updates_loop_accounts n every st0 :
  0 < every → (loop env n every st0).1 = Returns () →
  let st := (loop env n every st0).2 in
  ∃ es, trace st = trace st0 ++ es ∧
        requests es = replicate n (VEHICLES_URL, request_params env "rt" ROUTE_ID) ∧
        sleeps es = n ∧ slept es = 3 * n ∧ length (written es) = n / every.
Proof.
  intros Hevery. induction n as [|n IH].
  - intros _. exists []. simpl. rewrite app_nil_r.
    by rewrite Nat.Div0.div_0_l.
  - rewrite bus_updates_loop_S.
    destruct (loop env n every st0) as [[[]|e] st] eqn:E; [|done].
    destruct IH as (es & Ht & Hr & Hs & Hz & Hw); [done|].
    simpl in Ht. intros Hit.
    destruct (bus_updates_iteration_accounts every n st Hit)
      as (es' & Ht' & Hr' & Hs' & Hz' & Hw').
    exists (es ++ es'). rewrite Ht', Ht, app_assoc.
    rewrite requests_app, sleeps_app, slept_app, written_app, length_app.
    rewrite Hr, Hr', Hs, Hs', Hz, Hz', Hw, Hw', div_S by done.
    split_and!; [done| |lia|lia|done].
    by rewrite <- replicate_cons_app.
Qed.

(** X14.  A run of gather_bus_updates.py that ends without an exception
    has sent exactly 3600 requests, each for the vehicles of ROUTE_ID, has
    slept 3600 times for 3 seconds and has written 6 files; the last thing
    it does is print Called the API n times, where n is the count at the
    start plus 3600. *)
Theorem bus_updates_complete_run st0 :
  (main env st0).1 = Returns () →
  let st := (main env st0).2 in
  let es := since st0 st in
  requests es = replicate 3600 (VEHICLES_URL, request_params env "rt" ROUTE_ID) ∧
  CALLS_COUNT st = CALLS_COUNT st0 + 3600 ∧
  sleeps es = 3600 ∧ slept es = 3 * 3600 ∧
  length (written es) = 6 ∧
  list.last es
  = Some (Print ("Called the API " +:+ pretty (CALLS_COUNT st0 + 3600) +:+ " times.")).
Proof.
  rewrite bus_updates_main_run.
  pose proof (bus_updates_loop_accounts number_iterations 600 st0 ltac:(lia)) as H.
  pose proof (bus_updates_loop_proceeds env number_iterations 600 st0) as Hc.
  apply proceeds_since in Hc.
  destruct (loop env number_iterations 600 st0) as [[[]|e] st]; [|done].
  intros _. destruct H as (es & Ht & Hr & Hs & Hz & Hw); [done|].
  simpl in Ht, Hc. rewrite (since_app _ _ _ Ht), Hr, length_replicate in Hc.
  cbn [snd]. unfold since, log. cbn [trace]. rewrite Ht, <- app_assoc, drop_app_length.
  rewrite requests_app, sleeps_app, slept_app, written_app, length_app, last_snoc.
  rewrite Hr, Hs, Hz, Hw, Hc, bus_updates_saves. cbn [CALLS_COUNT].
  change (requests [Print _]) with (@nil (string * gmap string value)).
  change (sleeps [Print _]) with 0. change (slept [Print _]) with 0.
  change (length (written [Print _])) with 0.
  rewrite app_nil_r, !Nat.add_0_r.
  split_and!; reflexivity.
Qed.

End BusUpdatesAccounts.

(** ** The requests and the runs of gather_predictions.py *)

Lemma ceil_10_bounds V k :
  (V + k + 9) / 10 ≤ (V + 9) / 10 + (k + 9) / 10 ∧ (k + 9) / 10 ≤ k.
Proof.
  pose proof (Nat.div_mod_eq (V + k + 9) 10).
  pose proof (Nat.mod_upper_bound (V + k + 9) 10).
  pose proof (Nat.div_mod_eq (V + 9) 10).
  pose proof (Nat.mod_upper_bound (V + 9) 10).
  pose proof (Nat.div_mod_eq (k + 9) 10).
  pose proof (Nat.mod_upper_bound (k + 9) 10).
  lia.
Qed.

Section PredictionsAccounts.
Import GatherPredictions PredictionsFacts.

Variable env : Env.

Lemma predictions_from_accounts vehicles starts acc st new st' :
  predictions_from env vehicles starts acc st = (Returns new, st') →
  ∃ es, trace st' = trace st ++ es ∧
        requests es
        = (λ i, group_request env
                  (slice vehicles i (Nat.min (i + 10) (length vehicles)))) <$> starts ∧
        written es = [] ∧ sleeps es = 0 ∧ slept es = 0.
Proof.
  revert acc st. induction starts as [|i starts IH]; intros acc st.
  - intros [= <- <-]. exists []. by rewrite app_nil_r.
  - rewrite predictions_from_cons. unfold mbind at 1, Py_bind.
    rewrite get_predictions_run. unfold predictions_in.
    set (r := requests_get env _ _ _).
    pose proof (digest_prints env "prd" "predictions"
                  (comprehension_if is_arrival prediction_of) r) as Hp.
    destruct (prints_sleep_not _ Hp) as [Hs Hz].
    destruct ((digest _ _ _ _ r).1) as [got|e]; [|done].
    intros Hrun. destruct (IH _ _ Hrun) as (es & Ht & Hr & Hw & Hs' & Hz').
    simpl in Ht. rewrite <- app_assoc in Ht. eexists. split; [done|].
    rewrite requests_app, written_app, sleeps_app, slept_app, Hr, Hw, Hs', Hz'.
    rewrite written_Get, written_digest. simpl.
    rewrite requests_digest.
    change (sleeps (Get ?u ?d :: ?l)) with (sleeps l).
    change (slept (Get ?u ?d :: ?l)) with (slept l).
    by rewrite Hs, Hz.
Qed.

Lemma get_predictions_for_vehicles_accounts vehicles st new st' :
  get_predictions_for_vehicles env vehicles st = (Returns new, st') →
  ∃ es, trace st' = trace st ++ es ∧
        requests es = group_request env <$> groups vehicles ∧
        written es = [] ∧ sleeps es = 0 ∧ slept es = 0.
Proof.
  intros H. apply predictions_from_accounts in H as (es & Ht & Hr & Hw & Hs & Hz).
  exists es. split_and!; [done| |done..].
  rewrite Hr. unfold groups. by rewrite <- list_fmap_compose.
Qed.

(** What an iteration that returns has done. *)
Lemma predictions_iteration_accounts every i st :
  (iteration env every i st).1 = Returns () →
  let st' := (iteration env every i st).2 in
  let now := fetched_vehicles env ROUTE_ID st in
  vehicles st' = vehicles st ++ now ∧
  ∃ es, trace st' = trace st ++ es ∧
        requests es
        = (VEHICLES_URL, request_params env "rt" ROUTE_ID)
            :: (group_request env <$> groups now) ∧
        sleeps es = 1 ∧ slept es = 5 ∧
        (written es).*1
        = if decide ((i + 1) `mod` every = 0)
          then [predictions_path env; vehicles_path env] else [].
Proof.
  unfold fetched_vehicles. rewrite predictions_iteration_run.
  rewrite get_vehicles_run. cbn [fst snd].
  pose proof (digest_prints env "vehicle" "vehicles" (comprehension vehicle_of)
                (vehicles_reply env (CALLS_COUNT st) ROUTE_ID)) as Hp.
  destruct (prints_sleep_not _ Hp) as [Hs Hz].
  unfold vehicles_in, vehicles_reply, VEHICLES_URL in *.
  destruct ((digest _ _ _ _ _).1) as [now|e]; [|done].
  set (st1 := after_call _ _ _ _).
  pose proof (get_predictions_for_vehicles_quiet env now st1) as (Hv & Hq & _).
  destruct (get_predictions_for_vehicles env now st1) as [[new|e] st2] eqn:E;
    [|done].
  apply get_predictions_for_vehicles_accounts in E as (es & Ht & Hr & Hw & Hs' & Hz').
  simpl in Hv, Hq, Ht. rewrite <- app_assoc in Ht.
  unfold rest_of_iteration. cbn [fst snd]. case_decide.
  - unfold snapshots.
    destruct (drop_duplicates (DataFrame (prediction_row <$> _))) as [dfp|]; [|done].
    destruct (drop_duplicates (DataFrame (vehicle_row <$> _))) as [dfv|]; [|done].
    intros _. cbn [fst snd log gathered vehicles predictions trace].
    rewrite Hv, Ht, <- !app_assoc. split; [done|]. eexists. split; [done|].
    rewrite !requests_app, !sleeps_app, !slept_app, !written_app.
    rewrite written_Get, written_digest, Hr, Hw, Hs', Hz'. simpl.
    rewrite requests_digest.
    change (sleeps (Get ?u ?d :: ?l)) with (sleeps l).
    change (slept (Get ?u ?d :: ?l)) with (slept l).
    rewrite Hs, Hz. by rewrite app_nil_r.
  - intros _. cbn [fst snd log gathered vehicles predictions trace].
    rewrite Hv, Ht, <- !app_assoc. split; [done|]. eexists. split; [done|].
    rewrite !requests_app, !sleeps_app, !slept_app, !written_app.
    rewrite written_Get, written_digest, Hr, Hw, Hs', Hz'. simpl.
    rewrite requests_digest.
    change (sleeps (Get ?u ?d :: ?l)) with (sleeps l).
    change (slept (Get ?u ?d :: ?l)) with (slept l).
    rewrite Hs, Hz. by rewrite app_nil_r.
Qed.

Lemma predictions_saves : number_iterations / 120 = 12.
Proof. vm_compute. reflexivity. Qed.

Lemma predictions_loop_accounts n every st0 :
  0 < every → (loop env n every st0).1 = Returns () →
  let st := (loop env n every st0).2 in
  ∃ es V, trace st = trace st0 ++ es ∧
          length (vehicles st) = length (vehicles st0) + V ∧
          n + (V + 9) / 10 ≤ length (requests es) ≤ n + V ∧
          sleeps es = n ∧ slept es = 5 * n ∧
          (written es).*1
          = concat (replicate (n / every) [predictions_path env; vehicles_path env]).
Proof.
  intros Hevery. induction n as [|n IH].
  - intros _. exists [], 0. simpl. rewrite app_nil_r, Nat.Div0.div_0_l.
    split_and!; [done|lia|lia|lia|done..].
  - rewrite predictions_loop_S.
    destruct (loop env n every st0) as [[[]|e] st] eqn:E; [|done].
    destruct IH as (es & V & Ht & Hv & Hr & Hs & Hz & Hw); [done|].
    simpl in Ht, Hv. intros Hit.
    destruct (predictions_iteration_accounts every n st Hit)
      as (Hv' & es' & Ht' & Hr' & Hs' & Hz' & Hw').
    exists (es ++ es'), (V + length (fetched_vehicles env ROUTE_ID st)).
    rewrite Ht', Ht, app_assoc, Hv', length_app, Hv.
    rewrite requests_app, sleeps_app, slept_app, written_app, fmap_app, length_app.
    rewrite Hr', Hs, Hs', Hz, Hz', Hw, Hw', div_S by done.
    rewrite length_cons, length_fmap, groups_length.
    pose proof (ceil_10_bounds V (length (fetched_vehicles env ROUTE_ID st))).
    split_and!; [done|lia|lia|lia|lia|lia|].
    case_decide.
    + by rewrite replicate_add, concat_app.
    + by rewrite Nat.add_0_r, app_nil_r.
Qed.

(** X12.  An iteration of gather_predictions.py that returns has
    asked first for the vehicles of ROUTE_ID and then for the predictions of
    the vehicles that this request returned (not of the list gathered so
    far), one request per group of ten: 1 + ceil(n/10) requests for n
    vehicles, and the vehicles request alone when none came back. *)
Theorem predictions_iteration_requests every i st :
  (iteration env every i st).1 = Returns () →
  let st' := (iteration env every i st).2 in
  let now := fetched_vehicles env ROUTE_ID st in
  requests (since st st')
  = (VEHICLES_URL, request_params env "rt" ROUTE_ID)
      :: (group_request env <$> groups now) ∧
  CALLS_COUNT st' = CALLS_COUNT st + 1 + (length now + 9) / 10 ∧
  (now = [] →
   requests (since st st') = [(VEHICLES_URL, request_params env "rt" ROUTE_ID)]).
Proof.
  intros Hit st' now.
  destruct (predictions_iteration_accounts every i st Hit)
    as (_ & es & Ht & Hr & _).
  pose proof (proceeds_since _ _ (predictions_iteration_proceeds env every i st)) as Hc.
  subst st' now. rewrite (since_app _ _ _ Ht) in Hc |- *. split_and!; [done| |].
  - rewrite Hc, Hr, length_cons, length_fmap, groups_length. lia.
  - intros Hnone. by rewrite Hr, Hnone.
Qed.

(** X15.  A run of gather_predictions.py that ends without an exception
    has slept 1440 times for 5 seconds and has written the predictions file
    and the vehicles file, in this order, 12 times; with V the number of
    vehicle records it gathered, it has sent at least 1440 + ceil(V/10) and
    at most 1440 + V requests; the last thing it does is print Called the
    API n times with the count of its requests. *)
Theorem predictions_complete_run st0 :
  (main env st0).1 = Returns () →
  let st := (main env st0).2 in
  let es := since st0 st in
  sleeps es = 1440 ∧ slept es = 5 * 1440 ∧
  (written es).*1
  = concat (replicate 12 [predictions_path env; vehicles_path env]) ∧
  CALLS_COUNT st = CALLS_COUNT st0 + length (requests es) ∧
  (∃ V, length (vehicles st) = length (vehicles st0) + V ∧
        1440 + (V + 9) / 10 ≤ length (requests es) ≤ 1440 + V) ∧
  list.last es
  = Some (Print ("Called the API " +:+ pretty (CALLS_COUNT st) +:+ " times.")).
Proof.
  intros Hret st es.
  pose proof (proceeds_since _ _ (predictions_main_proceeds env st0)) as Hc.
  subst es st. revert Hret Hc. rewrite predictions_main_run.
  pose proof (predictions_loop_accounts number_iterations 120 st0 ltac:(lia)) as H.
  destruct (loop env number_iterations 120 st0) as [[[]|e] st]; [|done].
  intros _ Hc. destruct H as (es & V & Ht & Hv & Hr & Hs & Hz & Hw); [done|].
  simpl in Ht, Hv. cbn [snd] in *. revert Hc.
  unfold since, log. cbn [trace CALLS_COUNT vehicles].
  rewrite Ht, <- app_assoc, drop_app_length.
  rewrite requests_app, sleeps_app, slept_app, written_app, fmap_app, last_snoc.
  change (requests [Print _]) with (@nil (string * gmap string value)).
  change (sleeps [Print _]) with 0. change (slept [Print _]) with 0.
  change (written [Print _]) with (@nil (string * Frame)).
  rewrite !app_nil_r, !Nat.add_0_r, Hs, Hz, Hw, predictions_saves. intros Hc.
  split_and!; [reflexivity|reflexivity|reflexivity|exact Hc| |reflexivity].
  exists V. split; [exact Hv|exact Hr].
Qed.

Lemma predictions_iteration_outage every i st :
  status_code (vehicles_reply env (CALLS_COUNT st) ROUTE_ID) ≠ 200%Z →
  vehicles st = [] → predictions st = [] →
  ∃ st' es,
    iteration env every i st = (Returns (), st') ∧
    vehicles st' = [] ∧ predictions st' = [] ∧
    CALLS_COUNT st' = S (CALLS_COUNT st) ∧ trace st' = trace st ++ es ∧
    requests es = [(VEHICLES_URL, request_params env "rt" ROUTE_ID)] ∧
    written es
    = if decide ((i + 1) `mod` every = 0)
      then [(predictions_path env, []); (vehicles_path env, [])] else [].
Proof.
  intros Hfail Hv Hp. rewrite predictions_iteration_run, get_vehicles_run.
  unfold vehicles_in.
  fold VEHICLES_URL. fold (vehicles_reply env (CALLS_COUNT st) ROUTE_ID).
  rewrite digest_failed by done.
  set (st1 := after_call _ _ _ _).
  change (get_predictions_for_vehicles env [] st1) with (Returns (@nil Prediction.t), st1).
  unfold rest_of_iteration.
  assert (gathered st1 [] [] = st1) as ->.
  { unfold gathered. by rewrite !app_nil_r. }
  assert (vehicles st1 = []) as Hv1 by done.
  assert (predictions st1 = []) as Hp1 by done.
  rewrite Hv1, Hp1.
  case_decide.
  - change (snapshots env [] [])
      with (Returns (), [Print "Saving..."; ToCsv (predictions_path env) [];
                         ToCsv (vehicles_path env) []]).
    cbv beta iota. eexists _, _. split; [done|]. cbn [log vehicles predictions CALLS_COUNT trace].
    subst st1. cbn [after_call vehicles predictions CALLS_COUNT trace].
    rewrite <- app_assoc. split_and!; [done..| |].
    + rewrite requests_app. simpl. by rewrite requests_digest.
    + rewrite written_app, written_Get, written_digest. done.
  - eexists _, _. split; [done|]. cbn [log vehicles predictions CALLS_COUNT trace].
    subst st1. cbn [after_call vehicles predictions CALLS_COUNT trace].
    rewrite <- app_assoc. split_and!; [done..| |].
    + rewrite requests_app. simpl. by rewrite requests_digest.
    + rewrite written_app, written_Get, written_digest. done.
Qed.

Lemma predictions_loop_outage n every st0 :
  0 < every →
  (∀ k, status_code (vehicles_reply env k ROUTE_ID) ≠ 200%Z) →
  vehicles st0 = [] → predictions st0 = [] →
  ∃ st es,
    loop env n every st0 = (Returns (), st) ∧
    vehicles st = [] ∧ predictions st = [] ∧
    CALLS_COUNT st = CALLS_COUNT st0 + n ∧ trace st = trace st0 ++ es ∧
    requests es = replicate n (VEHICLES_URL, request_params env "rt" ROUTE_ID) ∧
    written es
    = concat (replicate (n / every)
                [(predictions_path env, []); (vehicles_path env, [])]).
Proof.
  intros Hevery Hfail Hv Hp. induction n as [|n IH].
  - exists st0, []. rewrite app_nil_r, Nat.Div0.div_0_l.
    split_and!; [done..|lia|done|done|done].
  - destruct IH as (st & es & Hrun & Hv' & Hp' & Hc & Ht & Hr & Hw).
    destruct (predictions_iteration_outage every n st (Hfail _) Hv' Hp')
      as (st' & es' & Hit & Hv'' & Hp'' & Hc' & Ht' & Hr' & Hw').
    exists st', (es ++ es'). rewrite predictions_loop_S, Hrun, Hit.
    rewrite Ht', Ht, app_assoc, requests_app, written_app, Hr, Hr', Hw, Hw'.
    rewrite div_S by done.
    split_and!; [done..|lia|done| |].
    + by rewrite <- replicate_cons_app.
    + case_decide.
      * by rewrite replicate_add, concat_app.
      * by rewrite Nat.add_0_r, app_nil_r.
Qed.

(** X16.  When the server answers every vehicles request with a status
    other than 200, gather_predictions.py, started with empty lists, runs to
    its end: it sends 1440 requests, all for vehicles, gathers nothing, and
    twelve times writes both files with no row. *)
Theorem predictions_run_through_an_outage st0 :
  (∀ k, status_code (vehicles_reply env k ROUTE_ID) ≠ 200%Z) →
  vehicles st0 = [] → predictions st0 = [] →
  let st := (main env st0).2 in
  let es := since st0 st in
  (main env st0).1 = Returns () ∧
  requests es = replicate 1440 (VEHICLES_URL, request_params env "rt" ROUTE_ID) ∧
  written es
  = concat (replicate 12 [(predictions_path env, []); (vehicles_path env, [])]) ∧
  vehicles st = [] ∧ predictions st = [].
Proof.
  intros Hfail Hv Hp.
  destruct (predictions_loop_outage number_iterations 120 st0 ltac:(lia) Hfail Hv Hp)
    as (st & es & Hrun & Hv' & Hp' & Hc & Ht & Hr & Hw).
  rewrite predictions_main_run, Hrun. cbn [fst snd].
  unfold since, log. cbn [trace vehicles predictions].
  rewrite Ht, <- app_assoc, drop_app_length, requests_app, written_app, Hr, Hw.
  change (requests [Print _]) with (@nil (string * gmap string value)).
  change (written [Print _]) with (@nil (string * Frame)).
  rewrite !app_nil_r, predictions_saves.
  split_and!; [reflexivity|reflexivity|reflexivity|exact Hv'|exact Hp'].
Qed.

End PredictionsAccounts.

(** ** How the save blocks end *)

Lemma hash_scalar d v c : hash (astype d v) = Returns c → scalar v.
Proof. by destruct d, v. Qed.

Lemma hash_row_scalar records r k :
  hash_row (stored_in records r) = Returns k → scalar_row r.
Proof.
  unfold hash_row, stored_in. intros H%comprehension_Forall2.
  apply Forall2_fmap_l in H. unfold scalar_row.
  induction H as [|[c v] y r k Hy _ IH]; constructor; [|done]. simpl in *.
  destruct (hash _) as [cv|] eqn:E; [|done]. by eapply hash_scalar.
Qed.

Lemma drop_duplicates_scalar records df :
  drop_duplicates (DataFrame records) = Returns df → Forall scalar_row records.
Proof.
  unfold drop_duplicates, mbind, result_bind.
  destruct (comprehension keyed (DataFrame records)) as [rows|] eqn:E; [|done].
  intros _. apply keyed_rows in E as [Hdf Hkeyed].
  apply Forall_forall. intros r [p Hr]%list_elem_of_lookup.
  assert ((DataFrame records).*2 !! p = Some (stored_in records r)) as Hp
    by (by rewrite DataFrame_rows, list_lookup_fmap, Hr).
  rewrite <- Hdf, <- list_fmap_compose in Hp.
  apply list_lookup_fmap_Some_1 in Hp as ([k [i x]] & Hx & Hp). simpl in Hx.
  rewrite Forall_forall in Hkeyed.
  pose proof (Hkeyed _ (list_elem_of_lookup_2 _ _ _ Hp)) as Hk.
  unfold keyed in Hk. simpl in Hk. subst x.
  destruct (hash_row (stored_in records r)) as [k'|] eqn:Ek; [|done].
  by eapply hash_row_scalar.
Qed.

Lemma drop_duplicates_result records :
  (∃ df, drop_duplicates (DataFrame records) = Returns df ∧
         Forall scalar_row records) ∨
  (drop_duplicates (DataFrame records) = Raises TypeError ∧
   ¬ Forall scalar_row records).
Proof.
  destruct (drop_duplicates (DataFrame records)) as [df|e] eqn:E.
  - left. exists df. split; [done|]. by eapply drop_duplicates_scalar.
  - right. pose proof (drop_duplicates_raises _ _ E) as ->. split; [done|].
    intros H. destruct (drop_duplicates_returns records H) as [df Hdf]. congruence.
Qed.

Lemma replace_result v :
  (∃ s, v = VStr s ∧ replace v " " "@" = Returns (str_replace " " "@" s)) ∨
  ((∀ s, v ≠ VStr s) ∧ replace v " " "@" = Raises AttributeError).
Proof. destruct v; try (by right). left. by eexists. Qed.

Lemma printed_written_Saving st es :
  es = [Print "Saving..."] →
  written (since st (log st es)) = [] ∧
  printed (since st (log st es)) = ["Saving..."].
Proof. intros ->. by rewrite since_log. Qed.

Lemma str_replace_in_name_inv old new s :
  in_name old → Forall in_name (chars (str_replace old new s)) →
  Forall in_name (chars s).
Proof.
  intros Ho. induction s as [|c s IH]; [done|]. simpl.
  intros [Hc Hs]%Forall_cons. constructor; [|by apply IH].
  case_decide; by subst.
Qed.

Lemma open_w_result path :
  open_w path = Returns () ∨ open_w path = Raises OSError ∨
  open_w path = Raises ValueError.
Proof. unfold open_w. repeat case_decide; tauto. Qed.

(** The name of the file of gather_bus_updates.py can be opened exactly when
    neither timestamp has a slash or a NUL character. *)
Lemma bus_updates_name_opens s s' :
  open_w ("vehicles" +:+ str_replace " " "@" s +:+ "-" +:+
          str_replace " " "@" s' +:+ ".csv") = Returns () ↔
  Forall in_name (chars s) ∧ Forall in_name (chars s').
Proof.
  rewrite <- open_w_returns, !chars_app, !Forall_app. split.
  - intros (_ & Hs & _ & Hs' & _).
    split; eapply str_replace_in_name_inv; try done; by split.
  - intros [Hs Hs'].
    split_and!; [by repeat constructor|by apply str_replace_in_name
                |by repeat constructor|by apply str_replace_in_name
                |by repeat constructor].
Qed.

Section SaveResults.
Variable env : Env.



End SaveResults.

(** ** Names and labels of the files *)

Lemma str_replace_chars old new s :
  old ≠ new → old ∉ chars (str_replace old new s).
Proof.
  intros Hne. induction s as [|c s IH]; simpl.
  - apply not_elem_of_nil.
  - apply not_elem_of_cons. split; [|done]. case_decide; congruence.
Qed.

Lemma first_app {A} (l more : list A) x :
  first l = Returns x → first (l ++ more) = Returns x.
Proof. by destruct l. Qed.

Lemma snapshot_of_labelled {A} (row : A → Row) records df :
  uniform (row <$> records) →
  snapshot_of row records df → labelled_by_first_position row records df.
Proof.
  intros Hu (l1 & l2 & -> & Hdf) i x Hin.
  apply (drop_duplicates_uniform _ _ (uniform_more _ _ _ Hu) Hdf) in Hin
    as (r & [Hi Hfirst] & ->).
  exists r. split; [|done]. rewrite fmap_app. split; [by apply lookup_app_l_Some|].
  intros j Hj. rewrite lookup_app_l; [by apply Hfirst|].
  apply lookup_lt_Some in Hi. lia.
Qed.

Section BusUpdatesFiles.
Import GatherBusUpdates BusUpdatesFacts.

Variable env : Env.

(** What holds of the file of every save holds of every file of a run,
    provided that it goes on holding when the list grows. *)
Lemma bus_updates_files_all (P : list Vehicle.t → string * Frame → Prop)
    n every st0 :
  (∀ vs more w, P vs w → P (vs ++ more) w) →
  (∀ vs w, snapshot vs = Returns w → P vs w) →
  let st := (loop env n every st0).2 in
  Forall (P (vehicles st)) (written (since st0 st)).
Proof.
  intros Hmore Hsave st.
  assert (∃ es, trace st = trace st0 ++ es ∧ Forall (P (vehicles st)) (written es))
    as (es & Ht & Hall).
  { subst st. unfold loop.
    apply (for_invariant
             (λ st, ∃ es, trace st = trace st0 ++ es ∧
                          Forall (P (vehicles st)) (written es))).
    2:{ exists []. by rewrite app_nil_r. }
    intros i st (es & Ht & Hall). rewrite bus_updates_iteration_run.
    set (es1 := Get _ _ :: _).
    assert (written es1 = []) as Hw1 by apply written_digest.
    destruct ((vehicles_in env _).1) as [now|e]; cbn [snd].
    2:{ exists (es ++ es1). simpl.
        by rewrite Ht, app_assoc, written_app, Hw1, app_nil_r. }
    unfold rest_of_iteration. cbn [gathered after_call vehicles].
    assert (Forall (P (vehicles st ++ now)) (written es)) as Hall'.
    { eapply Forall_impl; [done|]. intros w. apply Hmore. }
    case_decide.
    - destruct (snapshot _) as [[path df]|e] eqn:E; simpl.
      + exists (es ++ es1 ++ [Print "Saving..."; ToCsv path df; Sleep 3]).
        rewrite Ht, <- !app_assoc. split; [done|].
        rewrite !written_app, Hw1. simpl. apply Forall_app. split; [done|].
        constructor; [|constructor]. by apply Hsave.
      + exists (es ++ es1 ++ [Print "Saving..."]).
        rewrite Ht, <- !app_assoc. split; [done|].
        rewrite !written_app, Hw1. simpl. by rewrite app_nil_r.
    - simpl. exists (es ++ es1 ++ [Sleep 3]).
      rewrite Ht, <- !app_assoc. split; [done|].
      rewrite !written_app, Hw1. simpl. by rewrite app_nil_r. }
  unfold since. by rewrite Ht, drop_app_length.
Qed.

(** X19.  In a run of the loop of gather_bus_updates.py, finished or
    ended by an exception, the name of every file written begins with the
    timestamp (spaces replaced) of the vehicle that is first in the list:
    the files of a run have one from_date. *)
Theorem bus_updates_files_share_from_date n every st0 :
  let st := (loop env n every st0).2 in
  Forall (λ w, ∃ oldest, first (vehicles st) = Returns oldest ∧
                         named_from oldest w.1)
    (written (since st0 st)).
Proof.
  apply (bus_updates_files_all
           (λ vs w, ∃ oldest, first vs = Returns oldest ∧ named_from oldest w.1)).
  - intros vs more w (oldest & Hfirst & Hname). exists oldest.
    split; [by apply first_app|done].
  - intros vs [path df] H.
    apply bus_updates_snapshot_name in H
      as (oldest & newest & from_date & to_date & Ho & _ & Hf & _ & ->).
    exists oldest. split; [done|]. by exists from_date, to_date.
Qed.

(** X20.  No name of a file that a run of the loop of
    gather_bus_updates.py writes has a space in it. *)
Theorem bus_updates_file_names_have_no_space n every st0 :
  Forall (λ w, " "%char ∉ chars w.1)
    (written (since st0 (loop env n every st0).2)).
Proof.
  apply (bus_updates_files_all (λ _ w, " "%char ∉ chars w.1)); [done|].
  intros vs [path df] H.
  apply bus_updates_snapshot_name in H
    as (oldest & newest & from_date & to_date & _ & _ & Hf & Ht & ->).
  destruct (Vehicle.timestamp oldest) as [| | |s| |]; try done.
  destruct (Vehicle.timestamp newest) as [| | |s'| |]; try done.
  injection Hf as <-. injection Ht as <-. cbn [fst].
  rewrite !chars_app, !elem_of_app.
  pose proof (str_replace_chars " " "@" s ltac:(done)).
  pose proof (str_replace_chars " " "@" s' ltac:(done)).
  intros [H1|[H1|[H1|[H1|H1]]]]; try done.
  - vm_compute in H1. by repeat (apply elem_of_cons in H1 as [H1|H1]; [done|]);
      apply elem_of_nil in H1.
  - apply list_elem_of_singleton in H1. done.
  - vm_compute in H1. by repeat (apply elem_of_cons in H1 as [H1|H1]; [done|]);
      apply elem_of_nil in H1.
Qed.

End BusUpdatesFiles.

Section Labels.
Variable env : Env.

(** X21.  When every column of the lists holds cells of one type, then
    in every file that a run of either loop writes, under each label stands
    the record at that position of the list the file is written from, cell
    by cell, and no record before that position equals it in every field:
    each kept row stands where the record was first gathered. *)
Theorem rows_are_labelled_by_first_position n every st0 :
  (let st := (GatherBusUpdates.loop env n every st0).2 in
   uniform (vehicle_row <$> vehicles st) →
   Forall (λ w, labelled_by_first_position vehicle_row (vehicles st) w.2)
     (written (since st0 st))) ∧
  (let st := (GatherPredictions.loop env n every st0).2 in
   uniform (vehicle_row <$> vehicles st) →
   uniform (prediction_row <$> predictions st) →
   Forall (λ w,
     (w.1 = PredictionsFacts.predictions_path env ∧
      labelled_by_first_position prediction_row (predictions st) w.2) ∨
     (w.1 = PredictionsFacts.vehicles_path env ∧
      labelled_by_first_position vehicle_row (vehicles st) w.2))
     (written (since st0 st))).
Proof.
  split.
  - intros st Hu.
    assert (bus_updates_run st0 st) as (_ & es & Ht & Hfiles & _).
    { subst st. unfold GatherBusUpdates.loop.
      apply (for_invariant (bus_updates_run st0)); [|apply bus_updates_run_refl].
      intros i st'. apply bus_updates_run_iteration. }
    unfold since. rewrite Ht, drop_app_length.
    eapply Forall_impl; [done|]. intros w. by apply snapshot_of_labelled.
  - intros st Huv Hup.
    assert (predictions_run env st0 st) as (_ & _ & es & Ht & Hfiles & _).
    { subst st. unfold GatherPredictions.loop.
      apply (for_invariant (predictions_run env st0)); [|apply predictions_run_refl].
      intros i st'. apply predictions_run_iteration. }
    unfold since. rewrite Ht, drop_app_length.
    eapply Forall_impl; [done|].
    intros w [[Hp Hs]|[Hp Hs]]; [left|right]; (split; [done|]);
      by apply snapshot_of_labelled.
Qed.

End Labels.

(** ** Exceptions on the way *)

Section Exceptions.
Variable env : Env.

(** X13.  An iteration that is not one that saves and that ends in an
    exception leaves the lists of records as they were: in
    gather_predictions.py the vehicles of an iteration are not kept when
    their predictions could not be fetched. *)
Theorem raising_iteration_adds_no_record every i st e :
  (i + 1) `mod` every ≠ 0 →
  ((GatherBusUpdates.iteration env every i st).1 = Raises e →
   vehicles (GatherBusUpdates.iteration env every i st).2 = vehicles st) ∧
  ((GatherPredictions.iteration env every i st).1 = Raises e →
   vehicles (GatherPredictions.iteration env every i st).2 = vehicles st ∧
   predictions (GatherPredictions.iteration env every i st).2 = predictions st).
Proof.
  intros Hidle. split.
  - rewrite bus_updates_iteration_run.
    destruct ((vehicles_in env _).1) as [now|e']; [|done].
    unfold BusUpdatesFacts.rest_of_iteration. by rewrite decide_False.
  - rewrite predictions_iteration_run.
    pose proof (get_vehicles_quiet env GatherPredictions.ROUTE_ID st) as (Hv & Hp & _).
    destruct (get_vehicles env _ st) as [[now|e'] st1]; [|done].
    pose proof (get_predictions_for_vehicles_quiet env now st1) as (Hv' & Hp' & _).
    destruct (get_predictions_for_vehicles env now st1) as [[new|e'] st2].
    + unfold PredictionsFacts.rest_of_iteration. by rewrite decide_False.
    + intros _. simpl in *. split; congruence.
Qed.

(** X7.  On a 200 response query_api counts the call and prints
    nothing, and what it does with the body depends on json.loads only: an
    error of json.loads is passed on; a body that is JSON but no object
    raises TypeError; and when the body is an object that has
    bustime-response, what it has there is returned. *)
Theorem query_api_body_that_does_not_decode endpoint params st :
  let r := requests_get env (CALLS_COUNT st) (BASE_URL +:+ endpoint)
             (injected env (heap st !!! default query_api_defaults params)) in
  let run := query_api env endpoint params st in
  status_code r = 200%Z →
  (∀ e, json_loads_text r = Raises e → run.1 = Raises e) ∧
  (∀ body, json_loads_text r = Returns body → (∀ kvs, body ≠ VDict kvs) →
           run.1 = Raises TypeError) ∧
  (∀ body response,
     json_loads_text r = Returns body →
     getitem body "bustime-response" = Returns response →
     run.1 = Returns response) ∧
  CALLS_COUNT run.2 = S (CALLS_COUNT st) ∧
  printed (since st run.2) = [].
Proof.
  intros r run H200. subst run. rewrite query_api_run. fold r. cbn [fst snd].
  rewrite since_after_call. unfold answer. rewrite decide_True by done.
  split_and!.
  - by intros e ->.
  - intros body -> Hbody. simpl. destruct body; try done. by destruct (Hbody kvs).
  - intros body response -> Hg. cbn [mbind result_bind]. exact Hg.
  - done.
  - change (printed (Get ?u ?d :: ?es)) with (printed es).
    by rewrite printed_complaint, decide_True.
Qed.

(** X8.  When what the response carries under bustime-response is not
    an object, get_vehicles returns no vehicle: it returns the empty list or
    raises TypeError.  For null it returns the empty list; for a list it
    raises TypeError when the string vehicle is among its elements and
    returns the empty list otherwise. *)
Theorem envelope_that_is_no_object route_ids st response :
  carries (vehicles_reply env (CALLS_COUNT st) route_ids) response →
  (∀ kvs, response ≠ VDict kvs) →
  let res := (get_vehicles env route_ids st).1 in
  (res = Returns [] ∨ res = Raises TypeError) ∧
  (response = VNone → res = Returns []) ∧
  (∀ l, response = VList l →
        res = if existsb (is_str "vehicle") l then Raises TypeError else Returns []).
Proof.
  intros [H200 Ha]%carries_answer Hno res. subst res.
  rewrite get_vehicles_run. cbn [fst]. unfold vehicles_in, digest.
  fold VEHICLES_URL. fold (vehicles_reply env (CALLS_COUNT st) route_ids).
  rewrite Ha. cbv beta iota.
  destruct response as [|b|n|s|l|kvs]; simpl.
  - split_and!; [by left|done|done].
  - split_and!; [by right|done|done].
  - split_and!; [by right|done|done].
  - destruct (bool_decide _); simpl; split_and!; try done; by (left + right).
  - destruct (existsb (is_str "vehicle") l) eqn:E; simpl.
    + split_and!; [by right|done|]. intros l' [= <-]. by rewrite E.
    + split_and!; [by left|done|]. intros l' [= <-]. by rewrite E.
  - by destruct (Hno kvs).
Qed.

Lemma predictions_from_app vehicles l1 l2 acc st :
  predictions_from env vehicles (l1 ++ l2) acc st
  = match predictions_from env vehicles l1 acc st with
    | (Returns acc', st') => predictions_from env vehicles l2 acc' st'
    | (Raises e, st') => (Raises e, st')
    end.
Proof.
  revert acc st. induction l1 as [|i l1 IH]; intros acc st; [done|].
  rewrite <- app_comm_cons, !predictions_from_cons. unfold mbind, Py_bind.
  destruct (get_predictions _ _ _) as [[new|e] st1]; [apply IH|done].
Qed.

(** X9.  When the call for the group numbered k raises, the groups
    before it having returned, get_predictions_for_vehicles raises that
    exception: what the earlier groups returned is lost with it and the
    later groups are not asked (k + 1 requests have been sent and
    counted). *)
Theorem get_predictions_for_vehicles_stops_at_raise vehicles st
    (out : nat → list Prediction.t) k g e :
  groups vehicles !! k = Some g →
  (∀ j g', j < k → groups vehicles !! j = Some g' →
     (predictions_in env (group_reply env (CALLS_COUNT st + j) g')).1
     = Returns (out j)) →
  (predictions_in env (group_reply env (CALLS_COUNT st + k) g)).1 = Raises e →
  let st' := (get_predictions_for_vehicles env vehicles st).2 in
  (get_predictions_for_vehicles env vehicles st).1 = Raises e ∧
  CALLS_COUNT st' = CALLS_COUNT st + k + 1 ∧
  requests (since st st') = group_request env <$> take (k + 1) (groups vehicles).
Proof.
  intros Hk Hout Hraise.
  set (starts := range 0 (length vehicles) 10).
  set (group := λ i, slice vehicles i (Nat.min (i + 10) (length vehicles))).
  assert (groups vehicles = group <$> starts) as Hgroups by done.
  rewrite Hgroups in Hk. apply list_lookup_fmap_Some_1 in Hk as (i & -> & Hi).
  destruct (predictions_from_returns env vehicles (take k starts) [] st out)
    as (st1 & es & Hrun & (Hc & _ & _ & Ht) & Hr).
  { intros j i' Hj. apply lookup_take_Some in Hj as [Hj Hlt].
    apply Hout; [done|]. by rewrite Hgroups, list_lookup_fmap, Hj. }
  assert (length (take k starts) = k) as Hlen.
  { rewrite length_take. apply lookup_lt_Some in Hi. lia. }
  rewrite Hlen in *.
  assert (∃ es', requests es' = [group_request env (group i)] ∧
                 get_predictions_for_vehicles env vehicles st
                 = (Raises e,
                    after_call st1 (fresh (dom (heap st1)))
                      (request_params env "vid" (vids env (group i))) es'))
    as (es' & Hr' & ->).
  { eexists. split; [|].
    2:{ unfold get_predictions_for_vehicles. fold starts.
        rewrite <- (take_drop_middle starts k i Hi), predictions_from_app, Hrun.
        rewrite predictions_from_cons. unfold mbind at 1, Py_bind.
        rewrite get_predictions_run, Hc. fold (group i). fold PREDICTIONS_URL.
        fold (group_reply env (CALLS_COUNT st + k) (group i)). rewrite Hraise.
        done. }
    simpl. unfold predictions_in. by rewrite requests_digest. }
  cbn [fst snd after_call CALLS_COUNT]. split_and!; [done|lia|].
  unfold since, after_call. cbn [trace snd]. rewrite Ht, <- app_assoc, drop_app_length.
  rewrite requests_app, Hr, Hr', Hgroups, <- fmap_take.
  replace (k + 1) with (S k) by lia.
  rewrite (take_S_r _ _ _ Hi), !fmap_app, <- list_fmap_compose. done.
Qed.

End Exceptions.

(** ** What is enough for a run to end *)

Section Soundness.
Variable env : Env.

Lemma sound_vehicle_record v :
  sound_vehicle v → ∃ q, vehicle_of v = Returns q ∧ sound_record q.
Proof.
  intros [[s Hs] H]. unfold has_scalars in H. simpl in H. unfold vehicle_of.
  repeat (apply Forall_cons in H as [Hx H]; destruct Hx as (? & ? & ?)).
  match goal with
  | E : getitem v "tmstmp" = Returns ?x |- _ =>
      assert (x = VStr s) as -> by congruence
  end.
  clear Hs.
  repeat match goal with E : getitem v _ = Returns _ |- _ => rewrite E; clear E end.
  cbn [mbind result_bind]. eexists. split; [done|]. split.
  - simpl. eauto.
  - unfold vehicle_row, scalar_row. simpl. by repeat constructor.
Qed.

Lemma nameable_vehicle_record v :
  nameable_vehicle v → ∃ q, vehicle_of v = Returns q ∧ nameable_record q.
Proof.
  intros [(ts & Hs & Hn) H]. unfold has_scalars in H. simpl in H. unfold vehicle_of.
  repeat (apply Forall_cons in H as [Hx H]; destruct Hx as (? & ? & ?)).
  match goal with
  | E : getitem v "tmstmp" = Returns ?x |- _ =>
      assert (x = ts) as -> by congruence
  end.
  clear Hs.
  repeat match goal with E : getitem v _ = Returns _ |- _ => rewrite E; clear E end.
  cbn [mbind result_bind]. eexists. split; [done|]. split.
  - done.
  - unfold vehicle_row, scalar_row. simpl. by repeat constructor.
Qed.

Lemma sound_prediction_record p :
  sound_prediction p →
  ∃ b, is_arrival p = Returns b ∧
       (b = true → ∃ q, prediction_of p = Returns q ∧ scalar_row (prediction_row q)).
Proof.
  intros [[typ Htyp] H]. exists (is_str "A" typ). unfold is_arrival at 1.
  rewrite Htyp. split; [done|]. intros Ha.
  assert (arrival p) as Hp.
  { unfold arrival, is_arrival. rewrite Htyp. cbn [fmap result_fmap]. by rewrite Ha. }
  specialize (H Hp). unfold has_scalars in H. simpl in H. unfold prediction_of.
  repeat (apply Forall_cons in H as [Hx H]; destruct Hx as (? & ? & ?)).
  repeat match goal with E : getitem p _ = Returns _ |- _ => rewrite E; clear E end.
  cbn [mbind result_bind]. eexists. split; [done|].
  unfold prediction_row, scalar_row. simpl. by repeat constructor.
Qed.

Lemma comprehension_sound {A B} (f : A → result B) (P : A → Prop) (Q : B → Prop) l :
  (∀ x, P x → ∃ y, f x = Returns y ∧ Q y) → Forall P l →
  ∃ ys, comprehension f l = Returns ys ∧ Forall Q ys ∧ length ys = length l.
Proof.
  intros Hf. induction 1 as [|x l Hx _ (ys & Hys & HQ & Hlen)].
  - by exists [].
  - destruct (Hf x Hx) as (y & Hy & Hq). exists (y :: ys). simpl.
    rewrite Hy, Hys. split_and!; [done|by constructor|by rewrite Hlen].
Qed.

Lemma comprehension_if_sound {A B} (cond : A → result bool) (f : A → result B)
    (P : A → Prop) (Q : B → Prop) l :
  (∀ x, P x → ∃ b, cond x = Returns b ∧ (b = true → ∃ y, f x = Returns y ∧ Q y)) →
  Forall P l →
  ∃ ys, comprehension_if cond f l = Returns ys ∧ Forall Q ys.
Proof.
  intros Hf. induction 1 as [|x l Hx _ (ys & Hys & HQ)].
  - by exists [].
  - destruct (Hf x Hx) as (b & Hb & Hy). simpl. rewrite Hb. simpl.
    destruct b.
    + destruct (Hy eq_refl) as (y & -> & Hq). simpl. rewrite Hys.
      exists (y :: ys). split; [done|by constructor].
    + by exists ys.
Qed.

Lemma vehicles_reply_digest (P : value → Prop) (Q : Vehicle.t → Prop) r :
  (∀ v, P v → ∃ q, vehicle_of v = Returns q ∧ Q q) →
  sound_reply "vehicle" P r →
  ∃ now, (vehicles_in env r).1 = Returns now ∧ Forall Q now ∧
         (brings_a_vehicle r → now ≠ []).
Proof.
  unfold vehicles_in.
  intros HPQ [Hfail|(kvs & Hr & [Hno|(raw & Hraw & Hsound)])].
  - exists []. rewrite digest_failed by done. split_and!; [done|constructor|].
    by intros (? & ? & ? & [? _] & _).
  - exists []. pose proof Hr as [_ Ha]%carries_answer.
    rewrite (digest_lacks_list _ _ _ _ _ _ Ha Hno). split_and!; [done|constructor|].
    intros (kvs' & v & raw & Hr' & Hraw).
    apply carries_answer in Hr' as [_ Ha']. rewrite Ha in Ha'.
    injection Ha' as <-. apply getitem_contains in Hraw. simpl in Hraw.
    injection Hraw as Hraw. by apply bool_decide_eq_true in Hraw.
  - rewrite (digest_list _ _ _ _ _ _ _ Hr Hraw).
    destruct (comprehension_sound vehicle_of P Q raw)
      as (now & Hnow & Hrec & Hlen); [done..|].
    exists now. split_and!; [done..|].
    intros (kvs' & v & raw' & Hr' & Hraw').
    pose proof Hr as [_ Ha]%carries_answer.
    apply carries_answer in Hr' as [_ Ha']. rewrite Ha in Ha'.
    injection Ha' as <-. rewrite Hraw in Hraw'. injection Hraw' as ->.
    by destruct now.
Qed.

Lemma sound_vehicles_reply_digest r :
  sound_reply "vehicle" sound_vehicle r →
  ∃ now, (vehicles_in env r).1 = Returns now ∧ Forall sound_record now ∧
         (brings_a_vehicle r → now ≠ []).
Proof. apply vehicles_reply_digest, sound_vehicle_record. Qed.

Lemma nameable_vehicles_reply_digest r :
  sound_reply "vehicle" nameable_vehicle r →
  ∃ now, (vehicles_in env r).1 = Returns now ∧ Forall nameable_record now ∧
         (brings_a_vehicle r → now ≠ []).
Proof. apply vehicles_reply_digest, nameable_vehicle_record. Qed.

Lemma sound_predictions_reply_digest r :
  sound_reply "prd" sound_prediction r →
  ∃ new, (predictions_in env r).1 = Returns new ∧
         Forall (λ q, scalar_row (prediction_row q)) new.
Proof.
  unfold predictions_in. intros [Hfail|(kvs & Hr & [Hno|(raw & Hraw & Hsound)])].
  - exists []. rewrite digest_failed by done. by split.
  - exists []. pose proof Hr as [_ Ha]%carries_answer.
    rewrite (digest_lacks_list _ _ _ _ _ _ Ha Hno). by split.
  - rewrite (digest_list _ _ _ _ _ _ _ Hr Hraw).
    apply (comprehension_if_sound is_arrival prediction_of sound_prediction);
      [apply sound_prediction_record|done].
Qed.

End Soundness.

Section BusUpdatesCompletes.
Import GatherBusUpdates BusUpdatesFacts.

Variable env : Env.

Lemma bus_updates_loop_returns k n st0 :
  (∀ m, sound_reply "vehicle" nameable_vehicle
          (vehicles_reply env (CALLS_COUNT st0 + m) ROUTE_ID)) →
  k < 600 →
  brings_a_vehicle (vehicles_reply env (CALLS_COUNT st0 + k) ROUTE_ID) →
  Forall nameable_record (vehicles st0) →
  ∃ st, loop env n 600 st0 = (Returns (), st) ∧
        CALLS_COUNT st = CALLS_COUNT st0 + n ∧
        Forall nameable_record (vehicles st) ∧ (k < n → vehicles st ≠ []).
Proof.
  intros Hsound Hk Hbrings Hst0. induction n as [|n IH].
  - exists st0. split_and!; [done|lia|done|lia].
  - destruct IH as (st & Hrun & Hc & Hrec & Hne).
    rewrite bus_updates_loop_S, Hrun, bus_updates_iteration_run, Hc.
    destruct (nameable_vehicles_reply_digest env _ (Hsound n))
      as (now & -> & Hnow & Hsome).
    unfold rest_of_iteration.
    assert (Forall nameable_record (vehicles st ++ now)) as Hall
      by (by apply Forall_app).
    assert (k < S n → vehicles st ++ now ≠ []) as Hne'.
    { intros Hlt. destruct (decide (k = n)) as [->|Hkn].
      - intros [_ Hnil]%app_eq_nil. by apply Hsome.
      - intros [Hnil _]%app_eq_nil. apply Hne; [lia|done]. }
    case_decide as Hdue.
    + assert (vehicles st ++ now ≠ []) as Hsome'.
      { apply Hne'.
        assert (600 ≤ n + 1); [|lia]. apply Nat.Div0.mod_divides in Hdue as [c Hc'].
        destruct c; lia. }
      destruct (last_returns _ Hsome') as (newest & Hlast & Hin).
      destruct (vehicles st ++ now) as [|oldest vs] eqn:Evs; [done|].
      rewrite <- Evs in *.
      assert (first (vehicles st ++ now) = Returns oldest) as Hfirst
        by (by rewrite Evs).
      pose proof Hall as Hall'. rewrite Forall_forall in Hall'.
      destruct (bus_updates_snapshot_returns (vehicles st ++ now) oldest newest)
        as (path & df & Hsnap); [done..| | | |].
      * apply Hall'. rewrite Evs. by left.
      * by apply Hall'.
      * apply Forall_fmap, Forall_forall. intros q Hq. by apply Hall'.
      * cbn [gathered vehicles after_call]. rewrite Hsnap. eexists.
        split; [done|]. simpl. split_and!; [lia|done|done].
    + eexists. split; [done|]. simpl. split_and!; [lia|done|done].
Qed.


End BusUpdatesCompletes.

Section PredictionsCompletes.
Import GatherPredictions PredictionsFacts.

Variable env : Env.

Hypothesis sound_vehicles :
  ∀ n, sound_reply "vehicle" sound_vehicle (vehicles_reply env n ROUTE_ID).
Hypothesis sound_predictions :
  ∀ n vehicle_ids,
    sound_reply "prd" sound_prediction
      (requests_get env n PREDICTIONS_URL (request_params env "vid" vehicle_ids)).

Lemma predictions_from_sound vehicles starts acc st :
  Forall (λ q, scalar_row (prediction_row q)) acc →
  ∃ new st', predictions_from env vehicles starts acc st = (Returns new, st') ∧
             Forall (λ q, scalar_row (prediction_row q)) new.
Proof.
  revert acc st. induction starts as [|i starts IH]; intros acc st Hacc.
  - by exists acc, st.
  - rewrite predictions_from_cons. unfold mbind at 1, Py_bind.
    rewrite get_predictions_run. fold PREDICTIONS_URL.
    destruct (sound_predictions_reply_digest env _
                (sound_predictions (CALLS_COUNT st)
                   (vids env (slice vehicles i (Nat.min (i + 10) (length vehicles))))))
      as (got & -> & Hgot).
    apply IH. by apply Forall_app.
Qed.

Lemma predictions_iteration_sound every i st :
  Forall (λ q, scalar_row (vehicle_row q)) (vehicles st) →
  Forall (λ q, scalar_row (prediction_row q)) (predictions st) →
  ∃ st', iteration env every i st = (Returns (), st') ∧
         Forall (λ q, scalar_row (vehicle_row q)) (vehicles st') ∧
         Forall (λ q, scalar_row (prediction_row q)) (predictions st').
Proof.
  intros Hv Hp. rewrite predictions_iteration_run, get_vehicles_run.
  fold VEHICLES_URL. fold (vehicles_reply env (CALLS_COUNT st) ROUTE_ID).
  destruct (sound_vehicles_reply_digest env _ (sound_vehicles (CALLS_COUNT st)))
    as (now & -> & Hnow & _).
  set (st1 := after_call _ _ _ _).
  pose proof (get_predictions_for_vehicles_quiet env now st1) as (Hv1 & Hp1 & _).
  destruct (predictions_from_sound now (range 0 (length now) 10) [] st1)
    as (new & st2 & Hrun & Hnew); [constructor|].
  unfold get_predictions_for_vehicles in *. rewrite Hrun in *.
  cbn [snd] in Hv1, Hp1. unfold rest_of_iteration.
  assert (Forall (λ q, scalar_row (vehicle_row q)) (vehicles st2 ++ now)) as Hv'.
  { rewrite Hv1. apply Forall_app. split; [done|].
    eapply Forall_impl; [exact Hnow|]. by intros q [_ ?]. }
  assert (Forall (λ q, scalar_row (prediction_row q)) (predictions st2 ++ new)) as Hp'.
  { rewrite Hp1. by apply Forall_app. }
  case_decide.
  - unfold snapshots. cbn [gathered vehicles predictions].
    destruct (drop_duplicates_returns (prediction_row <$> predictions st2 ++ new))
      as [dfp ->]; [by apply Forall_fmap|].
    destruct (drop_duplicates_returns (vehicle_row <$> vehicles st2 ++ now))
      as [dfv ->]; [by apply Forall_fmap|].
    eexists. split; [done|]. by split.
  - eexists. split; [done|]. by split.
Qed.

Lemma predictions_loop_sound n every st0 :
  Forall (λ q, scalar_row (vehicle_row q)) (vehicles st0) →
  Forall (λ q, scalar_row (prediction_row q)) (predictions st0) →
  ∃ st, loop env n every st0 = (Returns (), st) ∧
        Forall (λ q, scalar_row (vehicle_row q)) (vehicles st) ∧
        Forall (λ q, scalar_row (prediction_row q)) (predictions st).
Proof.
  intros Hv Hp. induction n as [|n (st & Hrun & Hv' & Hp')].
  - by exists st0.
  - rewrite predictions_loop_S, Hrun. by apply predictions_iteration_sound.
Qed.

End PredictionsCompletes.

Section Completes.
Variable env : Env.


End Completes.

(** ** The further theorems at sample runs *)

Lemma fetches_use_a_new_dictionary_witness :
  heap (get_vehicles feed "61A" initial).2 !! query_api_defaults = Some ∅ ∧
  heap (GatherPredictions.loop feed 2 1 initial).2 !! query_api_defaults = Some ∅.
Proof.
  destruct (fetches_use_a_new_dictionary feed initial query_api_defaults ∅)
    as (Hv & _ & _ & _ & Hp & _); [reflexivity|].
  split; [apply Hv|apply Hp].
Defined.

Lemma fetches_print_what_failed_witness :
  printed (since initial (get_vehicles down "61A" initial).2)
  = ["500 Internal Server Error"; "Couldn't retrieve vehicles None"].
Proof.
  destruct (fetches_print_what_failed down initial) as [Hv _].
  destruct (Hv "61A") as (H & _). apply H. vm_compute. discriminate.
Defined.

Lemma get_vehicles_maps_entries_witness :
  ∃ vs,
    (get_vehicles feed_once "61A" initial).1 = Returns vs ∧
    Forall2 (row_of VEHICLE_FIELDS)
      [raw_vehicle "3201" "20200302 10:15:00"; raw_vehicle "3207" "20200302 10:15:02"]
      (vehicle_row <$> vs).
Proof.
  eapply (get_vehicles_maps_entries feed_once "61A" initial).
  - split; [done|]. eexists. split; reflexivity.
  - reflexivity.
  - repeat constructor; by eexists.
Defined.

Lemma get_predictions_maps_arrivals_witness :
  ∃ ps,
    (get_predictions feed "3201,3207" initial).1 = Returns ps ∧
    Forall2 (row_of PREDICTION_FIELDS) [raw_prediction "A" "3201" "8192"]
      (prediction_row <$> ps).
Proof.
  eapply (get_predictions_maps_arrivals feed "3201,3207" initial _
            [raw_prediction "A" "3201" "8192"; raw_prediction "D" "3201" "8193"]).
  - split; [done|]. eexists. split; reflexivity.
  - reflexivity.
  - repeat constructor; by eexists.
  - constructor; [|constructor; [|constructor]].
    + intros _. repeat constructor; by eexists.
    + intros H. vm_compute in H. discriminate H.
Defined.

Lemma get_vehicles_entry_without_key_witness :
  (get_vehicles short_of_speed "61A" initial).1 = Raises (KeyError "spd").
Proof.
  eapply (get_vehicles_entry_without_key short_of_speed "61A" initial _
            [raw_vehicle "3201" "20200302 10:15:00"] raw_vehicle_without_speed []
            8 "spd").
  - split; [done|]. eexists. split; reflexivity.
  - reflexivity.
  - repeat constructor; by eexists.
  - eexists. split_and!; [reflexivity|reflexivity| |].
    + intros k Hk. simpl in Hk.
      repeat (apply elem_of_cons in Hk as [->|Hk]; [by repeat constructor|]).
      by apply elem_of_nil in Hk.
    + intros Hin. simpl in Hin.
      repeat (apply elem_of_cons in Hin as [Hin|Hin]; [discriminate Hin|]).
      by apply elem_of_nil in Hin.
Defined.

Lemma get_predictions_entry_without_key_witness :
  (get_predictions untyped "3201" initial).1 = Raises (KeyError "typ").
Proof.
  destruct (get_predictions_entry_without_key untyped "3201" initial
              [("prd",
                VList [raw_prediction "A" "3201" "8192"; raw_prediction_without_typ])]
              [raw_prediction "A" "3201" "8192"] raw_prediction_without_typ [])
    as [H _].
  - split; [done|]. eexists. split; reflexivity.
  - reflexivity.
  - constructor; [|constructor]. eexists. split; [reflexivity|].
    intros _. repeat constructor; by eexists.
  - by apply H.
Defined.

Lemma predictions_iteration_requests_witness :
  CALLS_COUNT (GatherPredictions.iteration feed 3 0 initial).2 = 2.
Proof.
  destruct (predictions_iteration_requests feed 3 0 initial) as (_ & H & _).
  - vm_compute. reflexivity.
  - rewrite H. vm_compute. reflexivity.
Defined.

Lemma predictions_run_through_an_outage_witness :
  (GatherPredictions.main down initial).1 = Returns () ∧
  vehicles (GatherPredictions.main down initial).2 = [].
Proof.
  destruct (predictions_run_through_an_outage down initial)
    as (Hret & _ & _ & Hv & _).
  - intros k. vm_compute. discriminate.
  - reflexivity.
  - reflexivity.
  - split; [exact Hret|exact Hv].
Defined.

Lemma raising_iteration_adds_no_record_witness :
  predictions (GatherPredictions.iteration bare 3 0 initial).2 = [].
Proof.
  destruct (raising_iteration_adds_no_record bare 3 0 initial
              (KeyError "bustime-response")) as [_ H].
  - vm_compute. discriminate.
  - destruct H as [_ H]; [vm_compute; reflexivity|exact H].
Defined.

Lemma query_api_body_that_does_not_decode_witness :
  (query_api garbled VEHICLES_ENDPOINT None initial).1 = Raises JSONDecodeError.
Proof.
  destruct (query_api_body_that_does_not_decode garbled VEHICLES_ENDPOINT None initial)
    as (H & _); [reflexivity|].
  apply H. reflexivity.
Defined.

Lemma envelope_that_is_no_object_witness :
  (get_vehicles void "61A" initial).1 = Returns [].
Proof.
  destruct (envelope_that_is_no_object void "61A" initial VNone) as (_ & H & _).
  - split; [reflexivity|]. eexists. split; reflexivity.
  - discriminate.
  - apply H. reflexivity.
Defined.

Lemma get_predictions_for_vehicles_stops_at_raise_witness :
  (get_predictions_for_vehicles bare_once fleet23 initial).1
  = Raises (KeyError "bustime-response") ∧
  CALLS_COUNT (get_predictions_for_vehicles bare_once fleet23 initial).2 = 2.
Proof.
  destruct (get_predictions_for_vehicles_stops_at_raise bare_once fleet23 initial
              (λ _, [arrival_8192]) 1 (take 10 (drop 10 fleet23))
              (KeyError "bustime-response")) as (H1 & H2 & _).
  - vm_compute. reflexivity.
  - intros j g' Hj Hg. destruct j as [|j]; [|lia]. vm_compute in Hg.
    injection Hg as <-. vm_compute. reflexivity.
  - vm_compute. reflexivity.
  - split; [exact H1|exact H2].
Defined.

Lemma feed_once_sound_vehicles route_ids n :
  sound_reply "vehicle" sound_vehicle (vehicles_reply feed_once n route_ids).
Proof.
  destruct n as [|n]; [right|by left].
  eexists. split; [split; [reflexivity|eexists; split; reflexivity]|].
  right. eexists. split; [reflexivity|].
  repeat constructor; by eexists.
Qed.

Lemma feed_once_nameable_vehicles route_ids n :
  sound_reply "vehicle" nameable_vehicle (vehicles_reply feed_once n route_ids).
Proof.
  destruct n as [|n]; [right|by left].
  eexists. split; [split; [reflexivity|eexists; split; reflexivity]|].
  right. eexists. split; [reflexivity|].
  repeat (apply Forall_cons; split); [| |constructor].
  - split; [|repeat constructor; by eexists].
    eexists. split; [reflexivity|]. eexists. split; [reflexivity|].
    split; [|vm_compute; lia]. apply (bool_decide_unpack _). vm_compute. exact I.
  - split; [|repeat constructor; by eexists].
    eexists. split; [reflexivity|]. eexists. split; [reflexivity|].
    split; [|vm_compute; lia]. apply (bool_decide_unpack _). vm_compute. exact I.
Qed.



Lemma rows_are_labelled_by_first_position_witness :
  Forall (λ w, labelled_by_first_position vehicle_row
                 (vehicles (GatherBusUpdates.loop feed 2 1 initial).2) w.2)
    (written (since initial (GatherBusUpdates.loop feed 2 1 initial).2)).
Proof.
  destruct (rows_are_labelled_by_first_position feed 2 1 initial) as [H _].
  apply H.
  apply (uniform_check (types (vehicle_row (parked "3201"))));
    apply (bool_decide_unpack _); vm_compute; exact I.
Defined.

Lemma bus_updates_complete_run_witness :
  CALLS_COUNT (GatherBusUpdates.main feed_once initial).2 = 3600 ∧
  length (written (since initial (GatherBusUpdates.main feed_once initial).2)) = 6.
Proof.
  destruct (bus_updates_complete_run feed_once initial) as (_ & Hc & _ & _ & Hw & _).
  - vm_compute. reflexivity.
  - split; [exact Hc|exact Hw].
Defined.

Lemma predictions_complete_run_witness :
  sleeps (since initial (GatherPredictions.main feed_once initial).2) = 1440 ∧
  length (written (since initial (GatherPredictions.main feed_once initial).2)) = 24.
Proof.
  destruct (predictions_complete_run feed_once initial) as (Hs & _ & Hw & _).
  - vm_compute. reflexivity.
  - split; [exact Hs|]. rewrite <- (length_fmap fst), Hw. reflexivity.
Defined.
